(** * JobTrack: the link-analysis pipeline of [backend/services/analyzeJobLinks.js]

    A shallow embedding of [writeWorkbookWithRetry], [fetchPageContent],
    [classifyWithOpenAI] and [analyzeJobLinks], followed by the properties
    the specification states about them.

    Conventions of the embedding.
    - A JavaScript string is the sequence of its code units; the links,
      titles and replies considered have code units below 256, so a string
      is a Rocq [string].
    - Asynchronous code is sequential here: every [await] is a step of a
      state-and-exception monad [M] over a [World] that holds the file on
      disk, the open browser resources and a chronological event log.
    - What the outside world answers (the file system, the rendering
      engine, the classification service, the platform's [URL] and
      [JSON.parse]) is read from an [Env]; nothing about it is assumed. *)

From Stdlib Require Import String Ascii ZArith List Bool Lia.
From stdpp Require Import base option list gmap strings pretty.

Set Warnings "-register-all,-abstract-large-number".

Local Open Scope string_scope.
Local Open Scope list_scope.

(** ** JavaScript strings *)

Module JS.

(** White space as [String.prototype.trim] and the regular expression
    class [\s] see it, among code units below 256. *)
Definition is_space (c : ascii) : bool :=
  let n := nat_of_ascii c in
  (Nat.eqb n 9 || Nat.eqb n 10 || Nat.eqb n 11 || Nat.eqb n 12
   || Nat.eqb n 13 || Nat.eqb n 32 || Nat.eqb n 160)%bool.

Definition is_empty (s : string) : bool :=
  match s with EmptyString => true | String _ _ => false end.

Fixpoint trimStart (s : string) : string :=
  match s with
  | EmptyString => EmptyString
  | String c r => if is_space c then trimStart r else s
  end.

Fixpoint trimEnd (s : string) : string :=
  match s with
  | EmptyString => EmptyString
  | String c r =>
      let r' := trimEnd r in
      if (is_space c && is_empty r')%bool then EmptyString else String c r'
  end.

Definition trim (s : string) : string := trimEnd (trimStart s).

Definition startsWith (s p : string) : bool := String.prefix p s.

(** [s.indexOf(sub)]; [None] stands for [-1]. *)
Definition indexOf (s sub : string) : option nat := String.index 0 sub s.

Definition includes (s sub : string) : bool :=
  match indexOf s sub with Some _ => true | None => false end.

(** [s.substring(0, n)], also [s.slice(0, n)] for [0 <= n]. *)
Definition substring0 (n : nat) (s : string) : string :=
  String.substring 0 n s.

Definition drop (n : nat) (s : string) : string :=
  String.substring n (String.length s - n) s.

Definition endsWith (s p : string) : bool :=
  (Nat.leb (String.length p) (String.length s)
   && String.eqb (drop (String.length s - String.length p) s) p)%bool.

Definition lower (c : ascii) : ascii :=
  let n := nat_of_ascii c in
  if (Nat.leb 65 n && Nat.leb n 90)%bool then ascii_of_nat (n + 32) else c.

Fixpoint toLowerCase (s : string) : string :=
  match s with
  | EmptyString => EmptyString
  | String c r => String (lower c) (toLowerCase r)
  end.

(** [Array.prototype.join] on an array of strings. *)
Fixpoint join (sep : string) (l : list string) : string :=
  match l with
  | [] => ""
  | [x] => x
  | x :: r => x +:+ sep +:+ join sep r
  end.

Definition nl : string := String "010"%char EmptyString.
Definition dq : string := String "034"%char EmptyString.
Definition backticks : string := "```".

(** [s.replace(/^```(?:json)?\s*/i, "")] *)
Definition stripFenceOpen (s : string) : string :=
  if startsWith s backticks then
    let r := drop 3 s in
    let r := if String.eqb (toLowerCase (substring0 4 r)) "json"
             then drop 4 r else r in
    trimStart r
  else s.

(** [s.replace(/\s*```$/i, "")] *)
Definition stripFenceClose (s : string) : string :=
  if endsWith s backticks
  then trimEnd (substring0 (String.length s - 3) s)
  else s.

End JS.

(** ** Errors and the monad of effects *)

(** An [Error] object, as far as the code reads it: [err.code] and
    [err.message]. *)
Record js_error := mkError {
  err_code : option string;
  err_message : option string;
}.

Global Instance js_error_eq_dec : EqDecision js_error.
Proof. solve_decision. Defined.

Definition Error (msg : string) : js_error :=
  {| err_code := None; err_message := Some msg |}.

(** The value thrown by [throw lastErr] when [lastErr] was never assigned. *)
Definition thrown_undefined : js_error :=
  {| err_code := None; err_message := None |}.

Definition has_code (e : js_error) (c : string) : bool :=
  match err_code e with Some c' => String.eqb c' c | None => false end.

(** [err.message?.includes(sub)] *)
Definition message_includes (e : js_error) (sub : string) : bool :=
  match err_message e with Some m => JS.includes m sub | None => false end.

Inductive result (A : Type) : Type :=
| Ok (a : A)
| Throw (e : js_error).
Arguments Ok {A} a.
Arguments Throw {A} e.

(** ** Data model *)

(** A number, as far as the code observes it: its truthiness and the
    string [String(n)] renders. *)
Record jsnum := mkNum { num_truthy : bool; num_text : string }.

Global Instance jsnum_eq_dec : EqDecision jsnum.
Proof. solve_decision. Defined.

(** A cell of a row produced by [XLSX.utils.sheet_to_json] with
    [defval: ""]: a string, a number or a boolean. *)
Inductive cell :=
| CStr (s : string)
| CNum (n : jsnum)
| CBool (b : bool).

Global Instance cell_eq_dec : EqDecision cell.
Proof. solve_decision. Defined.

(** A row object: column name to cell. A missing key reads [undefined]. *)
Abbreviation row := (gmap string cell).
Abbreviation table := (list (gmap string cell)).

Definition cell_truthy (c : cell) : bool :=
  match c with
  | CStr s => negb (JS.is_empty s)
  | CNum n => num_truthy n
  | CBool b => b
  end.

(** [String(c)] *)
Definition cell_String (c : cell) : string :=
  match c with
  | CStr s => s
  | CNum n => num_text n
  | CBool true => "true"
  | CBool false => "false"
  end.

(** A value produced by [JSON.parse]. An object lists its own properties;
    lookup takes the first binding of a key. *)
Inductive json :=
| JNull
| JBool (b : bool)
| JNum (n : jsnum)
| JStr (s : string)
| JArr (l : list json)
| JObj (m : list (string * json)).

Fixpoint assoc {A} (k : string) (m : list (string * A)) : option A :=
  match m with
  | [] => None
  | (k', v) :: r => if String.eqb k' k then Some v else assoc k r
  end.

Record Classification := mkClassification {
  remote : string;
  bestStack : string;
  allPossibleStacks : list json;
  hasSpecialPhrase : bool;
  matchedSpecialPhrases : list json;
  industry : string;
  annualSalary : string;
  level : string;
}.

Definition STACK_LIST : list string :=
  [ "Frontend"; "Backend"; "Fullstack"; "DevOps"; "QA"; "Mobile";
    "Data Science"; "Data Engineer"; "Data Analyst"; "ML Engineer";
    "AI Engineer"; "Software Engineer"; "Cloud Engineer";
    "Database Administrator"; "Network Engineer";
    "Site Reliability Engineer"; "UX/UI Designer" ].

Definition SALARY_BUCKETS : list string :=
  [ "30K <"; "60K <"; "100K <"; "160K <"; "200K <"; "N/A" ].

Definition LEVEL_VALUES : list string :=
  [ "Middle"; "Senior"; "Staff"; "Principal"; "Principle"; "Lead";
    "Architect"; "N/A" ].

Definition DEFAULT_CLASSIFICATION : Classification :=
  {| remote := "N/A";
     bestStack := "N/A";
     allPossibleStacks := [];
     hasSpecialPhrase := false;
     matchedSpecialPhrases := [];
     industry := "N/A";
     annualSalary := "N/A";
     level := "N/A" |}.

(** The columns the orchestrator adds or overwrites, in the order of the
    object literal pushed on [results]. *)
Definition DERIVED_COLUMNS : list string :=
  [ "Date"; "Status"; "Link"; "Remote"; "BestStack"; "AllPossibleStacks";
    "SecretRequired"; "GovernanceAndSecurityPhrases"; "Industry";
    "AnnualSalary"; "Level" ].

Definition MAX_CONTENT_CHARS : nat := 12000.
Definition DELAY_BETWEEN_FETCHES_MS : Z := 500%Z.
Definition WRITE_RETRIES : nat := 5.
Definition WRITE_RETRY_DELAY_MS : Z := 1500%Z.

(** ** The outside world *)

(** What [new URL(link)] exposes to the normalizer. *)
Record URL := mkURL {
  origin : string;
  pathname : string;
  hostname : string;
}.

(** One rendering session, as the engine will answer it: for each awaited
    call whether it rejects, the visible text of the main frame, and for
    every other frame of the page the outcome of evaluating it. *)
Record session := mkSession {
  s_launch : option js_error;
  s_newContext : option js_error;
  s_newPage : option js_error;
  s_goto : option js_error;
  s_settle : option js_error;
  s_wheel : nat -> option js_error;
  s_wait : nat -> option js_error;
  s_body : result string;
  s_frames : list (result string);
}.

(** The answer of [openai.chat.completions.create]: a rejection, or the
    text [completion.choices[0]?.message?.content || ""]. A completion of
    another shape raises a [TypeError] inside the [try] and is a
    [ChatError] here. *)
Inductive chat_outcome :=
| ChatError (e : js_error)
| ChatReply (content : string).

Record Env := mkEnv {
  (** [__dirname/../output/JobLinks.xlsx] *)
  env_inputPath : string;
  (** [process.env.OPENAI_API_KEY], [None] when unset *)
  env_apiKey : option string;
  (** [new Date().toLocaleDateString("en-US")] *)
  env_today : string;
  (** the names of the columns of the first sheet, in the order in which
      [Object.keys] lists them on a row read from it *)
  env_columns : list string;
  (** [new URL(s)]; [None] when it throws *)
  env_URL : string -> option URL;
  (** [JSON.parse(s)] *)
  env_JSON_parse : string -> result json;
  (** outcome of the k-th call of [XLSX.writeFile]; [None] is success, an
      error a refusal that leaves the file as it was *)
  env_writeFile : nat -> option js_error;
  (** the k-th rendering session, started for this URL *)
  env_session : nat -> string -> session;
  (** outcome of the k-th call of the classification service *)
  env_chat : nat -> string -> chat_outcome;
}.

Inductive console_level := LOG | WARN | ERROR.

Inductive event :=
| EvWriteFile (t : table) (failure : option js_error)
| EvDelay (ms : Z)
| EvLaunch (url : string)
| EvGoto (url : string)
| EvPageWait (ms : Z)
| EvWheel
| EvPageClose
| EvChat (userContent : string)
| EvConsole (lvl : console_level) (args : list string).

Record World := mkWorld {
  (** first sheet of [JobLinks.xlsx] as rows; [None] when the file is absent *)
  w_disk : option table;
  w_writes : nat;
  w_sessions : nat;
  w_chats : nat;
  (** browsers and pages currently open *)
  w_browsers : nat;
  w_pages : nat;
  w_log : list event;
}.

Definition M (A : Type) : Type := World -> result A * World.

Definition ret {A} (a : A) : M A := fun w => (Ok a, w).

Definition throw {A} (e : js_error) : M A := fun w => (Throw e, w).

Definition bind {A B} (m : M A) (k : A -> M B) : M B :=
  fun w =>
    match m w with
    | (Ok a, w') => k a w'
    | (Throw e, w') => (Throw e, w')
    end.

(** [try { body } catch (err) { handler }] *)
Definition try_catch {A} (body : M A) (handler : js_error -> M A) : M A :=
  fun w =>
    match body w with
    | (Ok a, w') => (Ok a, w')
    | (Throw e, w') => handler e w'
    end.

Definition lift {A} (r : result A) : M A := fun w => (r, w).

Notation "'let!' x ':=' m 'in' k" := (bind m (fun x => k))
  (at level 10, x pattern, m at level 100, k at level 200, only parsing).

Notation "m ';!' k" := (bind m (fun _ => k))
  (at level 100, k at level 200, right associativity, only parsing).

Definition emit (e : event) : M unit :=
  fun w =>
    (Ok tt, {| w_disk := w_disk w; w_writes := w_writes w;
               w_sessions := w_sessions w; w_chats := w_chats w;
               w_browsers := w_browsers w; w_pages := w_pages w;
               w_log := w_log w ++ [e] |}).

Definition delay (ms : Z) : M unit := emit (EvDelay ms).

Definition console (lvl : console_level) (args : list string) : M unit :=
  emit (EvConsole lvl args).

(** [${err.message}] *)
Definition message_text (e : js_error) : string :=
  match err_message e with Some m => m | None => "undefined" end.

(** An awaited call that rejects with [e] or resolves. *)
Definition settle (o : option js_error) : M unit :=
  match o with Some e => throw e | None => ret tt end.

(** ** Values of the classifier's reply *)

Definition TypeError (msg : string) : js_error := Error msg.

(** [parsed.k] for the keys the validation reads: a [TypeError] on
    [null], the own property of an object, [undefined] ([None]) on any
    other value. *)
Definition getProp (parsed : json) (k : string) : result (option json) :=
  match parsed with
  | JNull =>
      Throw (TypeError ("Cannot read properties of null (reading '" +:+ k +:+ "')"))
  | JObj m => Ok (assoc k m)
  | _ => Ok None
  end.

(** [vocabulary.includes(v)] for a vocabulary of strings. *)
Definition includes_value (vocabulary : list string) (v : option json) : bool :=
  match v with
  | Some (JStr s) => bool_decide (s ∈ vocabulary)
  | _ => false
  end.

(** [Boolean(v)] *)
Definition truthy (v : option json) : bool :=
  match v with
  | None | Some JNull => false
  | Some (JBool b) => b
  | Some (JNum n) => num_truthy n
  | Some (JStr s) => negb (JS.is_empty s)
  | Some (JArr _) | Some (JObj _) => true
  end.

(** [Array.isArray(v) ? v : []] *)
Definition array_or_empty (v : option json) : list json :=
  match v with Some (JArr l) => l | _ => [] end.

Definition string_of_value (v : option json) : string :=
  match v with Some (JStr s) => s | _ => "" end.

Definition rbind {A B} (r : result A) (k : A -> result B) : result B :=
  match r with Ok a => k a | Throw e => Throw e end.

Notation "'get!' x ':=' r 'in' k" := (rbind r (fun x => k))
  (at level 10, x pattern, r at level 100, k at level 200, only parsing).

(** The object literal returned from the [try] block of
    [classifyWithOpenAI], fields in evaluation order. *)
Definition validate (parsed : json) : result Classification :=
  let validRemote := ["Remote"; "Hybrid"; "On-site"; "N/A"] in
  get! p_remote := getProp parsed "remote" in
  get! p_bestStack := getProp parsed "bestStack" in
  get! p_all := getProp parsed "allPossibleStacks" in
  get! p_has := getProp parsed "hasSpecialPhrase" in
  get! p_matched := getProp parsed "matchedSpecialPhrases" in
  get! p_industry := getProp parsed "industry" in
  get! p_salary := getProp parsed "annualSalary" in
  get! p_level := getProp parsed "level" in
  Ok {| remote :=
          if includes_value validRemote p_remote
          then string_of_value p_remote else "N/A";
        bestStack :=
          match p_bestStack with
          | Some (JStr s) =>
              if negb (String.eqb (JS.trim s) "") then JS.trim s else "N/A"
          | _ => "N/A"
          end;
        allPossibleStacks := array_or_empty p_all;
        hasSpecialPhrase := truthy p_has;
        matchedSpecialPhrases := array_or_empty p_matched;
        industry :=
          if includes_value ["finance"; "healthcare"; "N/A"; ""] p_industry
          then (if truthy p_industry then string_of_value p_industry else "N/A")
          else "N/A";
        annualSalary :=
          if includes_value SALARY_BUCKETS p_salary
          then string_of_value p_salary else "N/A";
        level :=
          if includes_value LEVEL_VALUES p_level
          then (if String.eqb (string_of_value p_level) "Principle"
                then "Principal" else string_of_value p_level)
          else "N/A" |}.

(** [String(v)] of a parsed value. An object with an own [toString]
    property has no callable conversion left and raises. *)
Fixpoint toString (v : json) : result string :=
  match v with
  | JNull => Ok "null"
  | JBool true => Ok "true"
  | JBool false => Ok "false"
  | JNum n => Ok (num_text n)
  | JStr s => Ok s
  | JArr l =>
      let fix elems (l : list json) : result (list string) :=
        match l with
        | [] => Ok []
        | x :: r =>
            get! s := match x with JNull => Ok "" | _ => toString x end in
            get! ss := elems r in
            Ok (s :: ss)
        end in
      get! ss := elems l in Ok (JS.join "," ss)
  | JObj m =>
      match assoc "toString" m with
      | Some _ => Throw (TypeError "Cannot convert object to primitive value")
      | None => Ok "[object Object]"
      end
  end.

(** [array.join(sep)]: [null] elements render as the empty string. *)
Fixpoint element_strings (l : list json) : result (list string) :=
  match l with
  | [] => Ok []
  | x :: r =>
      get! s := match x with JNull => Ok "" | _ => toString x end in
      get! ss := element_strings r in
      Ok (s :: ss)
  end.

Definition array_join (sep : string) (l : list json) : result string :=
  get! ss := element_strings l in Ok (JS.join sep ss).

(** ** The pipeline *)

Section Pipeline.

Variable env : Env.

(** *** Tabular store: [writeWorkbookWithRetry] *)

(** [XLSX.writeFile(workbook, filePath)]: the k-th call succeeds and
    replaces the file, or throws. A failure stands for a write that is
    refused before the file is touched, as a lock or a missing permission
    refuses it when the file is opened: the file is then as it was. A
    write that fails after the file was opened and truncated (a full
    disk, an I/O error) is outside the model. *)
Definition XLSX_writeFile (t : table) : M unit :=
  fun w =>
    let failure := env_writeFile env (w_writes w) in
    (match failure with None => Ok tt | Some e => Throw e end,
     {| w_disk := match failure with None => Some t | Some _ => w_disk w end;
        w_writes := S (w_writes w);
        w_sessions := w_sessions w; w_chats := w_chats w;
        w_browsers := w_browsers w; w_pages := w_pages w;
        w_log := w_log w ++ [EvWriteFile t failure] |}).

Definition busyErr : js_error :=
  {| err_code := Some "EBUSY";
     err_message := Some "JobLinks.xlsx is busy or locked. Please close it in Excel (or any other program) and try again." |}.

(** The [for] loop of [writeWorkbookWithRetry] from [attempt] on, with
    [remaining] iterations left before [attempt] exceeds [WRITE_RETRIES]. *)
Fixpoint write_attempts (remaining attempt : nat) (lastErr : option js_error)
    (workbook : table) : M unit :=
  match remaining with
  | O => throw (match lastErr with Some e => e | None => thrown_undefined end)
  | S remaining' =>
      try_catch (XLSX_writeFile workbook)
        (fun err =>
           if (has_code err "EBUSY" && Nat.ltb attempt WRITE_RETRIES)%bool then
             delay (WRITE_RETRY_DELAY_MS * Z.of_nat attempt) ;!
             write_attempts remaining' (S attempt) (Some err) workbook
           else if has_code err "EBUSY" then throw busyErr
           else throw err)
  end.

Definition writeWorkbookWithRetry (workbook : table) : M unit :=
  write_attempts WRITE_RETRIES 1 None workbook.

(** *** Content fetcher: [fetchPageContent] *)

(** [chromium.launch(...)]: starts the k-th session; a browser is open
    from then on when the launch resolves. *)
Definition chromium_launch (url : string) : M session :=
  fun w =>
    let s := env_session env (w_sessions w) url in
    (match s_launch s with None => Ok s | Some e => Throw e end,
     {| w_disk := w_disk w; w_writes := w_writes w;
        w_sessions := S (w_sessions w); w_chats := w_chats w;
        w_browsers := match s_launch s with
                      | None => S (w_browsers w) | Some _ => w_browsers w end;
        w_pages := w_pages w;
        w_log := w_log w ++ [EvLaunch url] |}).

(** [browsercontext.newPage()] *)
Definition newPage (s : session) : M unit :=
  fun w =>
    (match s_newPage s with None => Ok tt | Some e => Throw e end,
     {| w_disk := w_disk w; w_writes := w_writes w;
        w_sessions := w_sessions w; w_chats := w_chats w;
        w_browsers := w_browsers w;
        w_pages := match s_newPage s with
                   | None => S (w_pages w) | Some _ => w_pages w end;
        w_log := w_log w |}).

(** [page.close()], not awaited. *)
Definition page_close : M unit :=
  fun w =>
    (Ok tt,
     {| w_disk := w_disk w; w_writes := w_writes w;
        w_sessions := w_sessions w; w_chats := w_chats w;
        w_browsers := w_browsers w; w_pages := Nat.pred (w_pages w);
        w_log := w_log w ++ [EvPageClose] |}).

(** [for (let i = 0; i < 10; i++) { wheel; waitForTimeout(2000) }] from
    [i] on, [remaining] cycles left. *)
Fixpoint scroll_cycles (s : session) (remaining i : nat) : M unit :=
  match remaining with
  | O => ret tt
  | S remaining' =>
      emit EvWheel ;! settle (s_wheel s i) ;!
      emit (EvPageWait 2000) ;! settle (s_wait s i) ;!
      scroll_cycles s remaining' (S i)
  end.

(** [for (const frame of frames)] over the frames other than the main one. *)
Fixpoint frames_loop (frames : list (result string)) (textContent : string)
    : M string :=
  match frames with
  | [] => ret textContent
  | frame :: rest =>
      let! textContent :=
        try_catch
          (let! frameText := lift frame in
           if (negb (JS.is_empty frameText)
               && Nat.ltb 0 (String.length (JS.trim frameText)))%bool
           then ret (textContent +:+ JS.nl +:+ JS.nl +:+ frameText)
           else ret textContent)
          (fun e =>
             console WARN ["⚠️ Could not extract text from iframe: " +:+ message_text e] ;!
             ret textContent) in
      frames_loop rest textContent
  end.

(** The [try] block of [fetchPageContent]. *)
Definition renderPage (url : string) : M string :=
  let! s := chromium_launch url in
  settle (s_newContext s) ;!
  newPage s ;!
  emit (EvGoto url) ;! settle (s_goto s) ;!
  emit (EvPageWait 12000) ;! settle (s_settle s) ;!
  scroll_cycles s 10 0 ;!
  let! textContent := lift (s_body s) in
  let! textContent := frames_loop (s_frames s) textContent in
  page_close ;!
  ret textContent.

Definition fetchPageContent (url : string) : M string :=
  try_catch (renderPage url)
    (fun err =>
       console WARN ["Failed to fetch " +:+ url +:+ ":"; message_text err] ;!
       ret "").

(** *** Classifier: [classifyWithOpenAI] *)

(** [openai.chat.completions.create(...)] followed by reading
    [choices[0]?.message?.content || ""]. *)
Definition chat_completion (userContent : string) : M string :=
  fun w =>
    (match env_chat env (w_chats w) userContent with
     | ChatError e => Throw e
     | ChatReply c => Ok c
     end,
     {| w_disk := w_disk w; w_writes := w_writes w;
        w_sessions := w_sessions w; w_chats := S (w_chats w);
        w_browsers := w_browsers w; w_pages := w_pages w;
        w_log := w_log w ++ [EvChat userContent] |}).

(** From the reply text to the returned object: trimming, removal of a
    code fence, [JSON.parse] and the validation of every field. *)
Definition decodeReply (content : string) : result Classification :=
  let raw := JS.trim content in
  let jsonStr := JS.trim (JS.stripFenceClose (JS.stripFenceOpen raw)) in
  get! parsed := env_JSON_parse env jsonStr in
  validate parsed.

Definition isConnectionError (err : js_error) : bool :=
  (has_code err "ECONNREFUSED" || has_code err "ETIMEDOUT"
   || has_code err "ENOTFOUND" || message_includes err "401"
   || message_includes err "Connection" || message_includes err "timeout")%bool.

(** One iteration of the [for] loop of [classifyWithOpenAI]: the [try]
    block returns the validated object ([Some]), the [catch] block logs,
    pauses before a retry of a connection error, and lets the loop go on
    ([None]). *)
Definition classify_attempt (attempt maxRetries : nat) (userContent : string)
    : M (option Classification) :=
  try_catch
    (let! content := chat_completion userContent in
     let! c := lift (decodeReply content) in
     ret (Some c))
    (fun err =>
       console WARN
         ["OpenAI classification error (attempt " +:+ pretty attempt
          +:+ "/" +:+ pretty maxRetries +:+ "): " +:+ message_text err] ;!
       (if (isConnectionError err && Nat.ltb attempt maxRetries)%bool then
          let delay_ms := (2 ^ (Z.of_nat attempt - 1) * 1000)%Z in
          console LOG ["Retrying in " +:+ pretty delay_ms +:+ "ms..."] ;!
          delay delay_ms
        else if Nat.eqb attempt maxRetries then
          console ERROR
            ["Failed to classify after " +:+ pretty maxRetries
             +:+ " attempts. Last error:"]
        else ret tt) ;!
       ret None).

(** The [for] loop from [attempt] on; running off its end returns the
    default classification. *)
Fixpoint classify_attempts (remaining attempt maxRetries : nat)
    (userContent : string) : M Classification :=
  match remaining with
  | O => ret DEFAULT_CLASSIFICATION
  | S remaining' =>
      let! returned := classify_attempt attempt maxRetries userContent in
      match returned with
      | Some c => ret c
      | None => classify_attempts remaining' (S attempt) maxRetries userContent
      end
  end.

(** The user message: title and truncated page text. *)
Definition userContentOf (jobTitle pageContent : string) : string :=
  let content := JS.substring0 MAX_CONTENT_CHARS pageContent in
  "Job Title: " +:+ (if JS.is_empty jobTitle then "Unknown" else jobTitle)
  +:+ JS.nl +:+ JS.nl +:+ "Job description / page content:" +:+ JS.nl
  +:+ (if JS.is_empty content then "(no content)" else content).

Definition classifyWithOpenAI (jobTitle pageContent : string)
    (apiKey : option string) (maxRetries : nat) : M Classification :=
  let key := match apiKey with Some k => k | None => "" end in
  if JS.is_empty key then
    console WARN ["OPENAI_API_KEY not set; using defaults"] ;!
    ret DEFAULT_CLASSIFICATION
  else if negb (JS.startsWith key "sk-") then
    console ERROR ["Invalid OpenAI API key format. Key should start with 'sk-'"] ;!
    ret DEFAULT_CLASSIFICATION
  else
    let userContent := userContentOf jobTitle pageContent in
    classify_attempts maxRetries 1 maxRetries userContent.

(** *** Orchestrator: [analyzeJobLinks] *)

(** The link normalizer: the [try]/[catch] around [new URL(link)]. *)
Definition refineLink (link : string) : string :=
  match env_URL env link with
  | Some u =>
      if JS.includes (hostname u) "applytojob.com" then
        origin u +:+ pathname u
      else if JS.includes (pathname u) "/apply" then
        let idx := match JS.indexOf (pathname u) "/apply" with
                   | Some idx => idx | None => O end in
        origin u +:+ JS.substring0 idx (pathname u)
      else
        origin u +:+ pathname u
  | None => link
  end.

(** The object pushed on [results]: the row's own columns, then the
    derived ones. *)
Definition mergeRow (r : row) (today link : string) (c : Classification)
    : result row :=
  get! stacks := array_join ", " (allPossibleStacks c) in
  get! phrases := array_join "; " (matchedSpecialPhrases c) in
  Ok (<["Level" := CStr (level c)]>
      (<["AnnualSalary" := CStr (annualSalary c)]>
      (<["Industry" := CStr (industry c)]>
      (<["GovernanceAndSecurityPhrases" := CStr phrases]>
      (<["SecretRequired" := CStr (if hasSpecialPhrase c then "Yes" else "No")]>
      (<["AllPossibleStacks" := CStr stacks]>
      (<["BestStack" := CStr (bestStack c)]>
      (<["Remote" := CStr (remote c)]>
      (<["Link" := CStr link]>
      (<["Status" := CStr "Not Applied"]>
      (<["Date" := CStr today]> r))))))))))).

(** The strings of [l] in their order, each once, without those of [seen]. *)
Fixpoint uniq (seen l : list string) : list string :=
  match l with
  | [] => []
  | x :: rest =>
      if bool_decide (x ∈ seen) then uniq seen rest
      else x :: uniq (x :: seen) rest
  end.

(** [Object.keys(r)]: the columns of [r] in the order in which [order]
    lists them, each once. A row object carries no order of its own:
    [order] is the order of the columns of the sheet and, for a merged
    row, the order in which the object literal adds the others. A column
    that [order] does not list comes after those it lists. *)
Definition keys (order : list string) (r : row) : list string :=
  let listed := uniq [] (filter (fun k => is_Some (r !! k)) order) in
  listed ++ filter (fun k => k ∉ listed) (elements (dom r)).

(** [r[h] != null && r[h] !== "" ? r[h] : ""] *)
Definition cell_or_empty (o : option cell) : cell :=
  match o with
  | Some v => if bool_decide (v = CStr "") then CStr "" else v
  | None => CStr ""
  end.

(** A row not yet processed, laid out on the headers of the table. *)
Definition unprocessedRow (headers : list string) (r : row) : row :=
  fold_left (fun out h => <[h := cell_or_empty (r !! h)]> out) headers ∅.

Definition linkKey : string := "Link".
Definition titleKey : string := "Title".

(** [row[linkKey] ? String(row[linkKey]).trim() : ""] *)
Definition linkOf (r : row) : string :=
  match r !! linkKey with
  | Some c => if cell_truthy c then JS.trim (cell_String c) else ""
  | None => ""
  end.

(** [row[titleKey] != null ? String(row[titleKey]).trim() : ""] *)
Definition titleOf (r : row) : string :=
  match r !! titleKey with
  | Some c => JS.trim (cell_String c)
  | None => ""
  end.

(** [Object.keys(rows[0] || {})] *)
Definition headersOf (order : list string) (rows : table) : list string :=
  match rows with r0 :: _ => keys order r0 | [] => [] end.

(** The table saved after row [i]. *)
Definition fullRows (rows results : table) (i : nat) : table :=
  let headers := headersOf (env_columns env ++ DERIVED_COLUMNS) results in
  results ++ map (unprocessedRow headers) (skipn (S i) rows).

(** The [if (link) { ... }] block: the classification of the row and its
    refined link, the defaults when the link is empty. *)
Definition analyzeLink (link title : string) : M (Classification * string) :=
  if negb (JS.is_empty link) then
    let refinedLink := refineLink link in
    let! pageText := fetchPageContent refinedLink in
    let! classification :=
      classifyWithOpenAI title pageText
        (Some (match env_apiKey env with Some k => k | None => "" end)) 3 in
    ret (classification, refinedLink)
  else ret (DEFAULT_CLASSIFICATION, "").

(** One iteration of the [for] loop over [rows]; returns [results]. *)
Definition processRow (rows results : table) (i : nat) (r : row) : M table :=
  let link := linkOf r in
  let title := titleOf r in
  let! (classification, refinedLink) := analyzeLink link title in
  let! merged :=
    lift (mergeRow r (env_today env)
            (if JS.is_empty refinedLink then link else refinedLink)
            classification) in
  let results := results ++ [merged] in
  writeWorkbookWithRetry (fullRows rows results i) ;!
  (if Nat.ltb i (length rows - 1) then delay DELAY_BETWEEN_FETCHES_MS
   else ret tt) ;!
  ret results.

Fixpoint rows_loop (remaining i : nat) (rows results : table) : M table :=
  match remaining with
  | O => ret results
  | S remaining' =>
      match rows !! i with
      | None => ret results
      | Some r =>
          let! results := processRow rows results i r in
          rows_loop remaining' (S i) rows results
      end
  end.

Record Output := mkOutput { filePath : string; fileName : string }.

Definition analyzeJobLinks : M Output :=
  fun w =>
    match w_disk w with
    | None =>
        (Throw (Error ("JobLinks.xlsx not found at " +:+ env_inputPath env)), w)
    | Some rows =>
        let hasLinkColumn :=
          (Nat.eqb (length rows) 0
           || match rows with
              | r0 :: _ => bool_decide (is_Some (r0 !! linkKey))
              | [] => false
              end)%bool in
        if negb hasLinkColumn then
          (Throw (Error ("JobLinks.xlsx must have a " +:+ JS.dq +:+ "Link"
                         +:+ JS.dq +:+ " column. Found: "
                         +:+ JS.join ", " (headersOf (env_columns env) rows))), w)
        else
          (rows_loop (length rows) 0 rows [] ;!
           ret {| filePath := env_inputPath env;
                  fileName := "JobLinks.xlsx" |}) w
    end.

End Pipeline.

(** ** The platform's [URL] on plain web links

    [new URL(s)] is the platform's parser. [WebURL.parse] gives its answer
    on the links it leaves as they are: a lower-case [http] or [https]
    scheme, [://], a host name of lower-case letters, digits, [-] and [.]
    whose last label starts with a letter and none of whose labels is
    internationalised, no user info and no port, a path of segments over
    letters, digits, [-], [_], [~] and [.] none of which is [.] or [..],
    and an optional query or fragment of printable characters. On such a
    link the origin is the scheme and host, the pathname is the path ([/]
    when empty) and nothing is rewritten. Every other string is outside
    the model and answered [None]. *)

Module WebURL.

Definition code (c : ascii) : nat := nat_of_ascii c.

Definition is_digit (c : ascii) : bool :=
  (Nat.leb 48 (code c) && Nat.leb (code c) 57)%bool.
Definition is_lower (c : ascii) : bool :=
  (Nat.leb 97 (code c) && Nat.leb (code c) 122)%bool.
Definition is_upper (c : ascii) : bool :=
  (Nat.leb 65 (code c) && Nat.leb (code c) 90)%bool.

Definition host_char (c : ascii) : bool :=
  (is_lower c || is_digit c || Ascii.eqb c "-" || Ascii.eqb c ".")%bool.

Definition path_char (c : ascii) : bool :=
  (is_lower c || is_upper c || is_digit c || Ascii.eqb c "-"
   || Ascii.eqb c "_" || Ascii.eqb c "~" || Ascii.eqb c "."
   || Ascii.eqb c "/")%bool.

Definition printable (c : ascii) : bool :=
  (Nat.leb 33 (code c) && Nat.leb (code c) 126)%bool.

(** The longest prefix of [s] made of characters in [p], and the rest. *)
Fixpoint span (p : ascii -> bool) (s : string) : string * string :=
  match s with
  | EmptyString => (EmptyString, EmptyString)
  | String c r =>
      if p c then let '(a, b) := span p r in (String c a, b)
      else (EmptyString, s)
  end.

Fixpoint all (p : ascii -> bool) (s : string) : bool :=
  match s with
  | EmptyString => true
  | String c r => (p c && all p r)%bool
  end.

(** [s] cut at every occurrence of [sep]; [cur] is the piece being read,
    in reverse. *)
Fixpoint split_on (sep : ascii) (s : string) (cur : string) : list string :=
  match s with
  | EmptyString => [cur]
  | String c r =>
      if Ascii.eqb c sep then cur :: split_on sep r EmptyString
      else split_on sep r (cur +:+ String c EmptyString)
  end.

Definition first_is (p : ascii -> bool) (s : string) : bool :=
  match s with String c _ => p c | EmptyString => false end.

Definition label_ok (l : string) : bool :=
  (negb (JS.is_empty l) && negb (JS.startsWith l "xn--"))%bool.

Definition host_ok (h : string) : bool :=
  let labels := split_on "." h EmptyString in
  (forallb label_ok labels && first_is is_lower (List.last labels EmptyString))%bool.

Definition segment_ok (seg : string) : bool :=
  negb (String.eqb seg "." || String.eqb seg "..")%bool.

Definition scheme_of (s : string) : option (string * string) :=
  if JS.startsWith s "https://" then Some ("https", JS.drop 8 s)
  else if JS.startsWith s "http://" then Some ("http", JS.drop 7 s)
  else None.

Definition parse (s : string) : option URL :=
  match scheme_of s with
  | None => None
  | Some (scheme, after) =>
      let '(host, rest) := span host_char after in
      let '(path, tail) := span path_char rest in
      if (host_ok host
          && (JS.is_empty path || JS.startsWith path "/")
          && forallb segment_ok (split_on "/" path EmptyString)
          && (JS.is_empty tail || JS.startsWith tail "?" || JS.startsWith tail "#")
          && all printable tail)%bool
      then Some {| origin := scheme +:+ "://" +:+ host;
                   pathname := if JS.is_empty path then "/" else path;
                   hostname := host |}
      else None
  end.

End WebURL.


(** ** Observations on a run *)

(** The events a computation added to the log of [w], read from the world
    it ended in. *)
Definition new_events (w w' : World) : list event :=
  skipn (length (w_log w)) (w_log w').

(** The tables that reached the disk, oldest first. *)
Fixpoint saved (log : list event) : list table :=
  match log with
  | [] => []
  | EvWriteFile t None :: r => t :: saved r
  | _ :: r => saved r
  end.

Fixpoint delays (log : list event) : list Z :=
  match log with
  | [] => []
  | EvDelay ms :: r => ms :: delays r
  | _ :: r => delays r
  end.

(** Attempts to write the file, successful or not. *)
Fixpoint write_calls (log : list event) : list table :=
  match log with
  | [] => []
  | EvWriteFile t _ :: r => t :: write_calls r
  | _ :: r => write_calls r
  end.

(** A rendering session or a call of the classification service. *)
Definition is_remote_call (e : event) : bool :=
  match e with
  | EvLaunch _ | EvGoto _ | EvChat _ => true
  | _ => false
  end.

Definition is_write (e : event) : bool :=
  match e with EvWriteFile _ _ => true | _ => false end.

(** What the [try] block of attempt number k of the classifier yields. *)
Definition attempt_outcome (env : Env) (k : nat) (userContent : string)
    : result Classification :=
  match env_chat env k userContent with
  | ChatError e => Throw e
  | ChatReply content => decodeReply env content
  end.

Definition failure_of {A} (r : result A) : option js_error :=
  match r with Ok _ => None | Throw e => Some e end.

(** The pauses of a classification whose attempts [attempt], [attempt + 1],
    ... all fail, the first of them being call number [k] of the service. *)
Fixpoint backoff (env : Env) (userContent : string)
    (remaining attempt maxRetries k : nat) : list Z :=
  match remaining with
  | O => []
  | S remaining' =>
      match failure_of (attempt_outcome env k userContent) with
      | Some err =>
          (if (isConnectionError err && Nat.ltb attempt maxRetries)%bool
           then [(2 ^ (Z.of_nat attempt - 1) * 1000)%Z] else [])
          ++ backoff env userContent remaining' (S attempt) maxRetries (S k)
      | None => []
      end
  end.

(** A credential the classifier accepts: present, not empty, with the
    prefix of a secret key. *)
Definition credential_ok (apiKey : option string) : bool :=
  match apiKey with
  | Some key => (negb (JS.is_empty key) && JS.startsWith key "sk-")%bool
  | None => false
  end.

(** The closed vocabularies of the specification. *)
Definition REMOTE_VALUES : list string := ["Remote"; "Hybrid"; "On-site"; "N/A"].
Definition INDUSTRY_VALUES : list string := ["finance"; "healthcare"; "N/A"].
Definition LEVEL_VOCABULARY : list string :=
  ["Middle"; "Senior"; "Staff"; "Principal"; "Lead"; "Architect"; "N/A"].
Definition STACK_VOCABULARY : list string := STACK_LIST ++ ["N/A"].


(** The property [k] of a parsed reply, [None] when it has none. *)
Definition field (parsed : json) (k : string) : option json :=
  match getProp parsed k with Ok v => v | Throw _ => None end.

(** What the validation guarantees of a classification: every enumerated
    field is in its vocabulary and the stack is not empty. *)
Definition validated (c : Classification) : Prop :=
  remote c ∈ REMOTE_VALUES /\ industry c ∈ INDUSTRY_VALUES
  /\ annualSalary c ∈ SALARY_BUCKETS /\ level c ∈ LEVEL_VOCABULARY
  /\ bestStack c <> "".

(** The part of the path the normalizer keeps. *)
Definition keptPath (u : URL) : string :=
  if JS.includes (hostname u) "applytojob.com" then pathname u
  else match JS.indexOf (pathname u) "/apply" with
       | Some idx => JS.substring0 idx (pathname u)
       | None => pathname u
       end.

(** The normalized form of a link parsed as [u] parses again, to the same
    origin and host, with the kept path as its path. *)
Definition reparses (env : Env) (u : URL) : Prop :=
  exists u', env_URL env (origin u +:+ keptPath u) = Some u'
             /\ origin u' = origin u /\ hostname u' = hostname u
             /\ pathname u' = keptPath u.

(** ** Scenarios

    Concrete worlds on which the statements below are exercised. *)

Definition EBUSY : js_error :=
  {| err_code := Some "EBUSY";
     err_message := Some "EBUSY: resource busy or locked, open 'JobLinks.xlsx'" |}.

Definition EACCES : js_error :=
  {| err_code := Some "EACCES";
     err_message := Some "EACCES: permission denied, open 'JobLinks.xlsx'" |}.

Definition ETIMEDOUT : js_error :=
  {| err_code := Some "ETIMEDOUT"; err_message := Some "Connection error." |}.

Definition navigation_timeout : js_error :=
  {| err_code := None;
     err_message := Some "page.goto: Timeout 300000ms exceeded." |}.

Definition SyntaxError : js_error := Error "Unexpected end of JSON input".

(** A page that renders without incident and shows [text]. *)
Definition page (text : string) : session :=
  {| s_launch := None; s_newContext := None; s_newPage := None;
     s_goto := None; s_settle := None;
     s_wheel := fun _ => None; s_wait := fun _ => None;
     s_body := Ok text; s_frames := [] |}.

(** A page whose navigation times out. *)
Definition unreachable_page : session :=
  {| s_launch := None; s_newContext := None; s_newPage := None;
     s_goto := Some navigation_timeout; s_settle := None;
     s_wheel := fun _ => None; s_wait := fun _ => None;
     s_body := Ok ""; s_frames := [] |}.

Definition quoted (s : string) : string := JS.dq +:+ s +:+ JS.dq.

(** The reply of the scenario of the specification, as text and parsed. *)
Definition backend_reply : string :=
  "{" +:+ quoted "remote" +:+ ":" +:+ quoted "Remote" +:+ ","
  +:+ quoted "bestStack" +:+ ":" +:+ quoted "Backend" +:+ ","
  +:+ quoted "allPossibleStacks" +:+ ":[" +:+ quoted "Backend" +:+ "],"
  +:+ quoted "hasSpecialPhrase" +:+ ":false,"
  +:+ quoted "matchedSpecialPhrases" +:+ ":[],"
  +:+ quoted "industry" +:+ ":" +:+ quoted "N/A" +:+ ","
  +:+ quoted "annualSalary" +:+ ":" +:+ quoted "100K <" +:+ ","
  +:+ quoted "level" +:+ ":" +:+ quoted "Senior" +:+ "}".

Definition backend_json : json :=
  JObj [ ("remote", JStr "Remote"); ("bestStack", JStr "Backend");
         ("allPossibleStacks", JArr [JStr "Backend"]);
         ("hasSpecialPhrase", JBool false);
         ("matchedSpecialPhrases", JArr []);
         ("industry", JStr "N/A"); ("annualSalary", JStr "100K <");
         ("level", JStr "Senior") ].

(** A reply that names a stack outside the list and the level [Expert]. *)
Definition wizard_reply : string :=
  "{" +:+ quoted "bestStack" +:+ ":" +:+ quoted "Wizard" +:+ ","
  +:+ quoted "level" +:+ ":" +:+ quoted "Expert" +:+ "}".

Definition wizard_json : json :=
  JObj [ ("bestStack", JStr "Wizard"); ("level", JStr "Expert") ].

(** [JSON.parse] on the two replies above; any other text is taken as
    not being JSON. *)
Definition parse_replies (s : string) : result json :=
  if String.eqb s backend_reply then Ok backend_json
  else if String.eqb s wizard_reply then Ok wizard_json
  else Throw SyntaxError.

(** An office where everything works: the file is free, pages render and
    the service answers the reply of the specification's scenario. *)
Definition office : Env :=
  {| env_inputPath := "/srv/backend/output/JobLinks.xlsx";
     env_apiKey := Some "sk-test";
     env_today := "11/2/2026";
     env_columns := ["Title"; "Link"];
     env_URL := WebURL.parse;
     env_JSON_parse := parse_replies;
     env_writeFile := fun _ => None;
     env_session := fun _ _ => page "We are hiring a backend engineer.";
     env_chat := fun _ _ => ChatReply backend_reply |}.

Definition with_writeFile (f : nat -> option js_error) (env : Env) : Env :=
  {| env_inputPath := env_inputPath env; env_apiKey := env_apiKey env;
     env_today := env_today env; env_columns := env_columns env;
     env_URL := env_URL env;
     env_JSON_parse := env_JSON_parse env; env_writeFile := f;
     env_session := env_session env; env_chat := env_chat env |}.

Definition with_chat (f : nat -> string -> chat_outcome) (env : Env) : Env :=
  {| env_inputPath := env_inputPath env; env_apiKey := env_apiKey env;
     env_today := env_today env; env_columns := env_columns env;
     env_URL := env_URL env;
     env_JSON_parse := env_JSON_parse env; env_writeFile := env_writeFile env;
     env_session := env_session env; env_chat := f |}.

Definition with_session (f : nat -> string -> session) (env : Env) : Env :=
  {| env_inputPath := env_inputPath env; env_apiKey := env_apiKey env;
     env_today := env_today env; env_columns := env_columns env;
     env_URL := env_URL env;
     env_JSON_parse := env_JSON_parse env; env_writeFile := env_writeFile env;
     env_session := f; env_chat := env_chat env |}.

(** The file is locked for the first [k] writes. *)
Definition locked_for (k : nat) (env : Env) : Env :=
  with_writeFile (fun i => if Nat.ltb i k then Some EBUSY else None) env.

(** The service cannot be reached. *)
Definition offline (env : Env) : Env :=
  with_chat (fun _ _ => ChatError ETIMEDOUT) env.

(** A world with the given table on disk and nothing done yet. *)
Definition start (disk : option table) : World :=
  {| w_disk := disk; w_writes := 0; w_sessions := 0; w_chats := 0;
     w_browsers := 0; w_pages := 0; w_log := [] |}.

Definition backend_row : gmap string cell :=
  <["Link" := CStr "https://x.com/job/1"]> {["Title" := CStr "Backend Engineer"]}.

Definition designer_row : gmap string cell :=
  <["Link" := CStr ""]> {["Title" := CStr "Designer"]}.

Definition job_rows : list (gmap string cell) := [backend_row; designer_row].


(** The service names a stack that is not in the list. *)
Definition wizard_office : Env :=
  with_chat (fun _ _ => ChatReply wizard_reply) office.

(** No page can be reached. *)
Definition unreachable_office : Env :=
  with_session (fun _ _ => unreachable_page) office.

(** The rows of [job_rows] after the run in [office]: the first merged
    with the reply of the service, the second with the defaults. *)
Definition backend_merged : gmap string cell :=
  list_to_map
    [ ("Title", CStr "Backend Engineer"); ("Link", CStr "https://x.com/job/1");
      ("Date", CStr "11/2/2026"); ("Status", CStr "Not Applied");
      ("Remote", CStr "Remote"); ("BestStack", CStr "Backend");
      ("AllPossibleStacks", CStr "Backend"); ("SecretRequired", CStr "No");
      ("GovernanceAndSecurityPhrases", CStr ""); ("Industry", CStr "N/A");
      ("AnnualSalary", CStr "100K <"); ("Level", CStr "Senior") ].

Definition designer_merged : gmap string cell :=
  list_to_map
    [ ("Title", CStr "Designer"); ("Link", CStr "");
      ("Date", CStr "11/2/2026"); ("Status", CStr "Not Applied");
      ("Remote", CStr "N/A"); ("BestStack", CStr "N/A");
      ("AllPossibleStacks", CStr ""); ("SecretRequired", CStr "No");
      ("GovernanceAndSecurityPhrases", CStr ""); ("Industry", CStr "N/A");
      ("AnnualSalary", CStr "N/A"); ("Level", CStr "N/A") ].

(** The second row before its turn: its own cells, the new columns empty. *)
Definition designer_pending : gmap string cell :=
  list_to_map
    [ ("Title", CStr "Designer"); ("Link", CStr "");
      ("Date", CStr ""); ("Status", CStr "");
      ("Remote", CStr ""); ("BestStack", CStr "");
      ("AllPossibleStacks", CStr ""); ("SecretRequired", CStr "");
      ("GovernanceAndSecurityPhrases", CStr ""); ("Industry", CStr "");
      ("AnnualSalary", CStr ""); ("Level", CStr "") ].

(** ** Notions used in the proofs *)

(** A write refused because the file is locked. *)
Definition busy (o : option js_error) : Prop :=
  exists e, o = Some e /\ has_code e "EBUSY" = true.

(** The world after one refused write followed by the pause before the
    next attempt. *)
Definition after_busy (env : Env) (t : table) (attempt : nat) (w : World)
    : World :=
  (delay (WRITE_RETRY_DELAY_MS * Z.of_nat attempt) (XLSX_writeFile env t w).2).2.

(** [m] relates every world it starts in to the world it ends in. *)
Definition keeps {A} (R : relation World) (m : M A) : Prop :=
  forall w, R w (m w).2.

(** Nothing was written: the file and the count of writes are as before
    and no event added to the log is a write. *)
Definition no_write (w w' : World) : Prop :=
  w_disk w' = w_disk w /\ w_writes w' = w_writes w
  /\ exists evs, w_log w' = w_log w ++ evs
                /\ Forall (fun e => is_write e = false) evs.

(** No browser was opened or closed. *)
Definition same_browsers (w w' : World) : Prop :=
  w_browsers w' = w_browsers w.

(** No rendering session and no call of the classification service. *)
Definition no_remote (w w' : World) : Prop :=
  w_sessions w' = w_sessions w /\ w_chats w' = w_chats w
  /\ w_browsers w' = w_browsers w /\ w_pages w' = w_pages w
  /\ exists evs, w_log w' = w_log w ++ evs
                /\ Forall (fun e => is_remote_call e = false) evs.

(** ** Further notions *)

(** The pause before the retry that follows attempt [attempt] of a save. *)
Definition save_pause (attempt : nat) : Z :=
  (WRITE_RETRY_DELAY_MS * Z.of_nat attempt)%Z.

Fixpoint sum_Z (l : list Z) : Z :=
  match l with
  | [] => 0%Z
  | x :: r => (x + sum_Z r)%Z
  end.

(** The first scroll step that rejects, wheel before wait, cycle by cycle. *)
Fixpoint scroll_failure (s : session) (remaining i : nat) : option js_error :=
  match remaining with
  | O => None
  | S remaining' =>
      match s_wheel s i with
      | Some e => Some e
      | None =>
          match s_wait s i with
          | Some e => Some e
          | None => scroll_failure s remaining' (S i)
          end
      end
  end.

Definition first_failure (steps : list (option js_error)) : option js_error :=
  List.fold_right (fun o rest => match o with Some e => Some e | None => rest end)
    None steps.

(** The first awaited step of a session that rejects, in the order of the
    code. The frames other than the main one are not among them. *)
Definition session_failure (s : session) : option js_error :=
  first_failure
    [ s_launch s; s_newContext s; s_newPage s; s_goto s; s_settle s;
      scroll_failure s 10 0; failure_of (s_body s) ].

(** A step after the page was opened rejects. *)
Definition fails_with_page_open (s : session) : bool :=
  match s_launch s, s_newContext s, s_newPage s with
  | None, None, None =>
      match session_failure s with Some _ => true | None => false end
  | _, _, _ => false
  end.

(** A frame text that is not blank. *)
Definition visible (frameText : string) : bool :=
  negb (JS.is_empty (JS.trim frameText)).

(** The texts of the frames that could be read and are not blank. *)
Fixpoint visible_frames (frames : list (result string)) : list string :=
  match frames with
  | [] => []
  | Ok t :: rest =>
      if visible t then t :: visible_frames rest else visible_frames rest
  | Throw _ :: rest => visible_frames rest
  end.

(** The errors of the frames that could not be read. *)
Fixpoint unreadable_frames (frames : list (result string)) : list js_error :=
  match frames with
  | [] => []
  | Ok _ :: rest => unreadable_frames rest
  | Throw e :: rest => e :: unreadable_frames rest
  end.

(** The text of a page: the main frame, then each visible frame after a
    blank line. *)
Definition page_text (body : string) (frames : list (result string)) : string :=
  fold_left (fun text t => text +:+ JS.nl +:+ JS.nl +:+ t) (visible_frames frames) body.

Fixpoint warnings (log : list event) : list (list string) :=
  match log with
  | [] => []
  | EvConsole WARN args :: r => args :: warnings r
  | _ :: r => warnings r
  end.

(** Only the log differs. *)
Definition only_logged (w w' : World) : Prop :=
  w_disk w' = w_disk w /\ w_writes w' = w_writes w
  /\ w_sessions w' = w_sessions w /\ w_chats w' = w_chats w
  /\ w_browsers w' = w_browsers w /\ w_pages w' = w_pages w.

(** The text a session yields when no step rejects. *)
Definition session_text (s : session) : string :=
  match s_body s with
  | Ok body => page_text body (s_frames s)
  | Throw _ => ""
  end.

(** The user messages sent to the classification service, oldest first. *)
Fixpoint chat_calls (log : list event) : list string :=
  match log with
  | [] => []
  | EvChat userContent :: r => userContent :: chat_calls r
  | _ :: r => chat_calls r
  end.

(** The row has a link to analyse. *)
Definition linked (r : row) : bool := negb (JS.is_empty (linkOf r)).

Fixpoint linked_rows (rows : table) : nat :=
  match rows with
  | [] => 0
  | r :: rest => (if linked r then 1 else 0) + linked_rows rest
  end.

(** [refinedLink || link] for the row: the refined link, the link as it
    is when refining yields nothing, nothing without a link. *)
Definition storedLink (env : Env) (r : row) : string :=
  if linked r then
    if JS.is_empty (refineLink env (linkOf r)) then linkOf r
    else refineLink env (linkOf r)
  else "".

(** A browser was launched for session [k] on [url]. *)
Definition launched (env : Env) (k : nat) (url : string) : nat :=
  match s_launch (env_session env k url) with None => 1 | Some _ => 0 end.

(** White space only. *)
Fixpoint blank (s : string) : bool :=
  match s with
  | EmptyString => true
  | String c r => (JS.is_space c && blank r)%bool
  end.

(** A reply inside a code fence: the opening fence with its tag, the body
    between white space, the closing fence. *)
Definition fenced (tag lead body trail : string) : string :=
  JS.backticks +:+ tag +:+ lead +:+ body +:+ trail +:+ JS.backticks.

(** The properties of a reply the validation reads. *)
Definition CLASSIFICATION_KEYS : list string :=
  [ "remote"; "bestStack"; "allPossibleStacks"; "hasSpecialPhrase";
    "matchedSpecialPhrases"; "industry"; "annualSalary"; "level" ].

(** The text handed to [JSON.parse]: the reply trimmed and freed of its
    code fence. *)
Definition jsonStrOf (content : string) : string :=
  JS.trim (JS.stripFenceClose (JS.stripFenceOpen (JS.trim content))).

(** A parsed reply that is not [null] and carries none of the properties
    the validation reads: a number, a string, a boolean, an array, or an
    object without any of them. *)
Definition without_fields (parsed : json) : Prop :=
  match parsed with
  | JNull => False
  | JObj m => forall k, k ∈ CLASSIFICATION_KEYS -> assoc k m = None
  | _ => True
  end.

(** Call number [k] of the service, with the message [userContent], is
    answered by a text that parses to [parsed]. *)
Definition replied (env : Env) (k : nat) (userContent : string)
    (parsed : json) : Prop :=
  exists content,
    env_chat env k userContent = ChatReply content
    /\ env_JSON_parse env (jsonStrOf content) = Ok parsed.

(** Neither [?] nor [#]. *)
Definition plain_char (c : ascii) : bool :=
  (negb (Ascii.eqb c "?") && negb (Ascii.eqb c "#"))%bool.

(** [String(v)] raises on no part of [v]: no object in it, at any depth
    of arrays, has a property [toString] of its own. *)
Fixpoint printable (v : json) : bool :=
  match v with
  | JArr l => forallb printable l
  | JObj m => match assoc "toString" m with Some _ => false | None => true end
  | _ => true
  end.

(** Both arrays of the classification can be joined. *)
Definition joinable (c : Classification) : Prop :=
  forallb printable (allPossibleStacks c) = true
  /\ forallb printable (matchedSpecialPhrases c) = true.

(** Whatever the service replies, the arrays of the classification read
    from it can be joined. *)
Definition replies_joinable (env : Env) : Prop :=
  forall k userContent c,
    attempt_outcome env k userContent = Ok c -> joinable c.

(** The waits inside the page, [page.waitForTimeout], oldest first. *)
Fixpoint page_waits (log : list event) : list Z :=
  match log with
  | [] => []
  | EvPageWait ms :: r => ms :: page_waits r
  | _ :: r => page_waits r
  end.

(** What a rendering session logs: its own steps and warnings. *)
Definition is_page_event (e : event) : bool :=
  match e with
  | EvLaunch _ | EvGoto _ | EvPageWait _ | EvWheel | EvPageClose
  | EvConsole _ _ => true
  | _ => false
  end.

(** Only a rendering session was at work: the classification service was
    not called and nothing but page events was logged. *)
Definition page_only (w w' : World) : Prop :=
  w_chats w' = w_chats w
  /\ exists evs, w_log w' = w_log w ++ evs
                /\ Forall (fun e => is_page_event e = true) evs.




(** ** The technical-role classifier: [classifier.js] *)

(** An error of the client library, as far as the code reads it:
    [error.status] besides the code and the message. What is thrown on
    is the error itself, seen through its code and message. *)
Record api_error := mkApiError {
  ae_error : js_error;
  ae_status : option Z;
}.

(** What the [try] block of an attempt comes to: an error, of the call
    or of reading [completion.choices[0].message.content.trim()] on a
    completion of another shape, or the content. *)
Inductive completion :=
| Failed (error : api_error)
| Content (content : string).

(** The value thrown by [throw lastError] when [lastError] is still [null]. *)
Definition thrown_null : js_error :=
  {| err_code := None; err_message := None |}.

Module Classifier.

Definition DEFAULT_PROMPT : string :=
  "Determine if this job posting is for a technical role. A technical role requires programming, software development, IT, data science, engineering, deploying, or Telecomunication similar technical skills including technical leader. Output TECHNICAL if it is technical, NON-TECHNICAL if not.".

(** [new Classifier(apiKey)], up to the creation of the client. *)
Definition constructor (apiKey : option string) : result unit :=
  let key := match apiKey with Some k => k | None => "" end in
  if JS.is_empty key then Throw (Error "OpenAI API key is required")
  else if negb (JS.startsWith key "sk-") then
    Throw (Error ("Invalid OpenAI API key format. Key should start with "
                  +:+ JS.dq +:+ "sk-" +:+ JS.dq))
  else Ok tt.

(** A job posting; a missing property reads [undefined]. *)
Record JobPosting := mkJobPosting {
  title : option string;
  description : option string;
  company : option string;
}.

(** The options the method reads, defaults filled in: [maxRetries] is 3
    when the caller gives none; [threshold] is read and not used. *)
Record Options := mkOptions {
  customPrompt : option string;
  maxRetries : nat;
}.

(** [${v}] in a template literal. *)
Definition interpolate (v : option string) : string :=
  match v with Some s => s | None => "undefined" end.

(** [v || fallback] *)
Definition or_else (v : option string) (fallback : string) : string :=
  match v with
  | Some s => if JS.is_empty s then fallback else s
  | None => fallback
  end.

Definition promptOf (options : Options) : string :=
  or_else (customPrompt options) DEFAULT_PROMPT.

Definition jobTextOf (jobPosting : JobPosting) : string :=
  "Job Title: " +:+ interpolate (title jobPosting) +:+ JS.nl
  +:+ "Company: " +:+ or_else (company jobPosting) "Not specified" +:+ JS.nl
  +:+ "Job Description: " +:+ interpolate (description jobPosting).

Definition has_status (error : api_error) (status : Z) : bool :=
  match ae_status error with Some s => Z.eqb s status | None => false end.

Definition isConnectionError (error : api_error) : bool :=
  (has_code (ae_error error) "ECONNREFUSED"
   || has_code (ae_error error) "ETIMEDOUT"
   || has_code (ae_error error) "ENOTFOUND"
   || has_status error 401 || has_status error 429
   || message_includes (ae_error error) "Connection"
   || message_includes (ae_error error) "timeout")%bool.

(** The k-th call of [this.openai.chat.completions.create] and the
    reading of its content. *)
Definition completions_create (create : nat -> string -> string -> completion)
    (prompt jobText : string) : M completion :=
  fun w =>
    (Ok (create (w_chats w) prompt jobText),
     {| w_disk := w_disk w; w_writes := w_writes w;
        w_sessions := w_sessions w; w_chats := S (w_chats w);
        w_browsers := w_browsers w; w_pages := w_pages w;
        w_log := w_log w ++ [EvChat jobText] |}).

(** The [catch] block of attempt [attempt]. *)
Definition on_error (attempt maxRetries : nat) (error : api_error) : M unit :=
  console WARN
    ["Classification attempt " +:+ pretty attempt +:+ "/" +:+ pretty maxRetries
     +:+ " failed: " +:+ message_text (ae_error error)] ;!
  if (isConnectionError error && Nat.ltb attempt maxRetries)%bool then
    let delay_ms := (2 ^ (Z.of_nat attempt - 1) * 1000)%Z in
    console LOG ["Retrying in " +:+ pretty delay_ms +:+ "ms..."] ;!
    delay delay_ms
  else if Nat.eqb attempt maxRetries then
    console ERROR
      ["Failed to classify after " +:+ pretty maxRetries
       +:+ " attempts. Last error:"] ;!
    throw (ae_error error)
  else ret tt.

(** The [for] loop from [attempt] on, and the [throw lastError] after it. *)
Fixpoint attempts (create : nat -> string -> string -> completion)
    (remaining attempt maxRetries : nat) (prompt jobText : string)
    (lastError : option js_error) : M string :=
  match remaining with
  | O => throw (match lastError with Some e => e | None => thrown_null end)
  | S remaining' =>
      let! outcome := completions_create create prompt jobText in
      match outcome with
      | Content content => ret (JS.trim content)
      | Failed error =>
          on_error attempt maxRetries error ;!
          attempts create remaining' (S attempt) maxRetries prompt jobText
            (Some (ae_error error))
      end
  end.

Definition classifyJobPosting (create : nat -> string -> string -> completion)
    (jobPosting : JobPosting) (options : Options) : M string :=
  attempts create (maxRetries options) 1 (maxRetries options)
    (promptOf options) (jobTextOf jobPosting) None.

(** The pauses of the attempts [attempt], [attempt + 1], ..., the first of
    them being call number [k], up to the first that succeeds. *)
Fixpoint pauses (create : nat -> string -> string -> completion)
    (prompt jobText : string) (remaining attempt maxRetries k : nat) : list Z :=
  match remaining with
  | O => []
  | S remaining' =>
      match create k prompt jobText with
      | Content _ => []
      | Failed error =>
          (if (isConnectionError error && Nat.ltb attempt maxRetries)%bool
           then [(2 ^ (Z.of_nat attempt - 1) * 1000)%Z] else [])
          ++ pauses create prompt jobText remaining' (S attempt) maxRetries (S k)
      end
  end.

End Classifier.

(** ** The diagnostic script *)

Module Diagnostic.

Definition esc : string := String (ascii_of_nat 27) EmptyString.
Definition reset : string := esc +:+ "[0m".
Definition green : string := esc +:+ "[32m".
Definition red : string := esc +:+ "[31m".

Inductive status := success | error.

(** [log(status, message)] for the two statuses the key test uses. *)
Definition log (s : status) (message : string) : M unit :=
  let icon := match s with success => "✓" | error => "✗" end in
  let color := match s with success => green | error => red end in
  console LOG [color +:+ icon +:+ " " +:+ message +:+ reset].

(** [testApiKeyFormat()], on the value of [process.env.OPENAI_API_KEY]. *)
Definition testApiKeyFormat (apiKey : option string) : M bool :=
  let key := match apiKey with Some k => k | None => "" end in
  if JS.is_empty key then
    log error "Environment: OPENAI_API_KEY is not set" ;! ret false
  else if negb (JS.startsWith key "sk-") then
    log error ("API Key format: Key should start with 'sk-', but starts with '"
               +:+ JS.substring0 5 key +:+ "'") ;!
    ret false
  else if Nat.ltb (String.length key) 20 then
    log error ("API Key format: Key is too short ("
               +:+ pretty (String.length key) +:+ " chars, expected ~60+)") ;!
    ret false
  else
    log success ("API Key format: Valid format ("
                 +:+ pretty (String.length key) +:+ " characters)") ;!
    ret true.

End Diagnostic.

(** The environment gives the columns of the sheet that holds [rows]:
    those of its first row, each once. *)
Definition sheet_order (env : Env) (rows : table) : Prop :=
  match rows with
  | [] => True
  | r0 :: _ =>
      NoDup (env_columns env)
      /\ (list_to_set (env_columns env) : gset string) = dom r0
  end.

(** ** Further scenarios *)

(** The service times out once, then answers. *)
Definition recovering (env : Env) : Env :=
  with_chat (fun k _ => if Nat.eqb k 0 then ChatError ETIMEDOUT
                        else ChatReply backend_reply) env.

(** The classification the reply of the scenario is validated to. *)
Definition backend_classification : Classification :=
  {| remote := "Remote"; bestStack := "Backend";
     allPossibleStacks := [JStr "Backend"]; hasSpecialPhrase := false;
     matchedSpecialPhrases := []; industry := "N/A";
     annualSalary := "100K <"; level := "Senior" |}.

Fixpoint repeat_text (n : nat) (s : string) : string :=
  match n with
  | O => ""
  | S n' => s +:+ repeat_text n' s
  end.

(** A page text of exactly 12000 characters. *)
Definition long_page : string := repeat_text 480 "Backend engineer wanted. ".

Definition with_columns (columns : list string) (env : Env) : Env :=
  {| env_inputPath := env_inputPath env; env_apiKey := env_apiKey env;
     env_today := env_today env; env_columns := columns;
     env_URL := env_URL env;
     env_JSON_parse := env_JSON_parse env; env_writeFile := env_writeFile env;
     env_session := env_session env; env_chat := env_chat env |}.

(** A row with a title and a company, and no link, and the sheet it makes. *)
Definition acme_row : gmap string cell :=
  <["Company" := CStr "Acme"]> {["Title" := CStr "Designer"]}.

Definition titles_only : table := [acme_row].

(** A reply whose list of stacks holds an object with a [toString]
    property of its own. *)
Definition hostile_reply : string :=
  "{" +:+ quoted "allPossibleStacks" +:+ ":[{" +:+ quoted "toString"
  +:+ ":1}]}".

Definition hostile_json : json :=
  JObj [ ("allPossibleStacks",
          JArr [JObj [("toString", JNum {| num_truthy := true; num_text := "1" |})]]) ].

(** The service answers [null], whatever it is asked. *)
Definition null_office : Env :=
  {| env_inputPath := env_inputPath office; env_apiKey := env_apiKey office;
     env_today := env_today office; env_columns := env_columns office;
     env_URL := env_URL office;
     env_JSON_parse := fun s => if String.eqb s "null" then Ok JNull
                                else Throw SyntaxError;
     env_writeFile := env_writeFile office;
     env_session := env_session office;
     env_chat := fun _ _ => ChatReply "null" |}.

(** The service sends the hostile reply. *)
Definition hostile_office : Env :=
  {| env_inputPath := env_inputPath office; env_apiKey := env_apiKey office;
     env_today := env_today office; env_columns := env_columns office;
     env_URL := env_URL office;
     env_JSON_parse := fun s => if String.eqb s hostile_reply then Ok hostile_json
                                else Throw SyntaxError;
     env_writeFile := env_writeFile office;
     env_session := env_session office;
     env_chat := fun _ _ => ChatReply hostile_reply |}.

(** A service that is rate limited twice, then answers. *)
Definition rate_limited : api_error :=
  {| ae_error := {| err_code := None; err_message := Some "Rate limit reached" |};
     ae_status := Some 429%Z |}.

Definition throttled (k : nat) (prompt jobText : string) : completion :=
  if Nat.ltb k 2 then Failed rate_limited else Content " TECHNICAL ".

Definition backend_posting : Classifier.JobPosting :=
  {| Classifier.title := Some "Backend Engineer";
     Classifier.description := Some "We are hiring a backend engineer.";
     Classifier.company := None |}.

Definition default_options : Classifier.Options :=
  {| Classifier.customPrompt := None; Classifier.maxRetries := 3 |}.

(** * Properties *)

(** ** The log only grows *)

Lemma saved_app l1 l2 : saved (l1 ++ l2) = saved l1 ++ saved l2.
Proof.
  induction l1 as [|e l1 IH]; [done|].
  destruct e as [t [f|]| | | | | | | |]; simpl; by rewrite ?IH.
Qed.

Lemma delays_app l1 l2 : delays (l1 ++ l2) = delays l1 ++ delays l2.
Proof.
  induction l1 as [|e l1 IH]; [done|].
  destruct e; simpl; by rewrite ?IH.
Qed.

Lemma write_calls_app l1 l2 :
  write_calls (l1 ++ l2) = write_calls l1 ++ write_calls l2.
Proof.
  induction l1 as [|e l1 IH]; [done|].
  destruct e; simpl; by rewrite ?IH.
Qed.

Lemma new_events_app w w' evs :
  w_log w' = w_log w ++ evs -> new_events w w' = evs.
Proof.
  intros H. unfold new_events. rewrite H. apply drop_app_length.
Qed.

(** ** Saving with retries *)



Lemma write_attempts_busy_step env t remaining attempt lastErr w e :
  env_writeFile env (w_writes w) = Some e ->
  has_code e "EBUSY" = true ->
  (attempt < WRITE_RETRIES)%nat ->
  write_attempts env (S remaining) attempt lastErr t w
  = write_attempts env remaining (S attempt) (Some e) t
      (after_busy env t attempt w).
Proof.
  intros Hw Hc Hlt.
  apply Nat.ltb_lt in Hlt.
  unfold after_busy. simpl.
  unfold try_catch, XLSX_writeFile, bind. rewrite Hw, Hc, Hlt. simpl.
  reflexivity.
Qed.

Lemma after_busy_facts env t attempt w e :
  env_writeFile env (w_writes w) = Some e ->
  let w1 := after_busy env t attempt w in
  w_disk w1 = w_disk w /\ w_writes w1 = S (w_writes w)
  /\ w_log w1 = w_log w ++ [EvWriteFile t (Some e);
                            EvDelay (WRITE_RETRY_DELAY_MS * Z.of_nat attempt)].
Proof.
  intros Hw. unfold after_busy, XLSX_writeFile, delay, emit. simpl.
  rewrite Hw. rewrite <- app_assoc. done.
Qed.

(** [k] refused writes in a row, each answered by a pause, lead to the
    loop at attempt [attempt + k] with the file untouched. *)
Lemma write_attempts_busy_prefix env t k :
  forall remaining attempt lastErr w,
    (attempt + k < S WRITE_RETRIES)%nat ->
    (k < remaining)%nat ->
    (forall j, (j < k)%nat -> busy (env_writeFile env (w_writes w + j))) ->
    exists w1 lastErr1 evs,
      write_attempts env remaining attempt lastErr t w
      = write_attempts env (remaining - k) (attempt + k) lastErr1 t w1
      /\ w_disk w1 = w_disk w
      /\ w_writes w1 = (w_writes w + k)%nat
      /\ w_log w1 = w_log w ++ evs
      /\ saved evs = []
      /\ write_calls evs = replicate k t
      /\ delays evs
         = map (fun a => (WRITE_RETRY_DELAY_MS * Z.of_nat a)%Z) (seq attempt k).
Proof.
  induction k as [|k IH]; intros remaining attempt lastErr w Hatt Hrem Hbusy.
  - exists w, lastErr, []. rewrite Nat.sub_0_r, !Nat.add_0_r, app_nil_r. done.
  - destruct remaining as [|remaining]; [lia|].
    destruct (Hbusy 0%nat) as (e & He & Hc); [lia|].
    rewrite Nat.add_0_r in He.
    rewrite (write_attempts_busy_step _ _ _ _ _ _ e He Hc); [|lia].
    destruct (after_busy_facts env t attempt w e He) as (Hd & Hn & Hl).
    destruct (IH remaining (S attempt) (Some e) (after_busy env t attempt w))
      as (w1 & l1 & evs & Heq & Hd1 & Hn1 & Hl1 & Hs & Hc1 & Hdl);
      [lia | lia | |].
    { intros j Hj. rewrite Hn.
      replace (S (w_writes w) + j)%nat with (w_writes w + S j)%nat by lia.
      apply Hbusy. lia. }
    exists w1, l1, ([EvWriteFile t (Some e);
                     EvDelay (WRITE_RETRY_DELAY_MS * Z.of_nat attempt)] ++ evs).
    rewrite Heq. simpl Nat.sub.
    replace (S attempt + k)%nat with (attempt + S k)%nat by lia.
    split; [done|]. split; [congruence|]. split; [lia|].
    split; [rewrite Hl1, Hl, <- app_assoc; done|].
    simpl. rewrite Hs, Hc1, Hdl. done.
Qed.

Lemma write_attempts_success env t remaining attempt lastErr w :
  env_writeFile env (w_writes w) = None ->
  write_attempts env (S remaining) attempt lastErr t w
  = (Ok tt, (XLSX_writeFile env t w).2)
  /\ w_disk (XLSX_writeFile env t w).2 = Some t
  /\ w_log (XLSX_writeFile env t w).2 = w_log w ++ [EvWriteFile t None].
Proof.
  intros Hw. simpl. unfold try_catch, XLSX_writeFile. rewrite Hw. done.
Qed.

Lemma write_attempts_failure env t remaining attempt lastErr w e :
  env_writeFile env (w_writes w) = Some e ->
  (has_code e "EBUSY" && Nat.ltb attempt WRITE_RETRIES)%bool = false ->
  write_attempts env (S remaining) attempt lastErr t w
  = (Throw (if has_code e "EBUSY" then busyErr else e),
     (XLSX_writeFile env t w).2)
  /\ w_disk (XLSX_writeFile env t w).2 = w_disk w
  /\ w_log (XLSX_writeFile env t w).2 = w_log w ++ [EvWriteFile t (Some e)].
Proof.
  intros Hw Hc. simpl. unfold try_catch, XLSX_writeFile. rewrite Hw, Hc. simpl.
  by destruct (has_code e "EBUSY").
Qed.

Lemma busyErr_has_code : has_code busyErr "EBUSY" = true.
Proof. reflexivity. Qed.

(** C5. A save that meets a locked file [k] times in a row, [k] below the
    ceiling of 5 attempts, pauses 1500 ms times the attempt number after
    each refusal. If the next attempt succeeds the table is on disk; if
    it was the last attempt and it is refused too, the error raised is
    the busy error with its guidance and the file is as it was; an error
    other than a lock is raised at once, as it is, without a further
    attempt. *)
Theorem C5_save_retry (env : Env) (t : table) (w : World) (k : nat) :
  (k < WRITE_RETRIES)%nat ->
  (forall j, (j < k)%nat -> busy (env_writeFile env (w_writes w + j))) ->
  let r := (writeWorkbookWithRetry env t w).1 in
  let w' := (writeWorkbookWithRetry env t w).2 in
  let evs := new_events w w' in
  let pauses :=
    map (fun attempt => (WRITE_RETRY_DELAY_MS * Z.of_nat attempt)%Z) (seq 1 k) in
  (env_writeFile env (w_writes w + k) = None ->
     r = Ok tt /\ w_disk w' = Some t /\ saved evs = [t]
     /\ delays evs = pauses /\ write_calls evs = replicate (S k) t)
  /\ (S k = WRITE_RETRIES -> busy (env_writeFile env (w_writes w + k)) ->
     r = Throw busyErr /\ w_disk w' = w_disk w /\ saved evs = []
     /\ delays evs = pauses /\ write_calls evs = replicate WRITE_RETRIES t)
  /\ (forall e, env_writeFile env (w_writes w + k) = Some e ->
     has_code e "EBUSY" = false ->
     r = Throw e /\ e <> busyErr /\ w_disk w' = w_disk w /\ saved evs = []
     /\ delays evs = pauses /\ write_calls evs = replicate (S k) t).
Proof.
  intros Hk Hbusy.
  destruct (write_attempts_busy_prefix env t k WRITE_RETRIES 1 None w)
    as (w1 & l1 & evs1 & Heq & Hd & Hn & Hl & Hs & Hc & Hdl);
    [lia | lia | done |].
  unfold writeWorkbookWithRetry. rewrite Heq. clear Heq.
  destruct (WRITE_RETRIES - k)%nat as [|m] eqn:Hm; [lia|].
  rewrite <- Hn.
  split; [|split].
  - intros Hw.
    destruct (write_attempts_success env t m (1 + k) l1 w1 Hw) as (-> & Hd' & Hl').
    cbn [fst snd].
    rewrite (new_events_app w _ (evs1 ++ [EvWriteFile t None]))
      by (rewrite Hl', Hl, <- app_assoc; done).
    rewrite saved_app, delays_app, write_calls_app, Hs, Hdl, Hc.
    cbn [saved delays write_calls]. rewrite app_nil_r, replicate_S_end. done.
  - intros Hlast (e & Hw & Hcode).
    destruct (write_attempts_failure env t m (1 + k) l1 w1 e Hw) as (-> & Hd' & Hl').
    { rewrite Hcode. simpl. apply Nat.ltb_ge. lia. }
    cbn [fst snd]. rewrite Hcode.
    rewrite (new_events_app w _ (evs1 ++ [EvWriteFile t (Some e)]))
      by (rewrite Hl', Hl, <- app_assoc; done).
    rewrite saved_app, delays_app, write_calls_app, Hs, Hdl, Hc.
    cbn [saved delays write_calls].
    rewrite !app_nil_r, <- Hlast, replicate_S_end. split; [done|].
    split; [congruence|]. done.
  - intros e Hw Hcode.
    destruct (write_attempts_failure env t m (1 + k) l1 w1 e Hw) as (-> & Hd' & Hl').
    { by rewrite Hcode. }
    cbn [fst snd]. rewrite Hcode.
    rewrite (new_events_app w _ (evs1 ++ [EvWriteFile t (Some e)]))
      by (rewrite Hl', Hl, <- app_assoc; done).
    rewrite saved_app, delays_app, write_calls_app, Hs, Hdl, Hc.
    cbn [saved delays write_calls]. rewrite !app_nil_r, replicate_S_end.
    split; [done|].
    split; [intros ->; by rewrite busyErr_has_code in Hcode|].
    split; [congruence|]. done.
Qed.

(** ** What a computation leaves alone *)


Section Keeps.
Context (R : relation World) `{!PreOrder R}.

Lemma keeps_ret {A} (a : A) : keeps R (ret a).
Proof. intros w. simpl. reflexivity. Qed.

Lemma keeps_throw {A} e : keeps R (@throw A e).
Proof. intros w. simpl. reflexivity. Qed.

Lemma keeps_lift {A} (r : result A) : keeps R (lift r).
Proof. intros w. simpl. reflexivity. Qed.

Lemma keeps_settle o : keeps R (settle o).
Proof. destruct o; [apply keeps_throw | apply keeps_ret]. Qed.

Lemma keeps_bind {A B} (m : M A) (k : A -> M B) :
  keeps R m -> (forall a, keeps R (k a)) -> keeps R (bind m k).
Proof.
  intros Hm Hk w. unfold bind. specialize (Hm w).
  destruct (m w) as [[a|e] w1]; simpl in *; [|done].
  etrans; [exact Hm | apply Hk].
Qed.

Lemma keeps_try_catch {A} (body : M A) (handler : js_error -> M A) :
  keeps R body -> (forall e, keeps R (handler e)) ->
  keeps R (try_catch body handler).
Proof.
  intros Hm Hk w. unfold try_catch. specialize (Hm w).
  destruct (body w) as [[a|e] w1]; simpl in *; [done|].
  etrans; [exact Hm | apply Hk].
Qed.
End Keeps.

Create HintDb keeps discriminated.

(** Walks down the binds and handlers of a computation; the steps that
    touch the world are left to the hints of [keeps]. *)
Ltac keeps_step :=
  first
    [ apply keeps_ret; apply _
    | apply keeps_throw; apply _
    | apply keeps_lift; apply _
    | apply keeps_settle; apply _
    | apply keeps_bind; [apply _ | | intros ?]
    | apply keeps_try_catch; [apply _ | | intros ?] ].

Ltac keeps_auto := repeat keeps_step; auto with keeps.


Global Instance no_write_preorder : PreOrder no_write.
Proof.
  split.
  - intros w. repeat split. exists []. by rewrite app_nil_r.
  - intros w1 w2 w3 (Hd1 & Hn1 & e1 & Hl1 & Hf1) (Hd2 & Hn2 & e2 & Hl2 & Hf2).
    split; [congruence|]. split; [congruence|].
    exists (e1 ++ e2). rewrite Hl2, Hl1, app_assoc. split; [done|].
    by apply Forall_app.
Qed.

Global Instance no_remote_preorder : PreOrder no_remote.
Proof.
  split.
  - intros w. repeat split. exists []. by rewrite app_nil_r.
  - intros w1 w2 w3 (Ha1 & Hb1 & Hc1 & Hd1 & e1 & Hl1 & Hf1)
      (Ha2 & Hb2 & Hc2 & Hd2 & e2 & Hl2 & Hf2).
    repeat (split; [congruence|]).
    exists (e1 ++ e2). rewrite Hl2, Hl1, app_assoc. split; [done|].
    by apply Forall_app.
Qed.

Lemma no_write_emit e : is_write e = false -> keeps no_write (emit e).
Proof.
  intros He w. simpl. repeat split. exists [e]. split; [done|].
  by constructor.
Qed.

Lemma no_write_console lvl args : keeps no_write (console lvl args).
Proof. by apply no_write_emit. Qed.

Lemma no_write_delay ms : keeps no_write (delay ms).
Proof. by apply no_write_emit. Qed.

Lemma no_write_wheel : keeps no_write (emit EvWheel).
Proof. by apply no_write_emit. Qed.

Lemma no_write_page_wait ms : keeps no_write (emit (EvPageWait ms)).
Proof. by apply no_write_emit. Qed.

Lemma no_write_goto url : keeps no_write (emit (EvGoto url)).
Proof. by apply no_write_emit. Qed.

#[global] Hint Resolve no_write_console no_write_delay no_write_wheel
  no_write_page_wait no_write_goto : keeps.

Lemma no_remote_emit e : is_remote_call e = false -> keeps no_remote (emit e).
Proof.
  intros He w. simpl. repeat split. exists [e]. split; [done|].
  by constructor.
Qed.


(** ** The classifier *)

(** One attempt never raises: it hands back the validated object or lets
    the loop continue, having called the service once and written nothing. *)
Lemma classify_attempt_spec env attempt maxRetries userContent w :
  exists w1 evs,
    classify_attempt env attempt maxRetries userContent w
    = (Ok (match attempt_outcome env (w_chats w) userContent with
           | Ok c => Some c | Throw _ => None end), w1)
    /\ w_disk w1 = w_disk w /\ w_writes w1 = w_writes w
    /\ w_sessions w1 = w_sessions w /\ w_chats w1 = S (w_chats w)
    /\ w_browsers w1 = w_browsers w /\ w_pages w1 = w_pages w
    /\ w_log w1 = w_log w ++ EvChat userContent :: evs
    /\ Forall (fun e => is_write e = false) evs
    /\ Forall (fun e => is_remote_call e = false) evs
    /\ delays evs
       = match failure_of (attempt_outcome env (w_chats w) userContent) with
         | Some err =>
             if (isConnectionError err && Nat.ltb attempt maxRetries)%bool
             then [(2 ^ (Z.of_nat attempt - 1) * 1000)%Z] else []
         | None => []
         end.
Proof.
  unfold classify_attempt, attempt_outcome, try_catch, bind, chat_completion,
    lift, console, delay, emit.
  destruct (env_chat env (w_chats w) userContent) as [e|content]; simpl;
    [|destruct (decodeReply env content) as [c|e]; simpl];
    try (destruct (isConnectionError e && Nat.ltb attempt maxRetries)%bool;
         [|destruct (Nat.eqb attempt maxRetries)]; simpl);
    eexists _, _; (split; [reflexivity|]); simpl;
    do 6 (split; [reflexivity|]);
    (split; [rewrite <- ?app_assoc; reflexivity|]);
    (split; [repeat constructor|]); (split; [repeat constructor|]);
    reflexivity.
Qed.

(** The loop always returns. When every attempt left fails, it returns
    the default classification after calling the service once per attempt
    and pausing as [backoff] says. *)
Lemma classify_attempts_spec env userContent maxRetries :
  forall remaining attempt w,
  exists c w1 evs,
    classify_attempts env remaining attempt maxRetries userContent w = (Ok c, w1)
    /\ w_disk w1 = w_disk w /\ w_writes w1 = w_writes w
    /\ w_sessions w1 = w_sessions w
    /\ w_browsers w1 = w_browsers w /\ w_pages w1 = w_pages w
    /\ w_log w1 = w_log w ++ evs
    /\ Forall (fun e => is_write e = false) evs
    /\ ((forall j, (j < remaining)%nat ->
           failure_of (attempt_outcome env (w_chats w + j) userContent) <> None) ->
        c = DEFAULT_CLASSIFICATION
        /\ w_chats w1 = (w_chats w + remaining)%nat
        /\ delays evs
           = backoff env userContent remaining attempt maxRetries (w_chats w)).
Proof.
  induction remaining as [|remaining IH]; intros attempt w.
  - exists DEFAULT_CLASSIFICATION, w, []. simpl.
    rewrite app_nil_r, Nat.add_0_r. repeat split; constructor.
  - destruct (classify_attempt_spec env attempt maxRetries userContent w)
      as (w1 & evs1 & Heq & Hd & Hn & Hs & Hc & Hb & Hp & Hl & Hw & _ & Hdl).
    cbn [classify_attempts]. unfold bind at 1. rewrite Heq.
    destruct (attempt_outcome env (w_chats w) userContent) as [c|e] eqn:Hout.
    + exists c, w1, (EvChat userContent :: evs1).
      split; [reflexivity|]. repeat (split; [assumption|]).
      split; [by constructor|].
      intros Hfail. exfalso. apply (Hfail 0%nat); [lia|].
      by rewrite Nat.add_0_r, Hout.
    + destruct (IH (S attempt) w1)
        as (c & w2 & evs2 & Heq2 & Hd2 & Hn2 & Hs2 & Hb2 & Hp2 & Hl2 & Hw2 & Hall).
      exists c, w2, ((EvChat userContent :: evs1) ++ evs2).
      split; [exact Heq2|]. repeat (split; [congruence|]).
      split; [rewrite Hl2, Hl, <- app_assoc; reflexivity|].
      split; [apply Forall_app; split; [by constructor | assumption]|].
      intros Hfail.
      destruct Hall as (-> & Hc2 & Hdl2).
      { intros j Hj. rewrite Hc.
        replace (S (w_chats w) + j)%nat with (w_chats w + S j)%nat by lia.
        apply Hfail. lia. }
      split; [reflexivity|]. split; [lia|].
      rewrite delays_app. cbn [delays backoff]. rewrite Hout. cbn [failure_of].
      rewrite Hdl, Hdl2, Hc. cbn [failure_of]. reflexivity.
Qed.

(** When every failure is a connection error, the pauses double from one
    second and there is none after the last attempt. *)
Lemma backoff_connection_errors env userContent maxRetries :
  forall remaining attempt k,
    (remaining + attempt = S maxRetries)%nat ->
    (forall j, (j < remaining)%nat ->
       exists e, failure_of (attempt_outcome env (k + j) userContent) = Some e
                 /\ isConnectionError e = true) ->
    backoff env userContent remaining attempt maxRetries k
    = map (fun a => (2 ^ (Z.of_nat a - 1) * 1000)%Z) (seq attempt (remaining - 1)).
Proof.
  induction remaining as [|remaining IH]; intros attempt k Hsum Hall; [done|].
  destruct (Hall 0%nat) as (e & He & Hconn); [lia|].
  rewrite Nat.add_0_r in He.
  cbn [backoff]. rewrite He, Hconn. cbn [andb].
  rewrite IH; [|lia|].
  - destruct remaining as [|remaining].
    + replace (Nat.ltb attempt maxRetries) with false; [done|].
      symmetry. apply Nat.ltb_ge. lia.
    + replace (Nat.ltb attempt maxRetries) with true; [|symmetry; apply Nat.ltb_lt; lia].
      simpl. rewrite Nat.sub_0_r. reflexivity.
  - intros j Hj. replace (S k + j)%nat with (k + S j)%nat by lia.
    apply Hall. lia.
Qed.

(** C6. [classifyWithOpenAI] never raises. With a credential that is
    absent, empty or without the key prefix it returns the default
    classification and makes no call. With an accepted credential, when
    every attempt up to [maxRetries] fails it returns the default
    classification after exactly [maxRetries] calls; it pauses
    [2^(attempt-1)] seconds after a failed attempt that is a connection
    error and not the last, so 1 s, 2 s, ... when all are. *)
Theorem C6_classifier_fails_soft (env : Env) (jobTitle pageContent : string)
    (apiKey : option string) (maxRetries : nat) (w : World) :
  let run := classifyWithOpenAI env jobTitle pageContent apiKey maxRetries w in
  let userContent := userContentOf jobTitle pageContent in
  let failed j :=
    failure_of (attempt_outcome env (w_chats w + j) userContent) in
  (exists c, run.1 = Ok c)
  /\ (credential_ok apiKey = false ->
      run.1 = Ok DEFAULT_CLASSIFICATION
      /\ w_chats run.2 = w_chats w
      /\ Forall (fun e => is_remote_call e = false) (new_events w run.2))
  /\ (credential_ok apiKey = true ->
      (forall j, (j < maxRetries)%nat -> failed j <> None) ->
      run.1 = Ok DEFAULT_CLASSIFICATION
      /\ w_chats run.2 = (w_chats w + maxRetries)%nat
      /\ delays (new_events w run.2)
         = backoff env userContent maxRetries 1 maxRetries (w_chats w)
      /\ ((forall j e, (j < maxRetries)%nat -> failed j = Some e ->
             isConnectionError e = true) ->
          delays (new_events w run.2)
          = map (fun attempt => (2 ^ (Z.of_nat attempt - 1) * 1000)%Z)
              (seq 1 (maxRetries - 1)))).
Proof.
  intros run userContent failed. subst run.
  unfold classifyWithOpenAI, credential_ok.
  destruct apiKey as [key|]; cbn [negb andb].
  2:{ simpl. split; [eauto|]. split; [|done]. intros _.
      split; [done|]. split; [done|].
      rewrite (new_events_app w _ [EvConsole WARN ["OPENAI_API_KEY not set; using defaults"]])
        by done.
      by repeat constructor. }
  destruct (JS.is_empty key) eqn:Hempty; cbn [negb andb].
  { simpl. split; [eauto|]. split; [|done]. intros _.
    split; [done|]. split; [done|].
    rewrite (new_events_app w _ [EvConsole WARN ["OPENAI_API_KEY not set; using defaults"]])
      by done.
    by repeat constructor. }
  destruct (JS.startsWith key "sk-") eqn:Hprefix; cbn [negb].
  2:{ simpl. split; [eauto|]. split; [|done]. intros _.
      split; [done|]. split; [done|].
      rewrite (new_events_app w _
        [EvConsole ERROR ["Invalid OpenAI API key format. Key should start with 'sk-'"]])
        by done.
      by repeat constructor. }
  fold userContent.
  destruct (classify_attempts_spec env userContent maxRetries maxRetries 1%nat w)
    as (c & w1 & evs & Heq & _ & _ & _ & _ & _ & Hl & _ & Hall).
  rewrite Heq. cbn [fst snd].
  split; [eauto|]. split; [done|]. intros _ Hfail.
  destruct (Hall Hfail) as (-> & Hc & Hdl).
  rewrite (new_events_app w w1 evs Hl).
  split; [done|]. split; [done|]. split; [done|].
  intros Hconn. rewrite Hdl.
  apply backoff_connection_errors; [lia|].
  intros j Hj. specialize (Hfail j Hj). specialize (Hconn j).
  fold (failed j). destruct (failed j) as [e|]; [|done]. eauto.
Qed.

(** ** Validation of the reply *)

(** Closes a decidable goal over concrete data by evaluation. *)
Ltac by_evaluation := apply (bool_decide_unpack _); vm_compute; reflexivity.

Lemma includes_value_true vocabulary v :
  includes_value vocabulary v = true ->
  exists s, v = Some (JStr s) /\ s ∈ vocabulary.
Proof.
  destruct v as [[| | |s| |]|]; simpl; try done.
  intros H. exists s. split; [done|]. by apply bool_decide_eq_true in H.
Qed.

Lemma validate_not_null parsed :
  parsed <> JNull ->
  forall k, getProp parsed k = Ok (field parsed k).
Proof. intros Hp k. unfold field. destruct parsed; simpl; done. Qed.

Lemma validate_null : exists e, validate JNull = Throw e.
Proof. eexists. reflexivity. Qed.

Lemma default_validated : validated DEFAULT_CLASSIFICATION.
Proof.
  unfold validated. simpl.
  repeat split; by_evaluation.
Qed.

Lemma level_normalized s :
  s ∈ LEVEL_VALUES ->
  (if String.eqb s "Principle" then "Principal" else s) ∈ LEVEL_VOCABULARY.
Proof.
  unfold LEVEL_VALUES, LEVEL_VOCABULARY. rewrite !elem_of_cons, elem_of_nil.
  intros [->|[->|[->|[->|[->|[->|[->|[->|[]]]]]]]]];
    by_evaluation.
Qed.

Lemma industry_normalized s :
  s ∈ ["finance"; "healthcare"; "N/A"; ""] ->
  (if negb (JS.is_empty s) then s else "N/A") ∈ INDUSTRY_VALUES.
Proof.
  unfold INDUSTRY_VALUES. rewrite !elem_of_cons, elem_of_nil.
  intros [->|[->|[->|[->|[]]]]]; by_evaluation.
Qed.

Lemma trim_not_empty s :
  negb (String.eqb (JS.trim s) "") = true -> JS.trim s <> "".
Proof.
  intros H Heq. rewrite Heq in H. discriminate H.
Qed.

(** Every object the validation returns is within the vocabularies. *)
Lemma validate_validated parsed c : validate parsed = Ok c -> validated c.
Proof.
  destruct parsed as [| | | | |m]; try discriminate; simpl; intros [= <-];
    try apply default_validated.
  unfold validated; cbn [remote industry annualSalary level bestStack].
  split; [|split; [|split; [|split]]].
  - destruct (includes_value _ (assoc "remote" m)) eqn:H;
      [|by_evaluation].
    apply includes_value_true in H as (s & -> & Hs). exact Hs.
  - destruct (includes_value _ (assoc "industry" m)) eqn:H;
      [|by_evaluation].
    apply includes_value_true in H as (s & -> & Hs). simpl.
    by apply industry_normalized.
  - destruct (includes_value _ (assoc "annualSalary" m)) eqn:H;
      [|by_evaluation].
    apply includes_value_true in H as (s & -> & Hs). exact Hs.
  - destruct (includes_value _ (assoc "level" m)) eqn:H;
      [|by_evaluation].
    apply includes_value_true in H as (s & -> & Hs). simpl.
    by apply level_normalized.
  - destruct (assoc "bestStack" m) as [[| | |s| |]|]; try discriminate.
    destruct (negb (String.eqb (JS.trim s) "")) eqn:H; [|discriminate].
    by apply trim_not_empty.
Qed.

Lemma attempt_outcome_validated env k userContent c :
  attempt_outcome env k userContent = Ok c -> validated c.
Proof.
  unfold attempt_outcome, decodeReply, rbind.
  destruct (env_chat env k userContent) as [e|content]; [discriminate|].
  destruct (env_JSON_parse env _) as [parsed|e]; [|discriminate].
  apply validate_validated.
Qed.

Lemma classify_attempts_validated env userContent maxRetries :
  forall remaining attempt w c w1,
    classify_attempts env remaining attempt maxRetries userContent w = (Ok c, w1) ->
    validated c.
Proof.
  induction remaining as [|remaining IH]; intros attempt w c w1.
  - intros [= <- _]. apply default_validated.
  - destruct (classify_attempt_spec env attempt maxRetries userContent w)
      as (w2 & evs & Heq & _).
    cbn [classify_attempts]. unfold bind at 1. rewrite Heq.
    destruct (attempt_outcome env (w_chats w) userContent) as [c'|e] eqn:Hout.
    + intros [= <- _]. by eapply attempt_outcome_validated.
    + apply IH.
Qed.

Lemma classifyWithOpenAI_validated env jobTitle pageContent apiKey maxRetries w :
  exists c, (classifyWithOpenAI env jobTitle pageContent apiKey maxRetries w).1 = Ok c
            /\ validated c.
Proof.
  unfold classifyWithOpenAI.
  destruct (JS.is_empty _); [eexists; split; [reflexivity | apply default_validated]|].
  destruct (negb _); [eexists; split; [reflexivity | apply default_validated]|].
  cbv zeta.
  destruct (classify_attempts_spec env (userContentOf jobTitle pageContent)
              maxRetries maxRetries 1%nat w) as (c & w1 & evs & Heq & _).
  exists c. rewrite Heq. split; [reflexivity|].
  by eapply classify_attempts_validated.
Qed.

(** C2, as the code has it. Whatever the service replies, the
    classification returned has [remote], [industry], [annualSalary] and
    [level] inside their closed vocabularies: a value outside is replaced
    by [N/A] and [Principle] becomes [Principal]. [bestStack] is not
    compared with the stack list: any reply string that is not blank is
    returned trimmed, and anything else becomes [N/A]. *)
Theorem C2_enum_fields_validated (env : Env) (jobTitle pageContent : string)
    (apiKey : option string) (maxRetries : nat) (w : World) :
  (exists c,
     (classifyWithOpenAI env jobTitle pageContent apiKey maxRetries w).1 = Ok c
     /\ remote c ∈ REMOTE_VALUES /\ industry c ∈ INDUSTRY_VALUES
     /\ annualSalary c ∈ SALARY_BUCKETS /\ level c ∈ LEVEL_VOCABULARY
     /\ bestStack c <> "")
  /\ forall parsed, parsed <> JNull ->
     exists c, validate parsed = Ok c
     /\ (includes_value REMOTE_VALUES (field parsed "remote") = false ->
         remote c = "N/A")
     /\ (includes_value INDUSTRY_VALUES (field parsed "industry") = false ->
         industry c = "N/A")
     /\ (includes_value SALARY_BUCKETS (field parsed "annualSalary") = false ->
         annualSalary c = "N/A")
     /\ (includes_value LEVEL_VALUES (field parsed "level") = false ->
         level c = "N/A")
     /\ (field parsed "level" = Some (JStr "Principle") -> level c = "Principal")
     /\ (forall s, field parsed "level" = Some (JStr s) ->
         s ∈ LEVEL_VOCABULARY -> level c = s)
     /\ (forall s, field parsed "bestStack" = Some (JStr s) ->
         JS.trim s <> "" -> bestStack c = JS.trim s)
     /\ ((forall s, field parsed "bestStack" = Some (JStr s) -> JS.trim s = "") ->
         bestStack c = "N/A").
Proof.
  split.
  { destruct (classifyWithOpenAI_validated env jobTitle pageContent apiKey
                maxRetries w) as (c & Hc & Hv).
    exists c. split; [exact Hc | exact Hv]. }
  intros parsed Hnull.
  unfold validate. rewrite !(validate_not_null parsed Hnull). cbn [rbind].
  eexists. split; [reflexivity|].
  cbn [remote industry annualSalary level bestStack]. cbv zeta.
  unfold REMOTE_VALUES.
  split; [by intros ->|].
  split.
  { intros H. destruct (includes_value ["finance"; "healthcare"; "N/A"; ""] _) eqn:H2;
      [|done].
    apply includes_value_true in H2 as (s & Hs & Hin). rewrite Hs in H |- *.
    simpl in H. apply bool_decide_eq_false in H.
    revert Hin. rewrite !elem_of_cons, elem_of_nil.
    intros [->|[->|[->|[->|[]]]]]; try done; exfalso; apply H; by_evaluation. }
  split; [by intros ->|].
  split; [by intros ->|].
  split; [by intros ->|].
  split.
  { intros s -> Hin. simpl.
    assert (Hin' : s ∈ LEVEL_VALUES).
    { revert Hin. unfold LEVEL_VOCABULARY, LEVEL_VALUES.
      rewrite !elem_of_cons, !elem_of_nil. tauto. }
    rewrite (bool_decide_eq_true_2 _ Hin').
    destruct (String.eqb_spec s "Principle") as [->|]; [|done].
    exfalso. revert Hin. unfold LEVEL_VOCABULARY.
    rewrite !elem_of_cons, elem_of_nil.
    intros [H|[H|[H|[H|[H|[H|[H|[]]]]]]]]; discriminate H. }
  split.
  { intros s -> Hs. destruct (String.eqb_spec (JS.trim s) ""); [done|]. done. }
  intros H. destruct (field parsed "bestStack") as [[| | |s| |]|]; try done.
  rewrite (H s eq_refl). done.
Qed.

(** ** Strings: the first occurrence of a text *)

Lemma substring_full_length s : forall n m,
  String.length (substring n m s) = m -> m <> 0%nat ->
  (n + m <= String.length s)%nat.
Proof.
  induction s as [|c s IH]; intros [|n] [|m]; simpl; try lia.
  - intros [= H] _. destruct m as [|m]; [lia|].
    specialize (IH 0%nat (S m) H). lia.
  - intros H Hm. specialize (IH n (S m) H Hm). lia.
Qed.

Lemma substring0_length s : forall n,
  (String.length (substring 0 n s) <= n)%nat.
Proof.
  induction s as [|c s IH]; intros [|n]; simpl; try lia.
  specialize (IH n). lia.
Qed.

Lemma substring_of_prefix s : forall p k n,
  (p + k <= n)%nat -> substring p k (substring 0 n s) = substring p k s.
Proof.
  induction s as [|c s IH]; intros p k n Hle.
  - destruct n; reflexivity.
  - destruct n as [|n].
    + assert (p = 0%nat) as -> by lia. assert (k = 0%nat) as -> by lia.
      reflexivity.
    + destruct p as [|p]; simpl.
      * destruct k as [|k]; [reflexivity|]. f_equal. apply (IH 0%nat). lia.
      * apply IH. lia.
Qed.

Lemma substring0_all s : substring 0 (String.length s) s = s.
Proof. induction s as [|c s IH]; simpl; [reflexivity | by rewrite IH]. Qed.

Lemma substring0_none s : substring 0 0 s = "".
Proof. destruct s; reflexivity. Qed.

Lemma substring_cut s : forall n m,
  (n + m <= String.length s)%nat ->
  s = substring 0 n s +:+ substring n m s
      +:+ substring (n + m) (String.length s - (n + m)) s.
Proof.
  induction s as [|c s IH]; intros n m Hle.
  - simpl in Hle. assert (n = 0%nat) as -> by lia.
    assert (m = 0%nat) as -> by lia. reflexivity.
  - simpl in Hle. destruct n as [|n].
    + destruct m as [|m].
      * change (String c s = String c (substring 0 (String.length s) s)).
        by rewrite substring0_all.
      * change (String c s
                = String c (substring 0 m s
                            +:+ substring m (String.length s - m) s)).
        f_equal. specialize (IH 0%nat m).
        rewrite substring0_none in IH. apply IH. lia.
    + change (String c s
              = String c (substring 0 n s +:+ substring n m s
                          +:+ substring (n + m) (String.length s - (n + m)) s)).
      f_equal. apply IH. lia.
Qed.

(** What precedes the first occurrence of [sub] does not contain [sub]. *)
Lemma before_first_occurrence s sub idx :
  sub <> "" ->
  JS.indexOf s sub = Some idx ->
  JS.includes (JS.substring0 idx s) sub = false.
Proof.
  unfold JS.includes, JS.indexOf, JS.substring0. intros Hsub Hidx.
  destruct (index 0 sub (substring 0 idx s)) as [m|] eqn:Hm; [|reflexivity].
  exfalso.
  pose proof (index_correct1 _ _ _ _ Hm) as Hocc.
  assert (Hlen : String.length sub <> 0%nat) by (destruct sub; simpl; [done | lia]).
  assert (Hfit : (m + String.length sub <= String.length (substring 0 idx s))%nat).
  { apply substring_full_length; [by rewrite Hocc | done]. }
  pose proof (substring0_length s idx) as Hshort.
  rewrite substring_of_prefix in Hocc by lia.
  apply (index_correct2 _ _ _ _ Hidx m); [lia | lia | exact Hocc].
Qed.

(** The text splits at the first occurrence of [sub]. *)
Lemma cut_at_first_occurrence s sub idx :
  sub <> "" ->
  JS.indexOf s sub = Some idx ->
  exists rest, s = JS.substring0 idx s +:+ sub +:+ rest.
Proof.
  unfold JS.indexOf, JS.substring0. intros Hsub Hidx.
  pose proof (index_correct1 _ _ _ _ Hidx) as Hocc.
  assert (Hlen : String.length sub <> 0%nat) by (destruct sub; simpl; [done | lia]).
  assert (Hfit : (idx + String.length sub <= String.length s)%nat).
  { apply substring_full_length; [by rewrite Hocc | done]. }
  eexists. rewrite <- Hocc at 1. apply substring_cut. exact Hfit.
Qed.

(** ** The link normalizer *)

Lemma refineLink_parsed env link u :
  env_URL env link = Some u ->
  refineLink env link = origin u +:+ keptPath u.
Proof.
  intros Hu. unfold refineLink, keptPath, JS.includes. rewrite Hu.
  destruct (JS.indexOf (hostname u) "applytojob.com"); [reflexivity|].
  destruct (JS.indexOf (pathname u) "/apply"); reflexivity.
Qed.

Lemma keptPath_no_apply u :
  JS.includes (hostname u) "applytojob.com" = false ->
  JS.includes (keptPath u) "/apply" = false.
Proof.
  intros Hhost. unfold keptPath. rewrite Hhost.
  destruct (JS.indexOf (pathname u) "/apply") as [idx|] eqn:Hidx.
  - by apply before_first_occurrence.
  - unfold JS.includes. by rewrite Hidx.
Qed.

(** C4, as the code has it. The normalizer returns a string that does
    not parse as it is. On a string that parses, in this order: a host
    containing [applytojob.com] gives origin and path; otherwise a path
    containing the text [/apply], be it a segment of its own or the
    beginning of a longer one such as [/applying], is cut where that text
    first starts, and what is kept no longer contains it; otherwise
    origin and path. *)
Theorem C4_normalizer_rules (env : Env) (link : string) :
  (env_URL env link = None -> refineLink env link = link)
  /\ forall u, env_URL env link = Some u ->
     (JS.includes (hostname u) "applytojob.com" = true ->
        refineLink env link = origin u +:+ pathname u)
     /\ (JS.includes (hostname u) "applytojob.com" = false ->
         JS.includes (pathname u) "/apply" = true ->
         exists kept rest,
           pathname u = kept +:+ "/apply" +:+ rest
           /\ JS.includes kept "/apply" = false
           /\ refineLink env link = origin u +:+ kept)
     /\ (JS.includes (hostname u) "applytojob.com" = false ->
         JS.includes (pathname u) "/apply" = false ->
         refineLink env link = origin u +:+ pathname u).
Proof.
  split.
  { intros Hu. unfold refineLink. by rewrite Hu. }
  intros u Hu. unfold refineLink. rewrite Hu.
  split; [by intros ->|]. split.
  - intros -> Hpath. rewrite Hpath.
    unfold JS.includes in Hpath.
    destruct (JS.indexOf (pathname u) "/apply") as [idx|] eqn:Hidx; [|discriminate].
    destruct (cut_at_first_occurrence (pathname u) "/apply" idx) as (rest & Hcut);
      [discriminate | exact Hidx |].
    exists (JS.substring0 idx (pathname u)), rest.
    split; [exact Hcut|]. split; [|reflexivity].
    apply before_first_occurrence; [discriminate | exact Hidx].
  - by intros -> ->.
Qed.

(** Normalizing the normalized form of a link that parses returns it
    unchanged whenever that form does not parse, or parses again to the
    same origin and host with the kept path as its path. *)
Lemma idempotent_when_stable (env : Env) (link : string) (u : URL) :
  env_URL env link = Some u ->
  env_URL env (refineLink env link) = None \/ reparses env u ->
  refineLink env (refineLink env link) = refineLink env link.
Proof.
  intros Hu [Hnone|(u' & Hu' & Ho & Hh & Hp)].
  { unfold refineLink at 1. by rewrite Hnone. }
  rewrite (refineLink_parsed env link u Hu).
  rewrite (refineLink_parsed env _ u' Hu'). rewrite Ho. f_equal.
  unfold keptPath at 1. rewrite Hh, Hp.
  destruct (JS.includes (hostname u) "applytojob.com") eqn:Hhost.
  - unfold keptPath. by rewrite Hhost.
  - pose proof (keptPath_no_apply u Hhost) as Hno.
    unfold JS.includes in Hno.
    by destruct (JS.indexOf (keptPath u) "/apply").
Qed.

(** ** The model of the platform parser on normalized links *)

Lemma append_empty_r s : s +:+ "" = s.
Proof.
  induction s as [|c s IH]; [reflexivity|].
  change (String c (s +:+ "") = String c s). by rewrite IH.
Qed.

Lemma span_spec p s a b :
  WebURL.span p s = (a, b) ->
  s = a +:+ b /\ WebURL.all p a = true /\ WebURL.first_is p b = false.
Proof.
  revert a b. induction s as [|c s IH]; intros a b; simpl.
  - intros [= <- <-]. done.
  - destruct (p c) eqn:Hc.
    + destruct (WebURL.span p s) as [a' b'] eqn:Hs. intros [= <- <-].
      destruct (IH a' b' eq_refl) as (-> & Hall & Hfirst).
      split; [reflexivity|]. simpl. by rewrite Hc, Hall.
    + intros [= <- <-]. simpl. by rewrite Hc.
Qed.

Lemma span_append p a b :
  WebURL.all p a = true -> WebURL.first_is p b = false ->
  WebURL.span p (a +:+ b) = (a, b).
Proof.
  induction a as [|c a IH]; intros Hall Hfirst.
  - change ("" +:+ b) with b. destruct b as [|c b]; [reflexivity|].
    simpl in *. by rewrite Hfirst.
  - change (String c a +:+ b) with (String c (a +:+ b)). simpl in *.
    apply andb_true_iff in Hall as [Hc Hall]. by rewrite Hc, IH.
Qed.

Lemma all_substring0 p s : forall n,
  WebURL.all p s = true -> WebURL.all p (substring 0 n s) = true.
Proof.
  induction s as [|c s IH]; intros [|n] H; simpl in *; try done.
  apply andb_true_iff in H as [Hc H]. by rewrite Hc, IH.
Qed.

Lemma split_on_append_sep sep x : forall a cur,
  WebURL.split_on sep (a +:+ String sep x) cur
  = WebURL.split_on sep a cur ++ WebURL.split_on sep x "".
Proof.
  induction a as [|c a IH]; intros cur.
  - change ("" +:+ String sep x) with (String sep x). simpl.
    by rewrite Ascii.eqb_refl.
  - change (String c a +:+ String sep x) with (String c (a +:+ String sep x)).
    simpl. destruct (Ascii.eqb c sep); by rewrite IH.
Qed.

Lemma append_assoc a b c : (a +:+ b) +:+ c = a +:+ (b +:+ c).
Proof.
  induction a as [|x a IH]; [reflexivity|].
  change (String x ((a +:+ b) +:+ c) = String x (a +:+ (b +:+ c))).
  by rewrite IH.
Qed.

Lemma drop_append p x : JS.drop (String.length p) (p +:+ x) = x.
Proof.
  induction p as [|c p IH].
  - unfold JS.drop. change ("" +:+ x) with x. simpl String.length.
    by rewrite Nat.sub_0_r, substring0_all.
  - exact IH.
Qed.

Lemma prefix_append p x : String.prefix p (p +:+ x) = true.
Proof.
  induction p as [|c p IH]; [by destruct x|].
  change (String c p +:+ x) with (String c (p +:+ x)). simpl.
  by destruct (ascii_dec c c).
Qed.

Lemma scheme_of_web scheme x :
  scheme = "https" \/ scheme = "http" ->
  WebURL.scheme_of (scheme +:+ "://" +:+ x) = Some (scheme, x).
Proof.
  intros [-> | ->]; unfold WebURL.scheme_of.
  - change (JS.startsWith ("https" +:+ "://" +:+ x) "https://")
      with (String.prefix "https://" ("https://" +:+ x)).
    rewrite prefix_append.
    change (JS.drop 8 ("https" +:+ "://" +:+ x))
      with (JS.drop (String.length "https://") ("https://" +:+ x)).
    by rewrite drop_append.
  - change (JS.startsWith ("http" +:+ "://" +:+ x) "https://") with false.
    change (JS.startsWith ("http" +:+ "://" +:+ x) "http://")
      with (String.prefix "http://" ("http://" +:+ x)).
    rewrite prefix_append.
    change (JS.drop 7 ("http" +:+ "://" +:+ x))
      with (JS.drop (String.length "http://") ("http://" +:+ x)).
    by rewrite drop_append.
Qed.

Lemma scheme_of_inv s scheme after :
  WebURL.scheme_of s = Some (scheme, after) ->
  scheme = "https" \/ scheme = "http".
Proof.
  unfold WebURL.scheme_of.
  destruct (JS.startsWith s "https://"); [intros [= <- _]; by left|].
  destruct (JS.startsWith s "http://"); [intros [= <- _]; by right|].
  discriminate.
Qed.

Lemma first_is_slash_not_host x :
  JS.startsWith x "/" = true -> WebURL.first_is WebURL.host_char x = false.
Proof.
  destruct x as [|c x]; [discriminate|]. unfold JS.startsWith.
  change (String.prefix "/" (String c x))
    with (match ascii_dec "/" c with
          | left _ => String.prefix "" x | right _ => false end).
  destruct (ascii_dec "/" c) as [<-|]; [reflexivity | discriminate].
Qed.

(** A link made of a web scheme, a valid host and a clean path that is
    not empty parses to exactly these parts. *)
Lemma parse_normalized scheme host kept :
  scheme = "https" \/ scheme = "http" ->
  WebURL.all WebURL.host_char host = true ->
  WebURL.host_ok host = true ->
  WebURL.all WebURL.path_char kept = true ->
  JS.startsWith kept "/" = true ->
  forallb WebURL.segment_ok (WebURL.split_on "/" kept "") = true ->
  WebURL.parse ((scheme +:+ "://" +:+ host) +:+ kept)
  = Some {| origin := scheme +:+ "://" +:+ host; pathname := kept;
            hostname := host |}.
Proof.
  intros Hscheme Hhost Hok Hpath Hslash Hseg.
  unfold WebURL.parse.
  rewrite !append_assoc, (scheme_of_web scheme (host +:+ kept) Hscheme).
  rewrite (span_append _ host kept Hhost (first_is_slash_not_host kept Hslash)).
  rewrite <- (append_empty_r kept) at 1.
  rewrite (span_append _ kept "" Hpath eq_refl).
  rewrite Hok, Hslash, Hseg. simpl.
  rewrite orb_true_r. simpl.
  destruct kept; [discriminate | reflexivity].
Qed.

Lemma parse_inv link u :
  WebURL.parse link = Some u ->
  exists scheme host path,
    (scheme = "https" \/ scheme = "http")
    /\ WebURL.all WebURL.host_char host = true
    /\ WebURL.host_ok host = true
    /\ WebURL.all WebURL.path_char path = true
    /\ (JS.is_empty path || JS.startsWith path "/")%bool = true
    /\ forallb WebURL.segment_ok (WebURL.split_on "/" path "") = true
    /\ u = {| origin := scheme +:+ "://" +:+ host;
              pathname := if JS.is_empty path then "/" else path;
              hostname := host |}.
Proof.
  unfold WebURL.parse.
  destruct (WebURL.scheme_of link) as [[scheme after]|] eqn:Hscheme; [|discriminate].
  destruct (WebURL.span WebURL.host_char after) as [host rest] eqn:Hhost.
  destruct (WebURL.span WebURL.path_char rest) as [path tail] eqn:Hpath.
  destruct (WebURL.host_ok host) eqn:Hok; [|discriminate].
  destruct (JS.is_empty path || JS.startsWith path "/")%bool eqn:Hslash;
    [|discriminate].
  destruct (forallb WebURL.segment_ok _) eqn:Hseg; [|discriminate].
  cbn [andb]. destruct (_ && _)%bool; [|discriminate].
  intros [= <-]. exists scheme, host, path.
  split; [by eapply scheme_of_inv|].
  split; [by apply span_spec in Hhost as (_ & ? & _)|].
  split; [done|].
  split; [by apply span_spec in Hpath as (_ & ? & _)|].
  done.
Qed.

Lemma substring0_first_char s n c k :
  substring 0 n s = String c k -> exists s', s = String c s'.
Proof.
  destruct s as [|c' s]; destruct n as [|n]; simpl; try discriminate.
  intros [= <- _]. by eexists.
Qed.

(** On a plain web link the normalized form parses again as itself,
    unless nothing of the path was kept. *)
Lemma plain_link_reparses env link u :
  (forall s v, WebURL.parse s = Some v -> env_URL env s = Some v) ->
  WebURL.parse link = Some u ->
  keptPath u <> "" ->
  reparses env u.
Proof.
  intros Hagree Hu Hkept.
  destruct (parse_inv link u Hu)
    as (scheme & host & path & Hscheme & Hhost & Hok & Hpath & Hslash & Hseg & ->).
  set (P := if JS.is_empty path then "/" else path) in *.
  assert (HP : WebURL.all WebURL.path_char P = true
               /\ JS.startsWith P "/" = true
               /\ forallb WebURL.segment_ok (WebURL.split_on "/" P "") = true).
  { subst P. destruct path as [|c path]; [by vm_compute|]. done. }
  destruct HP as (HPall & HPslash & HPseg).
  assert (Hk : WebURL.all WebURL.path_char
                 (keptPath {| origin := scheme +:+ "://" +:+ host;
                              pathname := P; hostname := host |}) = true
               /\ JS.startsWith
                    (keptPath {| origin := scheme +:+ "://" +:+ host;
                                 pathname := P; hostname := host |}) "/" = true
               /\ forallb WebURL.segment_ok
                    (WebURL.split_on "/"
                       (keptPath {| origin := scheme +:+ "://" +:+ host;
                                    pathname := P; hostname := host |}) "") = true).
  { revert Hkept. unfold keptPath. cbn [pathname hostname].
    destruct (JS.includes host "applytojob.com"); [done|].
    destruct (JS.indexOf P "/apply") as [idx|] eqn:Hidx; [|done].
    intros Hkept.
    destruct (cut_at_first_occurrence P "/apply" idx) as (rest & Hcut);
      [discriminate | exact Hidx |].
    split; [by apply all_substring0|]. split.
    - unfold JS.substring0 in *.
      destruct (substring 0 idx P) as [|c k] eqn:Hsub; [done|].
      destruct (substring0_first_char P idx c k Hsub) as (P' & HP').
      rewrite HP' in HPslash. unfold JS.startsWith in *.
      revert HPslash.
      change (String.prefix "/" (String c P'))
        with (match ascii_dec "/" c with
              | left _ => String.prefix "" P' | right _ => false end).
      change (String.prefix "/" (String c k))
        with (match ascii_dec "/" c with
              | left _ => String.prefix "" k | right _ => false end).
      destruct (ascii_dec "/" c); [|discriminate]. intros _. by destruct k.
    - rewrite Hcut in HPseg.
      change ("/apply" +:+ rest) with (String "/" ("apply" +:+ rest)) in HPseg.
      rewrite split_on_append_sep, forallb_app in HPseg.
      by apply andb_true_iff in HPseg as [? _]. }
  destruct Hk as (Hkall & Hkslash & Hkseg).
  exists {| origin := scheme +:+ "://" +:+ host;
            pathname := keptPath {| origin := scheme +:+ "://" +:+ host;
                                    pathname := P; hostname := host |};
            hostname := host |}.
  split; [|by repeat split]. apply Hagree. cbn [origin].
  by apply parse_normalized.
Qed.

(** The bare origin of a plain web link parses with the path [/]. *)
Lemma parse_origin scheme host :
  scheme = "https" \/ scheme = "http" ->
  WebURL.all WebURL.host_char host = true ->
  WebURL.host_ok host = true ->
  WebURL.parse (scheme +:+ "://" +:+ host)
  = Some {| origin := scheme +:+ "://" +:+ host; pathname := "/";
            hostname := host |}.
Proof.
  intros Hscheme Hhost Hok. unfold WebURL.parse.
  rewrite (scheme_of_web scheme host Hscheme).
  rewrite <- (append_empty_r host) at 1.
  rewrite (span_append _ host "" Hhost eq_refl).
  cbn [WebURL.span]. rewrite Hok. reflexivity.
Qed.

(** When nothing of the path is kept, the normalized form is the bare
    origin, and normalizing it again appends [/]. *)
Lemma plain_link_grows env link u :
  (forall s v, WebURL.parse s = Some v -> env_URL env s = Some v) ->
  WebURL.parse link = Some u ->
  keptPath u = "" ->
  refineLink env link = origin u
  /\ refineLink env (origin u) = origin u +:+ "/".
Proof.
  intros Hagree Hu Hkept.
  rewrite (refineLink_parsed env link u (Hagree _ _ Hu)), Hkept, append_empty_r.
  split; [reflexivity|].
  destruct (parse_inv link u Hu)
    as (scheme & host & path & Hscheme & Hhost & Hok & Hpath & Hslash & Hseg & ->).
  cbn [origin].
  rewrite (refineLink_parsed env _ _
             (Hagree _ _ (parse_origin scheme host Hscheme Hhost Hok))).
  cbn [origin]. f_equal.
  revert Hkept. unfold keptPath. cbn [hostname pathname].
  destruct (JS.includes host "applytojob.com"); [|reflexivity].
  destruct path; discriminate.
Qed.

(** C9, as the code has it. Normalizing the normalized form of a link
    that parses returns it unchanged whenever that form does not parse,
    or parses again to the same origin and host with the kept path as its
    path. On plain web links that is the case exactly when something of
    the path is kept: when the path is cut to nothing, the normalized
    form is the bare origin and a second pass appends [/]. *)
Theorem C9_normalizer_idempotent_when_stable (env : Env) (link : string) (u : URL) :
  env_URL env link = Some u ->
  (env_URL env (refineLink env link) = None \/ reparses env u ->
   refineLink env (refineLink env link) = refineLink env link)
  /\ ((forall s v, WebURL.parse s = Some v -> env_URL env s = Some v) ->
      WebURL.parse link = Some u ->
      (keptPath u <> "" ->
       refineLink env (refineLink env link) = refineLink env link)
      /\ (keptPath u = "" ->
          refineLink env (refineLink env link) = refineLink env link +:+ "/")).
Proof.
  intros Hu. split.
  { intros Hstable. by apply (idempotent_when_stable env link u). }
  intros Hagree Hparse. split.
  - intros Hkept. apply (idempotent_when_stable env link u Hu). right.
    by apply (plain_link_reparses env link u).
  - intros Hkept.
    destruct (plain_link_grows env link u Hagree Hparse Hkept) as [-> ->].
    reflexivity.
Qed.

(** C3, as the code has it. Wherever the platform parses plain web links
    as [WebURL.parse] says, on the links of the three examples: the
    first, on an apply-proxy host, keeps its whole path and loses only
    the query; the second is cut before [/apply]; the third loses its
    query. *)
Theorem C3_normalization_examples (env : Env) :
  (forall s u, WebURL.parse s = Some u -> env_URL env s = Some u) ->
  refineLink env "https://boards.applytojob.com/company/abc123/apply?ref=x"
  = "https://boards.applytojob.com/company/abc123/apply"
  /\ refineLink env "https://jobs.example.com/posting/42/apply/step1"
     = "https://jobs.example.com/posting/42"
  /\ refineLink env "https://jobs.example.com/posting/42?utm=y"
     = "https://jobs.example.com/posting/42".
Proof.
  intros Hparse. unfold refineLink.
  rewrite (Hparse "https://boards.applytojob.com/company/abc123/apply?ref=x"
             {| origin := "https://boards.applytojob.com";
                pathname := "/company/abc123/apply";
                hostname := "boards.applytojob.com" |})
    by (vm_compute; reflexivity).
  rewrite (Hparse "https://jobs.example.com/posting/42/apply/step1"
             {| origin := "https://jobs.example.com";
                pathname := "/posting/42/apply/step1";
                hostname := "jobs.example.com" |})
    by (vm_compute; reflexivity).
  rewrite (Hparse "https://jobs.example.com/posting/42?utm=y"
             {| origin := "https://jobs.example.com";
                pathname := "/posting/42";
                hostname := "jobs.example.com" |})
    by (vm_compute; reflexivity).
  repeat split; vm_compute; reflexivity.
Qed.

(** ** The content fetcher *)

Lemma no_write_chromium_launch env url : keeps no_write (chromium_launch env url).
Proof.
  intros w. unfold chromium_launch. simpl. repeat split.
  exists [EvLaunch url]. split; [done|]. by repeat constructor.
Qed.

Lemma no_write_newPage s : keeps no_write (newPage s).
Proof.
  intros w. unfold newPage. simpl. repeat split.
  exists []. by rewrite app_nil_r.
Qed.

Lemma no_write_page_close : keeps no_write page_close.
Proof.
  intros w. unfold page_close. simpl. repeat split.
  exists [EvPageClose]. split; [done|]. by repeat constructor.
Qed.

#[global] Hint Resolve no_write_chromium_launch no_write_newPage
  no_write_page_close : keeps.

Lemma no_write_scroll_cycles s : forall remaining i,
  keeps no_write (scroll_cycles s remaining i).
Proof.
  induction remaining as [|remaining IH]; intros i; simpl; keeps_auto.
Qed.

Lemma no_write_frames_loop frames : forall textContent,
  keeps no_write (frames_loop frames textContent).
Proof.
  induction frames as [|frame frames IH]; intros textContent; simpl;
    keeps_auto.
  destruct (_ && _)%bool; keeps_auto.
Qed.

#[global] Hint Resolve no_write_scroll_cycles no_write_frames_loop : keeps.


Global Instance same_browsers_preorder : PreOrder same_browsers.
Proof.
  split; [done|]. unfold same_browsers. intros w1 w2 w3 H1 H2. congruence.
Qed.

Lemma same_browsers_emit e : keeps same_browsers (emit e).
Proof. done. Qed.

Lemma same_browsers_newPage s : keeps same_browsers (newPage s).
Proof. done. Qed.

Lemma same_browsers_page_close : keeps same_browsers page_close.
Proof. done. Qed.

#[global] Hint Resolve same_browsers_emit same_browsers_newPage
  same_browsers_page_close : keeps.

Lemma same_browsers_scroll_cycles s : forall remaining i,
  keeps same_browsers (scroll_cycles s remaining i).
Proof.
  induction remaining as [|remaining IH]; intros i; simpl; keeps_auto.
Qed.

Lemma same_browsers_frames_loop frames : forall textContent,
  keeps same_browsers (frames_loop frames textContent).
Proof.
  induction frames as [|frame frames IH]; intros textContent; simpl;
    keeps_auto.
  destruct (_ && _)%bool; keeps_auto.
Qed.

#[global] Hint Resolve same_browsers_scroll_cycles same_browsers_frames_loop
  : keeps.

(** No step of [fetchPageContent] closes a browser: the browser a call
    launches is open when the call returns, whatever happened in between. *)
Lemma fetchPageContent_leaves_browser_open env url w :
  w_browsers (fetchPageContent env url w).2
  = match s_launch (env_session env (w_sessions w) url) with
    | None => S (w_browsers w)
    | Some _ => w_browsers w
    end.
Proof.
  unfold fetchPageContent, renderPage, try_catch. unfold bind at 1.
  unfold chromium_launch at 1.
  destruct (s_launch (env_session env (w_sessions w) url)) as [e|] eqn:Hlaunch.
  { reflexivity. }
  set (s := env_session env (w_sessions w) url).
  set (w0 := {| w_disk := w_disk w; w_writes := w_writes w;
                w_sessions := S (w_sessions w); w_chats := w_chats w;
                w_browsers := S (w_browsers w); w_pages := w_pages w;
                w_log := w_log w ++ [EvLaunch url] |}).
  assert (Hrest : keeps same_browsers
    (settle (s_newContext s) ;! newPage s ;!
     emit (EvGoto url) ;! settle (s_goto s) ;!
     emit (EvPageWait 12000) ;! settle (s_settle s) ;!
     scroll_cycles s 10 0 ;!
     let! textContent := lift (s_body s) in
     let! textContent := frames_loop (s_frames s) textContent in
     page_close ;! ret textContent)).
  { keeps_auto. }
  specialize (Hrest w0). unfold same_browsers in Hrest.
  match goal with |- context [match ?m w0 with _ => _ end] =>
    destruct (m w0) as [[text|e] w1] end; simpl in *; exact Hrest.
Qed.


(** ** The orchestrator *)



(** A save ends in one of two ways: the table is on disk and was written
    once, or an error is raised and the file is as it was. *)
Lemma write_attempts_outcome env t : forall remaining attempt lastErr w,
  exists w1 evs,
    w_log w1 = w_log w ++ evs
    /\ ((write_attempts env remaining attempt lastErr t w = (Ok tt, w1)
         /\ saved evs = [t] /\ w_disk w1 = Some t)
        \/ (exists e, write_attempts env remaining attempt lastErr t w = (Throw e, w1)
                      /\ saved evs = [] /\ w_disk w1 = w_disk w)).
Proof.
  induction remaining as [|remaining IH]; intros attempt lastErr w.
  - exists w, []. rewrite app_nil_r. split; [done|]. right. eexists. done.
  - destruct (env_writeFile env (w_writes w)) as [e|] eqn:Hw.
    + destruct (has_code e "EBUSY" && Nat.ltb attempt WRITE_RETRIES)%bool eqn:Hretry.
      * apply andb_true_iff in Hretry as [Hcode Hlt]. apply Nat.ltb_lt in Hlt.
        rewrite (write_attempts_busy_step _ _ _ _ _ _ e Hw Hcode Hlt).
        destruct (after_busy_facts env t attempt w e Hw) as (Hd & _ & Hl).
        destruct (IH (S attempt) (Some e) (after_busy env t attempt w))
          as (w1 & evs & Hl1 & Hout).
        exists w1, ([EvWriteFile t (Some e);
                     EvDelay (WRITE_RETRY_DELAY_MS * Z.of_nat attempt)] ++ evs).
        split; [by rewrite Hl1, Hl, <- app_assoc|].
        rewrite saved_app. cbn [saved app].
        destruct Hout as [(Heq & Hs & Hd1)|(e' & Heq & Hs & Hd1)].
        -- left. done.
        -- right. exists e'. split; [done|]. split; [done|]. congruence.
      * destruct (write_attempts_failure env t remaining attempt lastErr w e Hw Hretry)
          as (Heq & Hd & Hl).
        eexists _, _. split; [exact Hl|]. right. eexists. split; [exact Heq|]. done.
    + destruct (write_attempts_success env t remaining attempt lastErr w Hw)
        as (Heq & Hd & Hl).
      eexists _, _. split; [exact Hl|]. left. done.
Qed.


(** ** Rows of the saved table *)




Lemma mergeRow_lookup (r : gmap string cell) today link c merged k :
  mergeRow r today link c = Ok merged ->
  k ∉ DERIVED_COLUMNS -> merged !! k = r !! k.
Proof.
  unfold mergeRow, rbind.
  destruct (array_join ", " _) as [stacks|]; [|discriminate].
  destruct (array_join "; " _) as [phrases|]; [|discriminate].
  intros [= <-] Hk. unfold DERIVED_COLUMNS in Hk.
  rewrite !not_elem_of_cons in Hk.
  destruct Hk as (? & ? & ? & ? & ? & ? & ? & ? & ? & ? & ? & _).
  by rewrite !lookup_insert_ne by done.
Qed.

Lemma mergeRow_dom (r : gmap string cell) today link c merged k :
  mergeRow r today link c = Ok merged ->
  is_Some (r !! k) -> is_Some (merged !! k).
Proof.
  unfold mergeRow, rbind.
  destruct (array_join ", " _) as [stacks|]; [|discriminate].
  destruct (array_join "; " _) as [phrases|]; [|discriminate].
  intros [= <-] Hk.
  repeat (rewrite lookup_insert; case_decide; [by eexists|]). exact Hk.
Qed.

Lemma elem_of_uniq l : forall seen x,
  x ∈ uniq seen l <-> x ∈ l /\ x ∉ seen.
Proof.
  induction l as [|y l IH]; intros seen x; cbn [uniq].
  - rewrite elem_of_nil. tauto.
  - case_bool_decide as Hy.
    + rewrite IH, elem_of_cons. split; [tauto|].
      intros [[->|Hx] Hseen]; tauto.
    + rewrite elem_of_cons, IH, !elem_of_cons. split.
      * intros [->|[Hx Hseen]]; [tauto|]. split; [tauto|]. intros H. apply Hseen. tauto.
      * intros [[->|Hx] Hseen]; [tauto|].
        destruct (decide (x = y)) as [->|Hne]; [tauto|]. right.
        split; [done|]. intros [?|?]; tauto.
Qed.

Lemma NoDup_uniq l : forall seen, NoDup (uniq seen l).
Proof.
  induction l as [|y l IH]; intros seen; cbn [uniq]; [constructor|].
  case_bool_decide; [apply IH|]. constructor; [|apply IH].
  rewrite elem_of_uniq, elem_of_cons. tauto.
Qed.

(** A list without repetition and without strings of [seen] is left as
    it is. *)
Lemma uniq_NoDup l : forall seen,
  NoDup l -> (forall x, x ∈ l -> x ∉ seen) -> uniq seen l = l.
Proof.
  induction l as [|y l IH]; intros seen Hnd Hseen; [done|]. cbn [uniq].
  apply NoDup_cons in Hnd as [Hy Hnd].
  rewrite bool_decide_eq_false_2 by (apply Hseen; by left).
  f_equal. apply IH; [done|]. intros x Hx [->|Hs]%elem_of_cons; [done|].
  by apply (Hseen x); [right|].
Qed.


Lemma keys_NoDup order (r : gmap string cell) : NoDup (keys order r).
Proof.
  unfold keys. cbv zeta. apply NoDup_app. split; [apply NoDup_uniq|].
  split; [|apply NoDup_filter, NoDup_elements].
  intros x Hx [Hnot _]%list_elem_of_filter. done.
Qed.

(** When [order] lists the columns of the row, each once, [keys] is
    [order]. *)
Lemma keys_listed order (r : gmap string cell) :
  NoDup order -> (forall k, k ∈ order <-> is_Some (r !! k)) ->
  keys order r = order.
Proof.
  intros Hnd Hcols. unfold keys. cbv zeta.
  assert (Hf : filter (fun k => is_Some (r !! k)) order = order).
  { clear Hnd. assert (Hall : forall k, k ∈ order -> is_Some (r !! k))
      by (intros k; apply Hcols).
    clear Hcols. induction order as [|x order IH]; [done|].
    rewrite filter_cons_True by (apply Hall; by left).
    f_equal. apply IH. intros k Hk. apply Hall. by right. }
  rewrite Hf, (uniq_NoDup order []) by (done || intros x _; apply not_elem_of_nil).
  assert (Hnone : filter (fun k => k ∉ order) (elements (dom r)) = []).
  { assert (Hall : forall k, k ∈ elements (dom r) -> k ∈ order).
    { intros k Hk. apply Hcols. by rewrite elem_of_elements, elem_of_dom in Hk. }
    induction (elements (dom r)) as [|x l IH]; [done|].
    rewrite filter_cons_False by (intros Hx; apply Hx, Hall; by left).
    apply IH. intros k Hk. apply Hall. by right. }
  by rewrite Hnone, app_nil_r.
Qed.



(** ** Rows without a link *)

Lemma no_remote_XLSX_writeFile env t : keeps no_remote (XLSX_writeFile env t).
Proof.
  intros w. unfold XLSX_writeFile. simpl. repeat split.
  eexists [_]. split; [done|]. by repeat constructor.
Qed.

Lemma no_remote_write_attempts env t : forall remaining attempt lastErr,
  keeps no_remote (write_attempts env remaining attempt lastErr t).
Proof.
  induction remaining as [|remaining IH]; intros attempt lastErr; simpl.
  - apply keeps_throw; apply _.
  - apply keeps_try_catch; [apply _ | apply no_remote_XLSX_writeFile |].
    intros e. destruct (_ && _)%bool.
    + apply keeps_bind; [apply _ | by apply no_remote_emit | intros _; apply IH].
    + destruct (has_code e "EBUSY"); apply keeps_throw; apply _.
Qed.


Lemma linkOf_missing_or_empty (r : gmap string cell) :
  r !! "Link" = None \/ r !! "Link" = Some (CStr "") -> linkOf r = "".
Proof. unfold linkOf, linkKey. by intros [-> | ->]. Qed.



(** C10. On a table without data rows the run raises nothing, touches
    nothing (no write, no event) and returns the path and the name of the
    input file. *)
Theorem C10_empty_table (env : Env) (w : World) :
  w_disk w = Some [] ->
  analyzeJobLinks env w
  = (Ok {| filePath := env_inputPath env; fileName := "JobLinks.xlsx" |}, w)
  /\ write_calls (new_events w (analyzeJobLinks env w).2) = [].
Proof.
  intros Hdisk. unfold analyzeJobLinks. rewrite Hdisk. simpl.
  split; [reflexivity|]. unfold new_events. by rewrite drop_all.
Qed.

(** ** The statements on the scenarios *)

(** The run of the specification's scenario, row by row: two saves, the
    first with the second row still as it was, and one session and one
    call of the service, both for the first row. *)
Example office_run :
  let run := analyzeJobLinks office (start (Some job_rows)) in
  run.1 = Ok {| filePath := "/srv/backend/output/JobLinks.xlsx";
                fileName := "JobLinks.xlsx" |}
  /\ saved (w_log run.2)
     = [ [backend_merged; designer_pending]; [backend_merged; designer_merged] ]
  /\ w_disk run.2 = Some [backend_merged; designer_merged]
  /\ delays (w_log run.2) = [500%Z]
  /\ w_sessions run.2 = 1%nat /\ w_chats run.2 = 1%nat.
Proof. repeat split; vm_compute; reflexivity. Qed.

(** A file locked for all five attempts: four pauses, then the busy error. *)
Example save_locked_throughout :
  let run := writeWorkbookWithRetry (locked_for 5 office) job_rows (start None) in
  run.1 = Throw busyErr /\ w_disk run.2 = None /\ w_writes run.2 = 5%nat
  /\ delays (w_log run.2) = [1500; 3000; 4500; 6000]%Z.
Proof. repeat split; vm_compute; reflexivity. Qed.

(** A permission error is raised at the first attempt, as it is. *)
Example save_permission_denied :
  let run := writeWorkbookWithRetry (with_writeFile (fun _ => Some EACCES) office)
               job_rows (start None) in
  run.1 = Throw EACCES /\ w_writes run.2 = 1%nat /\ delays (w_log run.2) = [].
Proof. repeat split; vm_compute; reflexivity. Qed.

(** Code fences around the reply are removed before it is parsed. *)
Example fenced_reply :
  decodeReply office ("```json" +:+ JS.nl +:+ backend_reply +:+ JS.nl +:+ "```")
  = decodeReply office backend_reply.
Proof. vm_compute. reflexivity. Qed.


(** Against C2 as stated: the service names the stack [Wizard]; it is
    returned as it is, outside the stack list. *)
Lemma C2_counterexample :
  exists c,
    (classifyWithOpenAI wizard_office "Stage Magician" "Rabbits and hats."
       (Some "sk-test") 3 (start None)).1 = Ok c
    /\ bestStack c = "Wizard"
    /\ bestStack c ∉ STACK_VOCABULARY.
Proof.
  eexists. split; [vm_compute; reflexivity|]. split; [reflexivity|].
  by_evaluation.
Qed.

(** C2 on the reply that names [Wizard] and the level [Expert]. *)
Lemma C2_witness :
  exists c, validate wizard_json = Ok c
            /\ level c = "N/A" /\ bestStack c = "Wizard".
Proof.
  destruct (C2_enum_fields_validated office "" "" None 0 (start None)) as [_ H].
  destruct (H wizard_json) as (c & Hc & _ & _ & _ & Hlevel & _ & _ & Hstack & _);
    [discriminate|].
  exists c. split; [exact Hc|]. split.
  - apply Hlevel. vm_compute. reflexivity.
  - apply (Hstack "Wizard"); [reflexivity | discriminate].
Defined.

(** Against C3 as stated: the first example keeps [/apply]. *)
Lemma C3_counterexample :
  WebURL.parse "https://boards.applytojob.com/company/abc123/apply?ref=x"
  = Some {| origin := "https://boards.applytojob.com";
            pathname := "/company/abc123/apply";
            hostname := "boards.applytojob.com" |}
  /\ refineLink office "https://boards.applytojob.com/company/abc123/apply?ref=x"
     <> "https://boards.applytojob.com/company/abc123".
Proof. split; [vm_compute; reflexivity | by_evaluation]. Qed.

(** C3 in the office. *)
Lemma C3_witness :
  refineLink office "https://boards.applytojob.com/company/abc123/apply?ref=x"
  = "https://boards.applytojob.com/company/abc123/apply"
  /\ refineLink office "https://jobs.example.com/posting/42/apply/step1"
     = "https://jobs.example.com/posting/42"
  /\ refineLink office "https://jobs.example.com/posting/42?utm=y"
     = "https://jobs.example.com/posting/42".
Proof. apply (C3_normalization_examples office). intros s u Hu. exact Hu. Defined.

(** C4 on the second example of the specification. *)
Lemma C4_witness :
  exists kept,
    JS.includes kept "/apply" = false
    /\ refineLink office "https://jobs.example.com/posting/42/apply/step1"
       = "https://jobs.example.com" +:+ kept.
Proof.
  destruct (C4_normalizer_rules office
              "https://jobs.example.com/posting/42/apply/step1") as [_ H].
  destruct (H {| origin := "https://jobs.example.com";
                 pathname := "/posting/42/apply/step1";
                 hostname := "jobs.example.com" |}) as (_ & Hcut & _);
    [vm_compute; reflexivity|].
  destruct Hcut as (kept & rest & _ & Hno & Heq);
    [vm_compute; reflexivity | vm_compute; reflexivity|].
  exists kept. split; [exact Hno | exact Heq].
Defined.

(** Against C4 as stated: the path has no segment [apply], yet the text
    [/apply] starts its segment [applying] and the path is cut there. *)
Lemma C4_counterexample :
  WebURL.parse "https://x.com/jobs/applying/now"
  = Some {| origin := "https://x.com"; pathname := "/jobs/applying/now";
            hostname := "x.com" |}
  /\ WebURL.split_on "/" "/jobs/applying/now" ""
     = [""; "jobs"; "applying"; "now"]
  /\ refineLink office "https://x.com/jobs/applying/now" = "https://x.com/jobs"
  /\ refineLink office "https://x.com/jobs/applying/now"
     <> "https://x.com" +:+ "/jobs/applying/now".
Proof.
  split; [vm_compute; reflexivity|]. split; [vm_compute; reflexivity|].
  split; [vm_compute; reflexivity|]. by_evaluation.
Qed.

(** C5 on a file locked for the first two writes. *)
Lemma C5_witness :
  (writeWorkbookWithRetry (locked_for 2 office) job_rows (start None)).1 = Ok ()
  /\ w_disk (writeWorkbookWithRetry (locked_for 2 office) job_rows (start None)).2
     = Some job_rows
  /\ delays (new_events (start None)
               (writeWorkbookWithRetry (locked_for 2 office) job_rows (start None)).2)
     = [1500; 3000]%Z.
Proof.
  destruct (C5_save_retry (locked_for 2 office) job_rows (start None) 2)
    as (Hclear & _).
  - unfold WRITE_RETRIES. lia.
  - intros j Hj. exists EBUSY. split; [|reflexivity].
    destruct j as [|[|j]]; [reflexivity | reflexivity | lia].
  - destruct (Hclear eq_refl) as (Hr & Hd & _ & Hp & _).
    split; [exact Hr|]. split; [exact Hd | exact Hp].
Defined.

(** C6 with a service that cannot be reached. *)
Lemma C6_witness :
  (classifyWithOpenAI (offline office) "Backend Engineer" "" (Some "sk-test") 3
     (start None)).1 = Ok DEFAULT_CLASSIFICATION
  /\ w_chats (classifyWithOpenAI (offline office) "Backend Engineer" ""
                (Some "sk-test") 3 (start None)).2 = 3%nat
  /\ delays (new_events (start None)
               (classifyWithOpenAI (offline office) "Backend Engineer" ""
                  (Some "sk-test") 3 (start None)).2)
     = [1000; 2000]%Z.
Proof.
  destruct (C6_classifier_fails_soft (offline office) "Backend Engineer" ""
              (Some "sk-test") 3 (start None)) as (_ & _ & Hfail).
  destruct (Hfail eq_refl) as (Hr & Hc & _ & Hd).
  - intros j Hj. discriminate.
  - split; [exact Hr|]. split; [exact Hc|]. apply Hd.
    intros j e Hj [= <-]. reflexivity.
Defined.


(** C8, on the code. After a page that renders, the page is closed but
    the browser launched for it is still open; after a page whose
    navigation fails, the empty string is returned and the warning
    logged, and both the browser and the page are still open. *)
Theorem C8_session_left_open :
  let url := "https://x.com/job/1" in
  let rendered := fetchPageContent office url (start None) in
  let failed := fetchPageContent unreachable_office url (start None) in
  rendered.1 = Ok "We are hiring a backend engineer."
  /\ w_browsers rendered.2 = 1%nat /\ w_pages rendered.2 = 0%nat
  /\ failed.1 = Ok ""
  /\ last (w_log failed.2)
     = Some (EvConsole WARN ["Failed to fetch https://x.com/job/1:";
                             "page.goto: Timeout 300000ms exceeded."])
  /\ w_browsers failed.2 = 1%nat /\ w_pages failed.2 = 1%nat.
Proof. repeat split; vm_compute; reflexivity. Qed.

(** Against C9 as stated: a path that starts with [/apply] is cut to
    nothing, and the bare origin gains a [/] on the second pass. *)
Lemma C9_counterexample :
  WebURL.parse "https://x.com/apply"
  = Some {| origin := "https://x.com"; pathname := "/apply"; hostname := "x.com" |}
  /\ refineLink office "https://x.com/apply" = "https://x.com"
  /\ refineLink office (refineLink office "https://x.com/apply") = "https://x.com/"
  /\ refineLink office (refineLink office "https://x.com/apply")
     <> refineLink office "https://x.com/apply".
Proof.
  split; [vm_compute; reflexivity|]. split; [vm_compute; reflexivity|].
  split; [vm_compute; reflexivity|]. by_evaluation.
Qed.

(** C9 on the second example of the specification. *)
Lemma C9_witness :
  refineLink office
    (refineLink office "https://jobs.example.com/posting/42/apply/step1")
  = refineLink office "https://jobs.example.com/posting/42/apply/step1".
Proof.
  destruct (C9_normalizer_idempotent_when_stable office
              "https://jobs.example.com/posting/42/apply/step1"
              {| origin := "https://jobs.example.com";
                 pathname := "/posting/42/apply/step1";
                 hostname := "jobs.example.com" |}) as [_ Hplain].
  - vm_compute. reflexivity.
  - destruct Hplain as [Hkept _].
    + intros s v Hv. exact Hv.
    + vm_compute. reflexivity.
    + apply Hkept. vm_compute. discriminate.
Defined.

(** C10 in the office, with a file that has only its header row. *)
Lemma C10_witness :
  (analyzeJobLinks office (start (Some []))).1
  = Ok {| filePath := "/srv/backend/output/JobLinks.xlsx";
          fileName := "JobLinks.xlsx" |}
  /\ (analyzeJobLinks office (start (Some []))).2 = start (Some []).
Proof.
  destruct (C10_empty_table office (start (Some [])) eq_refl) as [Heq _].
  rewrite Heq. split; reflexivity.
Defined.

(** * Further properties of the pipeline *)

(** ** Saving *)

(** A save from attempt [attempt] on makes [n] attempts, at least one and
    at most all that are left; all but the last are refused for a lock
    and followed by their pause; the answer to the last decides the
    outcome. *)
Lemma write_attempts_run env t : forall remaining attempt lastErr w,
  (attempt + remaining = S WRITE_RETRIES)%nat ->
  (1 <= remaining)%nat ->
  exists n w1 evs,
    (1 <= n <= remaining)%nat
    /\ (write_attempts env remaining attempt lastErr t w).2 = w1
    /\ w_log w1 = w_log w ++ evs
    /\ w_writes w1 = (w_writes w + n)%nat
    /\ write_calls evs = replicate n t
    /\ delays evs = map save_pause (seq attempt (n - 1))
    /\ (forall j, (j < n - 1)%nat -> busy (env_writeFile env (w_writes w + j)))
    /\ match env_writeFile env (w_writes w + (n - 1)) with
       | None =>
           (write_attempts env remaining attempt lastErr t w).1 = Ok ()
           /\ saved evs = [t] /\ w_disk w1 = Some t
           /\ last evs = Some (EvWriteFile t None)
       | Some e =>
           (write_attempts env remaining attempt lastErr t w).1
           = Throw (if has_code e "EBUSY" then busyErr else e)
           /\ saved evs = [] /\ w_disk w1 = w_disk w
           /\ (has_code e "EBUSY" = true -> n = remaining)
           /\ last evs = Some (EvWriteFile t (Some e))
       end.
Proof.
  induction remaining as [|remaining IH]; intros attempt lastErr w Hsum Hpos;
    [lia|].
  destruct (env_writeFile env (w_writes w)) as [e|] eqn:Hw.
  - destruct (has_code e "EBUSY" && Nat.ltb attempt WRITE_RETRIES)%bool eqn:Hretry.
    + apply andb_true_iff in Hretry as [Hcode Hlt]. apply Nat.ltb_lt in Hlt.
      rewrite (write_attempts_busy_step _ _ _ _ _ _ e Hw Hcode Hlt).
      destruct (after_busy_facts env t attempt w e Hw) as (Hd & Hn & Hl).
      destruct (IH (S attempt) (Some e) (after_busy env t attempt w))
        as (n & w1 & evs & Hrange & Hw1 & Hl1 & Hn1 & Hc1 & Hdl1 & Hbusy & Hout);
        [lia | lia |].
      exists (S n), w1,
        ([EvWriteFile t (Some e); EvDelay (save_pause attempt)] ++ evs).
      split; [lia|]. split; [exact Hw1|].
      split; [rewrite Hl1, Hl, <- app_assoc; reflexivity|].
      split; [lia|].
      split; [rewrite write_calls_app, Hc1; reflexivity|].
      split.
      { rewrite delays_app, Hdl1. cbn [delays app].
        replace (S n - 1)%nat with (S (n - 1)) by lia. reflexivity. }
      split.
      { intros [|j] Hj.
        - rewrite Nat.add_0_r. by exists e.
        - replace (w_writes w + S j)%nat
            with (w_writes (after_busy env t attempt w) + j)%nat by lia.
          apply Hbusy. lia. }
      replace (w_writes w + (S n - 1))%nat
        with (w_writes (after_busy env t attempt w) + (n - 1))%nat by lia.
      destruct (env_writeFile env
                  (w_writes (after_busy env t attempt w) + (n - 1))) as [e'|].
      * destruct Hout as (Hr & Hs & Hd1 & Hfull & Hlast).
        split; [exact Hr|]. rewrite saved_app, Hs.
        split; [reflexivity|]. split; [congruence|].
        split; [intros H; rewrite Hfull; [lia|done]|].
        rewrite last_app, Hlast. reflexivity.
      * destruct Hout as (Hr & Hs & Hd1 & Hlast).
        split; [exact Hr|]. rewrite saved_app, Hs.
        split; [reflexivity|]. split; [exact Hd1|].
        rewrite last_app, Hlast. reflexivity.
    + destruct (write_attempts_failure env t remaining attempt lastErr w e Hw Hretry)
        as (Heq & Hd & Hl).
      exists 1%nat, (XLSX_writeFile env t w).2, [EvWriteFile t (Some e)].
      rewrite Heq. cbn [fst snd].
      split; [lia|]. split; [reflexivity|]. split; [exact Hl|].
      split; [unfold XLSX_writeFile; simpl; lia|].
      split; [reflexivity|]. split; [reflexivity|].
      split; [intros j Hj; lia|].
      rewrite Nat.add_0_r, Hw.
      split; [reflexivity|]. split; [reflexivity|]. split; [exact Hd|].
      split; [|reflexivity].
      intros Hcode. rewrite Hcode in Hretry. simpl in Hretry.
      apply Nat.ltb_ge in Hretry. lia.
  - destruct (write_attempts_success env t remaining attempt lastErr w Hw)
      as (Heq & Hd & Hl).
    exists 1%nat, (XLSX_writeFile env t w).2, [EvWriteFile t None].
    rewrite Heq. cbn [fst snd].
    split; [lia|]. split; [reflexivity|]. split; [exact Hl|].
    split; [unfold XLSX_writeFile; simpl; lia|].
    split; [reflexivity|]. split; [reflexivity|].
    split; [intros j Hj; lia|].
    rewrite Nat.add_0_r, Hw. done.
Qed.

Lemma save_pauses_total n :
  (1 <= n <= WRITE_RETRIES)%nat ->
  (0 <= sum_Z (map save_pause (seq 1 (n - 1))) <= 15000)%Z.
Proof.
  unfold WRITE_RETRIES. intros Hn.
  assert (n = 1 \/ n = 2 \/ n = 3 \/ n = 4 \/ n = 5)%nat as Hcases by lia.
  destruct Hcases as [->|[->|[->|[->| ->]]]]; vm_compute; split; discriminate.
Qed.

(** X1. Whatever the file system answers, a save tries to write between
    one and five times, always the same table, pauses 1500 ms times the
    attempt number between two attempts and nowhere else, and so never
    waits more than 15 seconds in all. *)
Theorem X1_save_is_bounded (env : Env) (t : list (gmap string cell)) (w : World) :
  let run := writeWorkbookWithRetry env t w in
  let evs := new_events w run.2 in
  exists n,
    (1 <= n <= WRITE_RETRIES)%nat
    /\ write_calls evs = replicate n t
    /\ w_writes run.2 = (w_writes w + n)%nat
    /\ delays evs = map save_pause (seq 1 (n - 1))
    /\ (0 <= sum_Z (delays evs) <= 15000)%Z.
Proof.
  intros run evs. subst evs run. unfold writeWorkbookWithRetry.
  destruct (write_attempts_run env t WRITE_RETRIES 1 None w)
    as (n & w1 & evs & Hrange & -> & Hl & Hn & Hc & Hd & _); [done | unfold WRITE_RETRIES; lia |].
  exists n. rewrite (new_events_app w w1 evs Hl), Hd.
  split; [exact Hrange|]. split; [exact Hc|]. split; [exact Hn|].
  split; [reflexivity|]. by apply save_pauses_total.
Qed.

(** X2. How a save ends, read off the answers of the file system. It
    makes [n] attempts, at most five, of which all but the last are
    refused for a lock. It returns exactly when the last attempt
    succeeds: the table was then written exactly once, as the last thing
    done, and is what the file holds. It raises exactly when the last
    attempt fails, and no write has succeeded then: an error other than
    a lock is raised as it is, without a further attempt; a lock at the
    fifth attempt raises the busy error in its place. *)
Theorem X2_save_outcome (env : Env) (t : list (gmap string cell)) (w : World) :
  let run := writeWorkbookWithRetry env t w in
  let evs := new_events w run.2 in
  exists n,
    (1 <= n <= WRITE_RETRIES)%nat
    /\ length (write_calls evs) = n
    /\ (forall j, (j < n - 1)%nat -> busy (env_writeFile env (w_writes w + j)))
    /\ match run.1 with
       | Ok _ =>
           env_writeFile env (w_writes w + (n - 1)) = None
           /\ saved evs = [t] /\ w_disk run.2 = Some t
           /\ last evs = Some (EvWriteFile t None)
       | Throw e =>
           saved evs = []
           /\ exists refusal,
                env_writeFile env (w_writes w + (n - 1)) = Some refusal
                /\ last evs = Some (EvWriteFile t (Some refusal))
                /\ if has_code refusal "EBUSY"
                   then e = busyErr /\ n = WRITE_RETRIES
                   else e = refusal
       end.
Proof.
  intros run evs. subst evs run. unfold writeWorkbookWithRetry.
  destruct (write_attempts_run env t WRITE_RETRIES 1 None w)
    as (n & w1 & evs & Hrange & Hw1 & Hl & Hn & Hc & Hd & Hbusy & Hout);
    [done | unfold WRITE_RETRIES; lia |].
  rewrite Hw1, (new_events_app w w1 evs Hl). exists n.
  split; [exact Hrange|]. split; [by rewrite Hc, length_replicate|].
  split; [exact Hbusy|].
  destruct (env_writeFile env (w_writes w + (n - 1))) as [e|] eqn:Hlast.
  - destruct Hout as (-> & Hs & _ & Hfull & Hlst).
    split; [exact Hs|]. exists e. split; [reflexivity|]. split; [exact Hlst|].
    destruct (has_code e "EBUSY") eqn:Hcode; [|reflexivity].
    split; [reflexivity | by apply Hfull].
  - destruct Hout as (-> & Hs & Hdisk & Hlst). done.
Qed.

(** ** Fetching a page *)

Lemma warnings_app l1 l2 : warnings (l1 ++ l2) = warnings l1 ++ warnings l2.
Proof.
  induction l1 as [|e l1 IH]; [done|].
  destruct e as [| | | | | | | |[] args]; simpl; by rewrite ?IH.
Qed.

Lemma visible_spec t :
  (negb (JS.is_empty t) && Nat.ltb 0 (String.length (JS.trim t)))%bool = visible t.
Proof.
  unfold visible. destruct t as [|c t]; [reflexivity|].
  cbn [JS.is_empty negb andb]. by destruct (JS.trim (String c t)).
Qed.

Lemma scroll_cycles_spec s : forall remaining i w,
  exists w1 evs,
    scroll_cycles s remaining i w
    = (match scroll_failure s remaining i with
       | None => Ok () | Some e => Throw e end, w1)
    /\ only_logged w w1 /\ w_log w1 = w_log w ++ evs /\ warnings evs = [].
Proof.
  induction remaining as [|remaining IH]; intros i w.
  - exists w, []. rewrite app_nil_r. by repeat split.
  - cbn [scroll_cycles scroll_failure]. unfold bind, emit, settle.
    destruct (s_wheel s i) as [e|]; simpl.
    { eexists _, [_]. split; [reflexivity|]. by repeat split. }
    destruct (s_wait s i) as [e|]; simpl.
    { eexists _, [_; _]. split; [reflexivity|]. simpl.
      rewrite <- app_assoc. by repeat split. }
    match goal with |- context [scroll_cycles s remaining (S i) ?w0] =>
      destruct (IH (S i) w0) as (w1 & evs & Heq & Hsame & Hl & Hw) end.
    exists w1, ([EvWheel; EvPageWait 2000] ++ evs).
    split; [exact Heq|]. split; [exact Hsame|].
    split; [rewrite Hl; simpl; by rewrite <- !app_assoc|].
    by rewrite warnings_app, Hw.
Qed.

Lemma frames_loop_spec : forall frames textContent w,
  exists w1 evs,
    frames_loop frames textContent w
    = (Ok (fold_left (fun text t => text +:+ JS.nl +:+ JS.nl +:+ t)
             (visible_frames frames) textContent), w1)
    /\ only_logged w w1 /\ w_log w1 = w_log w ++ evs
    /\ warnings evs
       = map (fun e => ["⚠️ Could not extract text from iframe: " +:+ message_text e])
           (unreadable_frames frames).
Proof.
  induction frames as [|frame frames IH]; intros textContent w.
  - exists w, []. rewrite app_nil_r. by repeat split.
  - cbn [frames_loop]. destruct frame as [frameText|e].
    + cbn [visible_frames unreadable_frames].
      unfold bind at 1, try_catch, bind, lift. rewrite visible_spec.
      destruct (visible frameText); cbn [ret fold_left].
      * destruct (IH (textContent +:+ JS.nl +:+ JS.nl +:+ frameText) w)
          as (w1 & evs & Heq & Hsame & Hl & Hw).
        by exists w1, evs.
      * destruct (IH textContent w) as (w1 & evs & Heq & Hsame & Hl & Hw).
        by exists w1, evs.
    + cbn [visible_frames unreadable_frames].
      unfold bind at 1, try_catch, bind, lift, console, emit. cbn [ret].
      match goal with |- context [frames_loop frames textContent ?w0] =>
        destruct (IH textContent w0) as (w1 & evs & Heq & Hsame & Hl & Hw) end.
      eexists w1, (_ :: evs). split; [exact Heq|]. split; [exact Hsame|].
      split; [rewrite Hl; simpl; rewrite <- app_assoc; reflexivity|].
      cbn [warnings map]. by rewrite Hw.
Qed.

(** The [try] block of [fetchPageContent] against the script of the
    session: it raises the first rejection, or returns the text of the
    page; the browser stays open once launched, the page stays open when
    a step after its opening rejects. *)
Lemma renderPage_spec env url w :
  let s := env_session env (w_sessions w) url in
  exists w1 evs,
    renderPage env url w
    = (match session_failure s with
       | None => Ok (session_text s) | Some e => Throw e end, w1)
    /\ w_disk w1 = w_disk w /\ w_writes w1 = w_writes w
    /\ w_chats w1 = w_chats w /\ w_sessions w1 = S (w_sessions w)
    /\ w_browsers w1
       = match s_launch s with None => S (w_browsers w) | Some _ => w_browsers w end
    /\ w_pages w1
       = (if fails_with_page_open s then S (w_pages w) else w_pages w)
    /\ w_log w1 = w_log w ++ EvLaunch url :: evs
    /\ warnings evs
       = match session_failure s with
         | None =>
             map (fun e => ["⚠️ Could not extract text from iframe: "
                            +:+ message_text e])
               (unreadable_frames (s_frames s))
         | Some _ => []
         end.
Proof.
  intros s. unfold renderPage, session_failure, fails_with_page_open,
    session_failure, session_text.
  unfold bind at 1, chromium_launch. fold s. cbn [first_failure fold_right].
  destruct (s_launch s) as [e|].
  { eexists _, []. split; [reflexivity|]. by repeat split. }
  unfold bind at 1, settle. destruct (s_newContext s) as [e|]; cbn [throw ret].
  { eexists _, []. split; [reflexivity|]. by repeat split. }
  unfold bind at 1, newPage. destruct (s_newPage s) as [e|].
  { eexists _, []. split; [reflexivity|]. simpl. by repeat split. }
  unfold bind at 1, emit. cbn [fst snd].
  unfold bind at 1. destruct (s_goto s) as [e|]; cbn [throw ret].
  { eexists _, [_]. split; [reflexivity|]. simpl. rewrite <- app_assoc.
    by repeat split. }
  unfold bind at 1. unfold bind at 1. destruct (s_settle s) as [e|]; cbn [throw ret].
  { eexists _, [_; _]. split; [reflexivity|]. simpl. rewrite <- !app_assoc.
    by repeat split. }
  unfold bind at 1.
  match goal with |- context [scroll_cycles s 10 0 ?w0] =>
    destruct (scroll_cycles_spec s 10 0 w0)
      as (w1 & evs1 & Heq1 & (Hd1 & Hn1 & Hs1 & Hc1 & Hb1 & Hp1) & Hl1 & Hw1) end.
  rewrite Heq1. simpl in Hd1, Hn1, Hs1, Hc1, Hb1, Hp1, Hl1.
  rewrite <- !app_assoc in Hl1. simpl in Hl1.
  destruct (scroll_failure s 10 0) as [e|].
  { exists w1, ([EvGoto url; EvPageWait 12000] ++ evs1).
    split; [reflexivity|]. rewrite warnings_app, Hw1. by repeat split. }
  unfold bind at 1, lift. destruct (s_body s) as [body|e]; cbn [failure_of].
  2:{ exists w1, ([EvGoto url; EvPageWait 12000] ++ evs1).
      split; [reflexivity|]. rewrite warnings_app, Hw1. by repeat split. }
  unfold bind at 1.
  destruct (frames_loop_spec (s_frames s) body w1)
    as (w2 & evs2 & Heq2 & (Hd2 & Hn2 & Hs2 & Hc2 & Hb2 & Hp2) & Hl2 & Hw2).
  rewrite Heq2. unfold bind, page_close, ret. cbn [fst snd].
  eexists _, ([EvGoto url; EvPageWait 12000] ++ evs1 ++ evs2 ++ [EvPageClose]).
  split; [reflexivity|]. cbn [w_disk w_writes w_chats w_sessions w_browsers
    w_pages w_log].
  rewrite Hp2, Hp1.
  split; [congruence|]. split; [congruence|]. split; [congruence|].
  split; [congruence|]. split; [congruence|]. split; [reflexivity|].
  split; [rewrite Hl2, Hl1; simpl; by rewrite <- !app_assoc|].
  rewrite !warnings_app, Hw1, Hw2. simpl. by rewrite app_nil_r.
Qed.

(** X3. [fetchPageContent] against the script of its session. It starts
    exactly one session and never raises. If no awaited step rejects it
    returns the main frame's text followed, after a blank line each, by
    the text of every other frame that could be read and is not blank; a
    frame that cannot be read is skipped with one warning and does not
    fail the page. If a step rejects it returns the empty string, and the
    only warning is the one naming the URL and the error of that step. *)
Theorem X3_fetch_text (env : Env) (url : string) (w : World) :
  let s := env_session env (w_sessions w) url in
  let run := fetchPageContent env url w in
  w_sessions run.2 = S (w_sessions w)
  /\ w_disk run.2 = w_disk w /\ w_chats run.2 = w_chats w
  /\ match session_failure s with
     | None =>
         run.1 = Ok (fold_left (fun text t => text +:+ JS.nl +:+ JS.nl +:+ t)
                       (visible_frames (s_frames s))
                       (match s_body s with Ok body => body | Throw _ => "" end))
         /\ warnings (new_events w run.2)
            = map (fun e => ["⚠️ Could not extract text from iframe: "
                             +:+ message_text e])
                (unreadable_frames (s_frames s))
     | Some e =>
         run.1 = Ok ""
         /\ warnings (new_events w run.2)
            = [["Failed to fetch " +:+ url +:+ ":"; message_text e]]
     end.
Proof.
  intros s run. subst run. unfold fetchPageContent, try_catch.
  destruct (renderPage_spec env url w)
    as (w1 & evs & Heq & Hd & _ & Hc & Hs & _ & _ & Hl & Hw).
  fold s in Heq, Hw. rewrite Heq.
  destruct (session_failure s) as [e|] eqn:Hfail.
  - unfold bind, console, emit, ret. cbn [fst snd w_sessions w_disk w_chats].
    split; [exact Hs|]. split; [exact Hd|]. split; [exact Hc|].
    split; [reflexivity|].
    rewrite (new_events_app w _ ((EvLaunch url :: evs)
               ++ [EvConsole WARN ["Failed to fetch " +:+ url +:+ ":";
                                   message_text e]]))
      by (cbn [w_log]; rewrite Hl, <- app_assoc; reflexivity).
    rewrite warnings_app. cbn [warnings]. by rewrite Hw.
  - cbn [fst snd]. split; [exact Hs|]. split; [exact Hd|]. split; [exact Hc|].
    split.
    + unfold session_text, page_text.
      destruct (s_body s) as [body|e] eqn:Hbody; [reflexivity|].
      exfalso. revert Hfail. unfold session_failure. rewrite Hbody.
      cbn [first_failure fold_right failure_of].
      destruct (s_launch s), (s_newContext s), (s_newPage s), (s_goto s),
        (s_settle s), (scroll_failure s 10 0); discriminate.
    + rewrite (new_events_app w w1 (EvLaunch url :: evs) Hl).
      cbn [warnings]. exact Hw.
Qed.

(** X4. What [fetchPageContent] leaves open. The browser it launched is
    never closed: one more browser is open after every call whose launch
    resolved. The page is closed when the extraction ran to its end; it
    is left open when a step after its opening rejected. *)
Theorem X4_fetch_leaves_open (env : Env) (url : string) (w : World) :
  let s := env_session env (w_sessions w) url in
  let run := fetchPageContent env url w in
  w_browsers run.2
  = match s_launch s with None => S (w_browsers w) | Some _ => w_browsers w end
  /\ w_pages run.2
     = (if fails_with_page_open s then S (w_pages w) else w_pages w).
Proof.
  intros s run. subst run. unfold fetchPageContent, try_catch.
  destruct (renderPage_spec env url w)
    as (w1 & evs & Heq & _ & _ & _ & _ & Hb & Hp & _).
  fold s in Heq, Hb, Hp. rewrite Heq.
  by destruct (session_failure s).
Qed.

(** ** Classifying *)

Lemma chat_calls_app l1 l2 : chat_calls (l1 ++ l2) = chat_calls l1 ++ chat_calls l2.
Proof.
  induction l1 as [|e l1 IH]; [done|].
  destruct e; simpl; by rewrite ?IH.
Qed.

Lemma chat_calls_quiet evs :
  Forall (fun e => is_remote_call e = false) evs -> chat_calls evs = [].
Proof.
  induction 1 as [|e evs He _ IH]; [done|]. by destruct e.
Qed.

(** The loop of the classifier, whatever the service answers: it makes
    [n] calls, at most the attempts left, all with the same message, and
    its pauses are those of [backoff]. *)
Lemma classify_attempts_run env userContent maxRetries :
  forall remaining attempt w,
  exists c w1 evs n,
    classify_attempts env remaining attempt maxRetries userContent w = (Ok c, w1)
    /\ (n <= remaining)%nat
    /\ w_chats w1 = (w_chats w + n)%nat
    /\ w_log w1 = w_log w ++ evs
    /\ chat_calls evs = replicate n userContent
    /\ delays evs
       = backoff env userContent remaining attempt maxRetries (w_chats w).
Proof.
  induction remaining as [|remaining IH]; intros attempt w.
  - exists DEFAULT_CLASSIFICATION, w, [], 0%nat.
    rewrite app_nil_r, Nat.add_0_r. done.
  - destruct (classify_attempt_spec env attempt maxRetries userContent w)
      as (w1 & evs1 & Heq & _ & _ & _ & Hc & _ & _ & Hl & _ & Hq & Hdl).
    cbn [classify_attempts backoff]. unfold bind at 1. rewrite Heq.
    destruct (attempt_outcome env (w_chats w) userContent) as [c|e] eqn:Hout;
      cbn [failure_of] in *.
    + exists c, w1, (EvChat userContent :: evs1), 1%nat.
      split; [reflexivity|]. split; [lia|]. split; [lia|].
      split; [exact Hl|]. cbn [chat_calls delays].
      rewrite (chat_calls_quiet evs1 Hq), Hdl. done.
    + destruct (IH (S attempt) w1)
        as (c & w2 & evs2 & n & Heq2 & Hn & Hc2 & Hl2 & Hcalls & Hdl2).
      exists c, w2, ((EvChat userContent :: evs1) ++ evs2), (S n).
      split; [exact Heq2|]. split; [lia|]. split; [lia|].
      split; [rewrite Hl2, Hl, <- app_assoc; reflexivity|].
      rewrite chat_calls_app, delays_app. cbn [chat_calls delays].
      rewrite (chat_calls_quiet evs1 Hq), Hcalls, Hdl, Hdl2, Hc. done.
Qed.

(** The pauses of a classification add up to less than the next power of
    two: from attempt [attempt] on, at most
    [2^(maxRetries-1) - 2^(attempt-1)] seconds. *)
Lemma backoff_total env userContent maxRetries :
  forall remaining attempt k,
    (1 <= attempt)%nat ->
    (attempt + remaining = S maxRetries)%nat ->
    (0 <= sum_Z (backoff env userContent remaining attempt maxRetries k)
     /\ sum_Z (backoff env userContent remaining attempt maxRetries k)
        + 2 ^ (Z.of_nat attempt - 1) * 1000
        <= 2 ^ (Z.of_nat maxRetries - 1) * 1000)%Z
    \/ remaining = 0%nat.
Proof.
  induction remaining as [|remaining IH]; intros attempt k Hpos Hsum; [by right|].
  left. cbn [backoff].
  assert (Hpow : forall a : nat, (1 <= a)%nat ->
            (2 ^ (Z.of_nat (S a) - 1) = 2 * 2 ^ (Z.of_nat a - 1))%Z).
  { intros a Ha. replace (Z.of_nat (S a) - 1)%Z with (Z.succ (Z.of_nat a - 1)) by lia.
    apply Z.pow_succ_r. lia. }
  assert (Hpos2 : (0 < 2 ^ (Z.of_nat attempt - 1))%Z)
    by (apply Z.pow_pos_nonneg; lia).
  destruct (failure_of (attempt_outcome env k userContent)) as [err|].
  2:{ cbn [sum_Z]. split; [lia|].
      assert (2 ^ (Z.of_nat attempt - 1) <= 2 ^ (Z.of_nat maxRetries - 1))%Z
        by (apply Z.pow_le_mono_r; lia).
      lia. }
  destruct (IH (S attempt) (S k)) as [[Hlo Hhi]| ->]; [lia | lia | |].
  - rewrite (Hpow attempt Hpos) in Hhi.
    destruct (isConnectionError err && Nat.ltb attempt maxRetries)%bool;
      cbn [app sum_Z]; lia.
  - assert (attempt = maxRetries) as -> by lia.
    rewrite Nat.ltb_irrefl, andb_false_r. cbn [backoff app sum_Z]. lia.
Qed.

(** When the attempts before number [k] fail and attempt [k] yields [c],
    the loop returns [c] after [k + 1] calls and the pauses of the [k]
    failures. *)
Lemma classify_attempts_first_success env userContent maxRetries c :
  forall k remaining attempt w,
    (k < remaining)%nat ->
    (forall j, (j < k)%nat ->
       failure_of (attempt_outcome env (w_chats w + j) userContent) <> None) ->
    attempt_outcome env (w_chats w + k) userContent = Ok c ->
    exists w1 evs,
      classify_attempts env remaining attempt maxRetries userContent w = (Ok c, w1)
      /\ w_chats w1 = (w_chats w + S k)%nat
      /\ w_log w1 = w_log w ++ evs
      /\ chat_calls evs = replicate (S k) userContent
      /\ delays evs = backoff env userContent k attempt maxRetries (w_chats w).
Proof.
  induction k as [|k IH]; intros remaining attempt w Hlt Hfail Hok;
    (destruct remaining as [|remaining]; [lia|]);
    destruct (classify_attempt_spec env attempt maxRetries userContent w)
      as (w1 & evs1 & Heq & _ & _ & _ & Hc & _ & _ & Hl & _ & Hq & Hdl);
    cbn [classify_attempts]; unfold bind at 1; rewrite Heq.
  - rewrite Nat.add_0_r in Hok. rewrite Hok in *. cbn [failure_of] in Hdl.
    exists w1, (EvChat userContent :: evs1).
    split; [reflexivity|]. split; [lia|]. split; [exact Hl|].
    cbn [chat_calls delays backoff replicate].
    by rewrite (chat_calls_quiet evs1 Hq), Hdl.
  - pose proof (Hfail 0%nat ltac:(lia)) as H0. rewrite Nat.add_0_r in H0.
    destruct (attempt_outcome env (w_chats w) userContent) as [c0|e] eqn:Hout;
      [by destruct H0|]. cbn [failure_of] in Hdl.
    destruct (IH remaining (S attempt) w1) as (w2 & evs2 & Heq2 & Hc2 & Hl2 & Hcalls & Hdl2).
    { lia. }
    { intros j Hj. rewrite Hc.
      replace (S (w_chats w) + j)%nat with (w_chats w + S j)%nat by lia.
      apply Hfail. lia. }
    { rewrite Hc. by replace (S (w_chats w) + k)%nat with (w_chats w + S k)%nat by lia. }
    exists w2, ((EvChat userContent :: evs1) ++ evs2).
    split; [exact Heq2|]. split; [lia|].
    split; [rewrite Hl2, Hl, <- app_assoc; reflexivity|].
    rewrite chat_calls_app, delays_app. cbn [chat_calls delays backoff].
    rewrite (chat_calls_quiet evs1 Hq), Hcalls, Hdl, Hdl2, Hc, Hout. done.
Qed.

(** X5. With an accepted credential, when the first [k] attempts fail and
    attempt [k + 1], within the retry ceiling, yields a classification,
    [classifyWithOpenAI] returns exactly that classification: it has
    called the service [k + 1] times with the same message, paused only
    after the failures, and makes no further call. *)
Theorem X5_classify_first_success (env : Env) (jobTitle pageContent key : string)
    (maxRetries : nat) (w : World) (k : nat) (c : Classification) :
  let userContent := userContentOf jobTitle pageContent in
  credential_ok (Some key) = true ->
  (k < maxRetries)%nat ->
  (forall j, (j < k)%nat ->
     failure_of (attempt_outcome env (w_chats w + j) userContent) <> None) ->
  attempt_outcome env (w_chats w + k) userContent = Ok c ->
  let run := classifyWithOpenAI env jobTitle pageContent (Some key) maxRetries w in
  run.1 = Ok c
  /\ w_chats run.2 = (w_chats w + S k)%nat
  /\ chat_calls (new_events w run.2) = replicate (S k) userContent
  /\ delays (new_events w run.2)
     = backoff env userContent k 1 maxRetries (w_chats w).
Proof.
  intros userContent Hkey Hlt Hfail Hok. cbv zeta.
  unfold classifyWithOpenAI. cbn [credential_ok] in Hkey.
  apply andb_true_iff in Hkey as [Hne Hsk]. apply negb_true_iff in Hne.
  rewrite Hne, Hsk. cbn [negb].
  destruct (classify_attempts_first_success env userContent maxRetries c
              k maxRetries 1%nat w Hlt Hfail Hok)
    as (w1 & evs & Heq & Hc & Hl & Hcalls & Hdl).
  fold userContent. rewrite Heq. cbn [fst snd].
  assert (Hnew : new_events w w1 = evs).
  { unfold new_events. by rewrite Hl, drop_app_length. }
  rewrite Hnew. done.
Qed.

(** X6. Whatever the credential and whatever the service answers,
    [classifyWithOpenAI] returns a classification after at most
    [maxRetries] calls of the service, every one of them with the message
    built from the title and the page text, none at all without an
    accepted credential, and the pauses between them add up to at most
    [2^(maxRetries - 1) - 1] seconds. *)
Theorem X6_classify_is_bounded (env : Env) (jobTitle pageContent : string)
    (apiKey : option string) (maxRetries : nat) (w : World) :
  let run := classifyWithOpenAI env jobTitle pageContent apiKey maxRetries w in
  let evs := new_events w run.2 in
  exists c n,
    run.1 = Ok c
    /\ (n <= if credential_ok apiKey then maxRetries else 0)%nat
    /\ w_chats run.2 = (w_chats w + n)%nat
    /\ chat_calls evs = replicate n (userContentOf jobTitle pageContent)
    /\ (0 <= sum_Z (delays evs)
        <= 2 ^ Z.of_nat (maxRetries - 1) * 1000 - 1000)%Z.
Proof.
  cbv zeta.
  assert (Hbound : (0 <= 2 ^ Z.of_nat (maxRetries - 1) * 1000 - 1000)%Z).
  { assert (0 < 2 ^ Z.of_nat (maxRetries - 1))%Z by (apply Z.pow_pos_nonneg; lia).
    lia. }
  unfold classifyWithOpenAI, credential_ok.
  destruct apiKey as [key|]; cbn [JS.is_empty].
  2:{ exists DEFAULT_CLASSIFICATION, 0%nat. unfold new_events.
      cbn. rewrite drop_app_length, Nat.add_0_r. cbn. done. }
  destruct (JS.is_empty key) eqn:Hne; cbn [negb andb].
  { exists DEFAULT_CLASSIFICATION, 0%nat. unfold new_events.
    cbn. rewrite drop_app_length, Nat.add_0_r. cbn. done. }
  destruct (JS.startsWith key "sk-") eqn:Hsk; cbn [negb].
  2:{ exists DEFAULT_CLASSIFICATION, 0%nat. unfold new_events.
      cbn. rewrite drop_app_length, Nat.add_0_r. cbn. done. }
  destruct (classify_attempts_run env (userContentOf jobTitle pageContent)
              maxRetries maxRetries 1%nat w)
    as (c & w1 & evs & n & Heq & Hn & Hc & Hl & Hcalls & Hdl).
  rewrite Heq. cbn [fst snd].
  assert (Hnew : new_events w w1 = evs).
  { unfold new_events. by rewrite Hl, drop_app_length. }
  rewrite Hnew, Hdl. exists c, n.
  split; [done|]. split; [done|]. split; [done|]. split; [done|].
  destruct (backoff_total env (userContentOf jobTitle pageContent) maxRetries
              maxRetries 1%nat (w_chats w)) as [[Hlo Hhi]| ->]; [lia | lia | |].
  - change (Z.of_nat 1 - 1)%Z with 0%Z in Hhi. rewrite Z.pow_0_r in Hhi.
    destruct maxRetries as [|m]; [cbn [backoff sum_Z]; done|].
    replace (Z.of_nat (S m - 1)) with (Z.of_nat (S m) - 1)%Z by lia. lia.
  - cbn [backoff sum_Z]. done.
Qed.

(** ** The orchestrator, row by row *)

Lemma fetchPageContent_run env url w :
  let run := fetchPageContent env url w in
  (exists text, run.1 = Ok text)
  /\ w_disk run.2 = w_disk w /\ w_writes run.2 = w_writes w
  /\ w_chats run.2 = w_chats w /\ w_sessions run.2 = S (w_sessions w)
  /\ w_browsers run.2 = (w_browsers w + launched env (w_sessions w) url)%nat
  /\ exists evs, w_log run.2 = w_log w ++ evs.
Proof.
  cbv zeta. unfold fetchPageContent, try_catch, launched.
  destruct (renderPage_spec env url w)
    as (w1 & evs & Heq & Hd & Hn & Hc & Hs & Hb & _ & Hl & _).
  rewrite Heq.
  assert (Hb' : w_browsers w1
                = (w_browsers w
                   + match s_launch (env_session env (w_sessions w) url) with
                     | None => 1 | Some _ => 0 end)%nat).
  { rewrite Hb. destruct (s_launch _); lia. }
  destruct (session_failure _) as [e|].
  - unfold bind, console, emit, ret. cbn [fst snd w_disk w_writes w_chats
      w_sessions w_browsers w_log].
    split; [by eexists|]. do 5 (split; [assumption|]).
    eexists. rewrite Hl, <- app_assoc. reflexivity.
  - cbn [fst snd]. split; [by eexists|]. do 5 (split; [assumption|]).
    by eexists.
Qed.

Lemma classifyWithOpenAI_run env jobTitle pageContent apiKey maxRetries w :
  let run := classifyWithOpenAI env jobTitle pageContent apiKey maxRetries w in
  (exists c, run.1 = Ok c /\ validated c)
  /\ w_disk run.2 = w_disk w /\ w_writes run.2 = w_writes w
  /\ w_sessions run.2 = w_sessions w /\ w_browsers run.2 = w_browsers w
  /\ (w_chats w <= w_chats run.2 <= w_chats w + maxRetries)%nat
  /\ exists evs, w_log run.2 = w_log w ++ evs.
Proof.
  cbv zeta.
  split; [apply classifyWithOpenAI_validated|].
  unfold classifyWithOpenAI.
  destruct (JS.is_empty _).
  { cbn. do 4 (split; [reflexivity|]). split; [lia | by eexists]. }
  destruct (negb _).
  { cbn. do 4 (split; [reflexivity|]). split; [lia | by eexists]. }
  cbv zeta.
  destruct (classify_attempts_spec env (userContentOf jobTitle pageContent)
              maxRetries maxRetries 1%nat w)
    as (c & w1 & evs & Heq & Hd & Hn & Hs & Hb & _ & Hl & _).
  destruct (classify_attempts_run env (userContentOf jobTitle pageContent)
              maxRetries maxRetries 1%nat w)
    as (c' & w1' & evs' & n & Heq' & Hle & Hc & _).
  rewrite Heq in Heq'. injection Heq' as <- <-.
  rewrite Heq. cbn [snd]. do 4 (split; [assumption|]).
  split; [lia | by eexists].
Qed.

(** The [if (link)] block of a row: the classification is within the
    vocabularies, the link handed on is the refined one, one session is
    started for a row with a link and none for the others. *)
Lemma analyzeLink_run env (r : gmap string cell) w :
  let run := analyzeLink env (linkOf r) (titleOf r) w in
  (exists c, run.1 = Ok (c, if linked r then refineLink env (linkOf r) else "")
             /\ validated c
             /\ (linked r = false -> c = DEFAULT_CLASSIFICATION))
  /\ w_disk run.2 = w_disk w /\ w_writes run.2 = w_writes w
  /\ w_sessions run.2 = (w_sessions w + if linked r then 1 else 0)%nat
  /\ (w_chats w <= w_chats run.2
      <= w_chats w + if linked r then 3 else 0)%nat
  /\ w_browsers run.2
     = (w_browsers w
        + if linked r
          then launched env (w_sessions w) (refineLink env (linkOf r))
          else 0)%nat
  /\ exists evs, w_log run.2 = w_log w ++ evs.
Proof.
  cbv zeta. unfold analyzeLink, linked.
  destruct (JS.is_empty (linkOf r)); cbn [negb].
  { cbn. split; [exists DEFAULT_CLASSIFICATION; split; [done|];
                 split; [apply default_validated | done]|].
    rewrite !Nat.add_0_r. do 3 (split; [reflexivity|]). split; [lia|].
    split; [reflexivity|]. exists []. by rewrite app_nil_r. }
  destruct (fetchPageContent_run env (refineLink env (linkOf r)) w)
    as ((text & Htext) & Hd & Hn & Hc & Hs & Hb & evs0 & Hl).
  destruct (fetchPageContent env (refineLink env (linkOf r)) w) as [res w0] eqn:Hf.
  cbn [fst snd] in *. subst res.
  destruct (classifyWithOpenAI_run env (titleOf r) text
              (Some (match env_apiKey env with Some k => k | None => "" end)) 3 w0)
    as ((c & Hres & Hv) & Hd1 & Hn1 & Hs1 & Hb1 & Hc1 & evs1 & Hl1).
  destruct (classifyWithOpenAI env (titleOf r) text _ 3 w0) as [res w1] eqn:Hcl.
  cbn [fst snd] in *. subst res.
  match goal with |- context [bind ?m ?k w] =>
    assert (Heq : bind m k w = (Ok (c, refineLink env (linkOf r)), w1))
      by (unfold bind; rewrite Hf, Hcl; reflexivity);
    rewrite !Heq
  end.
  cbn [fst snd].
  split; [exists c; split; [done|]; split; [done | discriminate]|].
  split; [congruence|]. split; [congruence|]. split; [lia|]. split; [lia|].
  split; [lia|]. exists (evs0 ++ evs1). by rewrite Hl1, Hl, app_assoc.
Qed.

Lemma storedLink_spec env (r : gmap string cell) :
  (if JS.is_empty (if linked r then refineLink env (linkOf r) else "")
   then linkOf r
   else if linked r then refineLink env (linkOf r) else "")
  = storedLink env r.
Proof.
  unfold storedLink, linked.
  destruct (linkOf r) as [|ch link]; reflexivity.
Qed.

(** One iteration of the loop over the rows, with what it costs: a
    session and at most three calls of the service for a row with a link,
    nothing for the others, and a browser left open by every launch. *)
Lemma processRow_run env rows results i (r : gmap string cell) w :
  exists res w1,
    processRow env rows results i r w = (res, w1)
    /\ w_sessions w1 = (w_sessions w + if linked r then 1 else 0)%nat
    /\ (w_chats w <= w_chats w1 <= w_chats w + if linked r then 3 else 0)%nat
    /\ w_browsers w1
       = (w_browsers w
          + if linked r
            then launched env (w_sessions w) (refineLink env (linkOf r))
            else 0)%nat
    /\ match res with
       | Throw _ => w_disk w1 = w_disk w
       | Ok results' =>
           exists c merged,
             validated c
             /\ (linked r = false -> c = DEFAULT_CLASSIFICATION)
             /\ mergeRow r (env_today env) (storedLink env r) c = Ok merged
             /\ results' = results ++ [merged]
             /\ w_disk w1 = Some (fullRows env rows (results ++ [merged]) i)
       end.
Proof.
  unfold processRow. cbv zeta.
  destruct (analyzeLink_run env r w)
    as ((c & Hres & Hv & Hdef) & Hd & _ & Hs & Hc & Hb & _).
  destruct (analyzeLink env (linkOf r) (titleOf r) w) as [res0 w0] eqn:Ha.
  cbn [fst snd] in *. subst res0.
  unfold bind at 1. rewrite Ha. cbv beta iota. rewrite storedLink_spec.
  unfold bind at 1, lift.
  destruct (mergeRow r (env_today env) (storedLink env r) c) as [merged|e] eqn:Hmerge.
  2:{ exists (Throw e), w0. done. }
  unfold bind at 1, writeWorkbookWithRetry.
  set (t := fullRows env rows (results ++ [merged]) i).
  pose proof (no_remote_write_attempts env t WRITE_RETRIES 1 None w0) as Hnr.
  destruct (write_attempts_outcome env t WRITE_RETRIES 1 None w0)
    as (w1 & evs1 & _ & [(Hw & _ & Hd1)|(e & Hw & _ & Hd1)]);
    rewrite Hw in Hnr |- *; cbn [snd] in Hnr;
    destruct Hnr as (Hs1 & Hc1 & Hb1 & _).
  2:{ exists (Throw e), w1. split; [done|]. split; [lia|]. split; [lia|].
      split; [lia | congruence]. }
  destruct (Nat.ltb i (length rows - 1)).
  - eexists (Ok _), _. split; [reflexivity|].
    cbn [w_sessions w_chats w_browsers w_disk].
    split; [lia|]. split; [lia|]. split; [lia|]. by exists c, merged.
  - exists (Ok (results ++ [merged])), w1. split; [reflexivity|].
    split; [lia|]. split; [lia|]. split; [lia|]. by exists c, merged.
Qed.

Lemma launched_le env k url : (launched env k url <= 1)%nat.
Proof. unfold launched. destruct (s_launch _); lia. Qed.

(** The loop over the rows from row [i] on. *)
Lemma rows_loop_run env rows : forall remaining i results w,
  length results = i ->
  exists res w1 more,
    rows_loop env remaining i rows results w = (res, w1)
    /\ (w_sessions w <= w_sessions w1
        <= w_sessions w + linked_rows (take remaining (drop i rows)))%nat
    /\ (w_chats w <= w_chats w1
        <= w_chats w + 3 * (w_sessions w1 - w_sessions w))%nat
    /\ (w_browsers w <= w_browsers w1
        <= w_browsers w + (w_sessions w1 - w_sessions w))%nat
    /\ ((forall k url, s_launch (env_session env k url) = None) ->
        w_browsers w1 = (w_browsers w + (w_sessions w1 - w_sessions w))%nat)
    /\ (forall final, res = Ok final ->
        final = results ++ more
        /\ length more = Nat.min remaining (length rows - i)
        /\ w_sessions w1
           = (w_sessions w + linked_rows (take remaining (drop i rows)))%nat
        /\ (forall k merged, more !! k = Some merged ->
            exists r c,
              rows !! (i + k)%nat = Some r /\ validated c
              /\ (linked r = false -> c = DEFAULT_CLASSIFICATION)
              /\ mergeRow r (env_today env) (storedLink env r) c = Ok merged)
        /\ w_disk w1
           = match more with
             | [] => w_disk w
             | _ :: _ => Some (fullRows env rows final (i + length more - 1))
             end).
Proof.
  induction remaining as [|remaining IH]; intros i results w Hlen.
  - exists (Ok results), w, []. cbn [rows_loop]. rewrite take_0. cbn [linked_rows].
    split; [reflexivity|]. split; [lia|]. split; [lia|]. split; [lia|].
    split; [lia|]. intros final [= <-]. rewrite app_nil_r.
    split; [done|]. split; [done|]. split; [lia|]. done.
  - cbn [rows_loop]. destruct (rows !! i) as [r|] eqn:Hr.
    2:{ exists (Ok results), w, []. apply lookup_ge_None in Hr.
        rewrite drop_ge by lia. rewrite take_nil. cbn [linked_rows].
        split; [reflexivity|]. split; [lia|]. split; [lia|]. split; [lia|].
        split; [lia|]. intros final [= <-]. rewrite app_nil_r.
        split; [done|]. split; [cbn [length]; lia|]. split; [lia|]. done. }
    rewrite (drop_S rows r i Hr), firstn_cons. cbn [linked_rows].
    unfold bind at 1.
    destruct (processRow_run env rows results i r w)
      as (res & w1 & Heq & Hs & Hc & Hb & Hres).
    rewrite Heq.
    pose proof (launched_le env (w_sessions w) (refineLink env (linkOf r))) as Hle.
    destruct res as [results'|e].
    2:{ exists (Throw e), w1, []. split; [reflexivity|].
        destruct (linked r).
        - split; [lia|]. split; [lia|]. split; [lia|].
          split; [|discriminate]. intros Hlaunch. rewrite Hb. unfold launched.
          rewrite Hlaunch. lia.
        - split; [lia|]. split; [lia|]. split; [lia|].
          split; [lia | discriminate]. }
    destruct Hres as (c & merged & Hv & Hdef & Hmerge & -> & Hd).
    destruct (IH (S i) (results ++ [merged]) w1)
      as (res & w2 & more & Heq2 & Hs2 & Hc2 & Hb2 & Hbl2 & Hfinal).
    { rewrite length_app. cbn [length]. lia. }
    exists res, w2, (merged :: more).
    split; [exact Heq2|].
    assert (Hb1 : w_browsers w1
                  = (w_browsers w + (w_sessions w1 - w_sessions w))%nat
                  \/ (linked r = true
                      /\ s_launch (env_session env (w_sessions w)
                                     (refineLink env (linkOf r))) <> None
                      /\ w_browsers w1 = w_browsers w)).
    { rewrite Hb, Hs. unfold launched. destruct (linked r); [|left; lia].
      destruct (s_launch _) eqn:Hlaunch; [right; split; [done|]; split; [done | lia]
                                         | left; lia]. }
    split; [destruct (linked r); lia|].
    split; [destruct (linked r); lia|].
    split; [destruct Hb1 as [Hb1|(Hlk & _ & Hb1)];
            [lia | rewrite Hlk in Hs; lia]|].
    split.
    { intros Hlaunch. rewrite (Hbl2 Hlaunch).
      destruct Hb1 as [Hb1|(_ & Hno & _)]; [lia|]. by destruct Hno. }
    intros final Hok.
    destruct (Hfinal final Hok) as (-> & Hmin & Hs3 & Hmore & Hd2).
    split; [by rewrite <- app_assoc|].
    split; [cbn [length]; rewrite Hmin; apply lookup_lt_Some in Hr; lia|].
    split; [lia|].
    split.
    { intros [|k] m Hk; cbn in Hk.
      - injection Hk as <-. exists r, c. by rewrite Nat.add_0_r.
      - destruct (Hmore k m Hk) as (r' & c' & Hr' & Hrest).
        exists r', c'. split; [|exact Hrest].
        by replace (i + S k)%nat with (S i + k)%nat by lia. }
    rewrite Hd2. destruct more as [|m more].
    + rewrite Hd, app_nil_r. cbn [length].
      by replace (i + 1 - 1)%nat with i by lia.
    + cbn [length]. do 3 f_equal. lia.
Qed.

(** The derived columns of a merged row. *)
Lemma mergeRow_columns (r : gmap string cell) today link c merged :
  mergeRow r today link c = Ok merged ->
  merged !! "Date" = Some (CStr today)
  /\ merged !! "Status" = Some (CStr "Not Applied")
  /\ merged !! "Link" = Some (CStr link)
  /\ merged !! "Remote" = Some (CStr (remote c))
  /\ merged !! "BestStack" = Some (CStr (bestStack c))
  /\ merged !! "SecretRequired"
     = Some (CStr (if hasSpecialPhrase c then "Yes" else "No"))
  /\ merged !! "Industry" = Some (CStr (industry c))
  /\ merged !! "AnnualSalary" = Some (CStr (annualSalary c))
  /\ merged !! "Level" = Some (CStr (level c)).
Proof.
  unfold mergeRow, rbind.
  destruct (array_join ", " _) as [stacks|]; [|discriminate].
  destruct (array_join "; " _) as [phrases|]; [|discriminate].
  intros [= <-]. repeat split; by simplify_map_eq.
Qed.

(** X7. When [JobLinks.xlsx] does not exist, or the first row of its
    sheet has no [Link] column (whatever the other rows have),
    [analyzeJobLinks] raises at once: nothing is fetched, classified,
    written or logged. The message names the path looked at, or lists the
    columns of the first row as [Object.keys] does: in the order of the
    sheet, when the environment gives the columns of that row. *)
Theorem X7_analyze_fails_fast (env : Env) (w : World) :
  (w_disk w = None
   \/ exists (r0 : gmap string cell) rest,
        w_disk w = Some (r0 :: rest) /\ r0 !! "Link" = None) ->
  exists e,
    analyzeJobLinks env w = (Throw e, w)
    /\ err_code e = None
    /\ match w_disk w with
       | None =>
           err_message e
           = Some ("JobLinks.xlsx not found at " +:+ env_inputPath env)
       | Some rows =>
           err_message e
           = Some ("JobLinks.xlsx must have a " +:+ JS.dq +:+ "Link" +:+ JS.dq
                   +:+ " column. Found: "
                   +:+ JS.join ", " (headersOf (env_columns env) rows))
           /\ (sheet_order env rows ->
               headersOf (env_columns env) rows = env_columns env)
       end.
Proof.
  unfold analyzeJobLinks.
  intros [Hnone|(r0 & rest & Hrows & Hlink)].
  - rewrite Hnone. eexists. split; [reflexivity|]. done.
  - rewrite Hrows. cbn [length Nat.eqb orb]. unfold linkKey. rewrite Hlink.
    rewrite bool_decide_eq_false_2 by (intros [? ?]; discriminate).
    cbn [negb]. eexists. split; [reflexivity|]. split; [done|].
    split; [done|]. intros [Hnd Hcols]. apply keys_listed; [exact Hnd|].
    intros k. by rewrite <- elem_of_dom, <- Hcols, elem_of_list_to_set.
Qed.

(** X8. When a run over the table [rows] completes, the file holds one
    merged row per input row, in order and nothing else: each has the
    date of the day, the status [Not Applied] whatever the input said,
    the refined link of its row in [Link], values of the closed
    vocabularies in [Remote], [Industry], [AnnualSalary] and [Level], a
    non-empty [BestStack], [Yes] or [No] in [SecretRequired], and the
    cells of the input row in every other column. *)
Theorem X8_completed_run (env : Env) (w : World) (rows : list (gmap string cell))
    (out : Output) :
  w_disk w = Some rows ->
  (analyzeJobLinks env w).1 = Ok out ->
  exists final : list (gmap string cell),
    w_disk (analyzeJobLinks env w).2 = Some final
    /\ length final = length rows
    /\ forall i r, rows !! i = Some r ->
       exists merged,
         final !! i = Some merged
         /\ merged !! "Date" = Some (CStr (env_today env))
         /\ merged !! "Status" = Some (CStr "Not Applied")
         /\ merged !! "Link" = Some (CStr (storedLink env r))
         /\ (exists v, merged !! "Remote" = Some (CStr v) /\ v ∈ REMOTE_VALUES)
         /\ (exists v, merged !! "Industry" = Some (CStr v) /\ v ∈ INDUSTRY_VALUES)
         /\ (exists v, merged !! "AnnualSalary" = Some (CStr v)
                       /\ v ∈ SALARY_BUCKETS)
         /\ (exists v, merged !! "Level" = Some (CStr v) /\ v ∈ LEVEL_VOCABULARY)
         /\ (exists v, merged !! "BestStack" = Some (CStr v) /\ v <> "")
         /\ (merged !! "SecretRequired" = Some (CStr "Yes")
             \/ merged !! "SecretRequired" = Some (CStr "No"))
         /\ forall k, k ∉ DERIVED_COLUMNS -> merged !! k = r !! k.
Proof.
  intros Hdisk. unfold analyzeJobLinks. rewrite Hdisk.
  destruct (negb _); [discriminate|].
  unfold bind.
  destruct (rows_loop_run env rows (length rows) 0%nat [] w eq_refl)
    as (res & w1 & more & Heq & _ & _ & _ & _ & Hfinal).
  rewrite Heq. destruct res as [final|e]; [|discriminate].
  cbn [ret fst snd]. intros _.
  destruct (Hfinal final eq_refl) as (-> & Hlen & _ & Hmore & Hd).
  cbn [app] in *. rewrite Nat.sub_0_r, Nat.min_id in Hlen.
  exists more. split.
  { rewrite Hd. destruct more as [|m more'] eqn:Hm.
    - rewrite Hdisk. f_equal. cbn [length] in Hlen. symmetry in Hlen.
      by apply nil_length_inv in Hlen.
    - rewrite <- Hm in *. unfold fullRows.
      change (skipn ?n ?l) with (drop n l).
      rewrite drop_ge by (cbn [Nat.add]; lia).
      cbn [map]. by rewrite app_nil_r. }
  split; [exact Hlen|].
  intros i r Hr.
  destruct (lookup_lt_is_Some_2 more i) as [merged Hi].
  { apply lookup_lt_Some in Hr. lia. }
  destruct (Hmore i merged Hi) as (r' & c & Hr' & Hv & _ & Hmerge).
  cbn [Nat.add] in Hr'. rewrite Hr in Hr'. injection Hr' as <-.
  destruct (mergeRow_columns _ _ _ _ _ Hmerge)
    as (HDate & HStatus & HLink & HRemote & HStack & HSecret & HInd & HSal & HLevel).
  destruct Hv as (Hv1 & Hv2 & Hv3 & Hv4 & Hv5).
  exists merged. split; [exact Hi|].
  do 3 (split; [assumption|]).
  split; [by eexists|]. split; [by eexists|]. split; [by eexists|].
  split; [by eexists|]. split; [by eexists|].
  split; [rewrite HSecret; destruct (hasSpecialPhrase c); [by left | by right]|].
  intros k Hk. by eapply mergeRow_lookup.
Qed.

(** X9. What a run over the table [rows] costs. It starts at most one
    rendering session per row that has a link, exactly one when it
    completes, and none for the other rows; it calls the classification
    service at most three times per session started; and every browser it
    launches is still open when it ends: as many as sessions when every
    launch succeeds. *)
Theorem X9_run_cost (env : Env) (w : World) (rows : list (gmap string cell)) :
  w_disk w = Some rows ->
  let run := analyzeJobLinks env w in
  let sessions := (w_sessions run.2 - w_sessions w)%nat in
  (w_sessions w <= w_sessions run.2 <= w_sessions w + linked_rows rows)%nat
  /\ (w_chats w <= w_chats run.2 <= w_chats w + 3 * sessions)%nat
  /\ (w_browsers w <= w_browsers run.2 <= w_browsers w + sessions)%nat
  /\ ((forall k url, s_launch (env_session env k url) = None) ->
      w_browsers run.2 = (w_browsers w + sessions)%nat)
  /\ (forall out, run.1 = Ok out -> sessions = linked_rows rows).
Proof.
  intros Hdisk. cbv zeta. unfold analyzeJobLinks. rewrite Hdisk.
  destruct (negb _).
  { cbn [fst snd]. split; [lia|]. split; [lia|]. split; [lia|].
    split; [lia | discriminate]. }
  unfold bind.
  destruct (rows_loop_run env rows (length rows) 0%nat [] w eq_refl)
    as (res & w1 & more & Heq & Hs & Hc & Hb & Hbl & Hfinal).
  rewrite Heq. rewrite drop_0, firstn_all in Hs.
  assert (Hsnd : (match res with
                  | Ok a => ret {| filePath := env_inputPath env;
                                   fileName := "JobLinks.xlsx" |} w1
                  | Throw e => (Throw e, w1) end).2 = w1) by (by destruct res).
  rewrite Hsnd.
  split; [exact Hs|]. split; [exact Hc|]. split; [exact Hb|].
  split; [exact Hbl|].
  intros out Hout. destruct res as [final|e]; [|discriminate].
  destruct (Hfinal final eq_refl) as (_ & _ & Hs' & _).
  rewrite drop_0, firstn_all in Hs'. lia.
Qed.

(** ** The text sent to the classifier and the reply read back *)

Lemma substring0_append p : forall n x,
  (n <= String.length p)%nat -> substring 0 n (p +:+ x) = substring 0 n p.
Proof.
  induction p as [|c p IH]; intros n x Hn.
  - cbn [String.length] in Hn. assert (n = 0%nat) as -> by lia.
    by rewrite !substring0_none.
  - destruct n as [|n]; [reflexivity|].
    change (String c p +:+ x) with (String c (p +:+ x)).
    cbn [substring String.length] in *. rewrite IH by lia. reflexivity.
Qed.

(** X10. Only the first 12000 characters of the page text reach the
    classifier: whatever follows them changes neither the calls made nor
    the classification returned. *)
Theorem X10_text_is_truncated (env : Env) (jobTitle pageContent extra : string)
    (apiKey : option string) (maxRetries : nat) (w : World) :
  (MAX_CONTENT_CHARS <= String.length pageContent)%nat ->
  classifyWithOpenAI env jobTitle (pageContent +:+ extra) apiKey maxRetries w
  = classifyWithOpenAI env jobTitle pageContent apiKey maxRetries w.
Proof.
  intros Hlong. unfold classifyWithOpenAI, userContentOf, JS.substring0.
  by rewrite substring0_append.
Qed.

Lemma trimStart_blank a x : blank a = true -> JS.trimStart (a +:+ x) = JS.trimStart x.
Proof.
  induction a as [|c a IH]; [done|]. cbn [blank]. intros [Hc Ha]%andb_true_iff.
  change (String c a +:+ x) with (String c (a +:+ x)).
  cbn [JS.trimStart]. rewrite Hc. by apply IH.
Qed.

Lemma trimEnd_blank_nil b : blank b = true -> JS.trimEnd b = "".
Proof.
  induction b as [|c b IH]; [done|]. cbn [blank]. intros [Hc Hb]%andb_true_iff.
  cbn [JS.trimEnd]. by rewrite (IH Hb), Hc.
Qed.

Lemma trimStart_blank_nil a : blank a = true -> JS.trimStart a = "".
Proof.
  induction a as [|c a IH]; [done|]. cbn [blank]. intros [Hc Ha]%andb_true_iff.
  cbn [JS.trimStart]. rewrite Hc. by apply IH.
Qed.

Lemma trim_blank s : blank s = true -> JS.trim s = "".
Proof. intros Hs. unfold JS.trim. by rewrite trimStart_blank_nil. Qed.

(** The cells under which a row has no link to analyse: no [Link] cell,
    or a falsy one (the empty text, zero, [false]), or a text of white
    space only. *)
Lemma linkOf_empty (r : gmap string cell) :
  linkOf r = ""
  <-> r !! "Link" = None
      \/ exists c, r !! "Link" = Some c
           /\ (cell_truthy c = false \/ JS.trim (cell_String c) = "").
Proof.
  unfold linkOf, linkKey. destruct (r !! "Link") as [c|]; [|by split; [left|]].
  destruct (cell_truthy c) eqn:Htruthy.
  - split.
    + intros Htrim. right. exists c. split; [done | by right].
    + intros [?|(c' & [= <-] & [?|Htrim])]; [done | congruence | done].
  - split; [|done]. intros _. right. exists c. split; [done | by left].
Qed.

Lemma linkOf_blank (r : gmap string cell) s :
  r !! "Link" = Some (CStr s) -> blank s = true -> linkOf r = "".
Proof.
  intros Hr Hs. apply linkOf_empty. right. exists (CStr s).
  split; [exact Hr|]. right. by apply trim_blank.
Qed.

Lemma trimEnd_blank x b : blank b = true -> JS.trimEnd (x +:+ b) = JS.trimEnd x.
Proof.
  intros Hb. induction x as [|c x IH]; [by apply trimEnd_blank_nil|].
  change (String c x +:+ b) with (String c (x +:+ b)).
  cbn [JS.trimEnd]. by rewrite IH.
Qed.

Lemma trimEnd_last x c :
  JS.is_space c = false ->
  JS.trimEnd (x +:+ String c "") = x +:+ String c "".
Proof.
  intros Hc. induction x as [|d x IH].
  - change ("" +:+ String c "") with (String c ""). cbn [JS.trimEnd]. by rewrite Hc.
  - change (String d x +:+ String c "") with (String d (x +:+ String c "")).
    cbn [JS.trimEnd]. rewrite IH.
    assert (JS.is_empty (x +:+ String c "") = false) as -> by (by destruct x).
    by rewrite andb_false_r.
Qed.

Lemma trimStart_length s : (String.length (JS.trimStart s) <= String.length s)%nat.
Proof.
  induction s as [|c s IH]; [done|]. cbn [JS.trimStart].
  destruct (JS.is_space c); cbn [String.length]; lia.
Qed.

Lemma trimEnd_length s : (String.length (JS.trimEnd s) <= String.length s)%nat.
Proof.
  induction s as [|c s IH]; [done|]. cbn [JS.trimEnd].
  destruct (_ && _)%bool; cbn [String.length]; lia.
Qed.

(** A string that trimming leaves alone starts and ends with something
    else than white space. *)
Lemma trim_fixed s :
  JS.trim s = s -> JS.trimStart s = s /\ JS.trimEnd s = s.
Proof.
  unfold JS.trim. destruct s as [|c r]; [done|]. cbn [JS.trimStart].
  destruct (JS.is_space c); [|done].
  intros H. exfalso.
  pose proof (trimEnd_length (JS.trimStart r)) as H1.
  pose proof (trimStart_length r) as H2.
  rewrite H in H1. cbn [String.length] in H1. lia.
Qed.

Lemma trimStart_fixed_append s x :
  s <> "" -> JS.trimStart s = s -> JS.trimStart (s +:+ x) = s +:+ x.
Proof.
  destruct s as [|c r]; [done|]. intros _. cbn [JS.trimStart].
  change (String c r +:+ x) with (String c (r +:+ x)). cbn [JS.trimStart].
  destruct (JS.is_space c); [|done].
  intros H. exfalso. pose proof (trimStart_length r) as H2.
  rewrite H in H2. cbn [String.length] in H2. lia.
Qed.

(** Trimming removes the white space around a string it leaves alone. *)
Lemma trim_pad a x b :
  blank a = true -> blank b = true -> JS.trim x = x ->
  JS.trim (a +:+ x +:+ b) = x.
Proof.
  intros Ha Hb Hx. destruct (trim_fixed x Hx) as [Hs He].
  unfold JS.trim. rewrite (trimStart_blank a _ Ha).
  destruct x as [|c r].
  - change ("" +:+ b) with b. rewrite <- (append_empty_r b) at 1.
    rewrite (trimStart_blank b "" Hb). reflexivity.
  - rewrite trimStart_fixed_append by done. by rewrite trimEnd_blank.
Qed.

Lemma length_append_nat a b :
  String.length (a +:+ b) = (String.length a + String.length b)%nat.
Proof.
  induction a as [|c a IH]; [reflexivity|].
  change (String c a +:+ b) with (String c (a +:+ b)).
  cbn [String.length]. by rewrite IH.
Qed.

Lemma endsWith_append x p : JS.endsWith (x +:+ p) p = true.
Proof.
  unfold JS.endsWith. rewrite length_append_nat.
  replace (String.length x + String.length p - String.length p)%nat
    with (String.length x) by lia.
  rewrite drop_append, String.eqb_refl.
  rewrite andb_true_r. apply Nat.leb_le. lia.
Qed.

Lemma substring0_append_exact x p :
  substring 0 (String.length x) (x +:+ p) = x.
Proof. rewrite substring0_append by lia. apply substring0_all. Qed.

Lemma toLowerCase_length s : String.length (JS.toLowerCase s) = String.length s.
Proof. induction s as [|c s IH]; [done|]. cbn. by rewrite IH. Qed.

Lemma space_is_not_j c : JS.is_space c = true -> Ascii.eqb (JS.lower c) "j" = false.
Proof.
  destruct c as [[] [] [] [] [] [] [] []]; vm_compute; congruence.
Qed.

Lemma trim_fence y : JS.trim (JS.backticks +:+ y +:+ JS.backticks) = JS.backticks +:+ y +:+ JS.backticks.
Proof.
  unfold JS.trim, JS.backticks.
  change ("```" +:+ y +:+ "```") with (String "`" ("``" +:+ y +:+ "```")).
  cbn [JS.trimStart]. change (JS.is_space "`") with false. cbv iota.
  change (String "`" ("``" +:+ y +:+ "```")) with ("```" +:+ y +:+ "```").
  change "```" with ("``" +:+ String "`" "") at 2 4.
  rewrite <- !append_assoc. by apply trimEnd_last.
Qed.

Lemma fenced_assoc tag lead body trail :
  fenced tag lead body trail
  = JS.backticks +:+ (tag +:+ lead +:+ body +:+ trail) +:+ JS.backticks.
Proof. unfold fenced. by rewrite !append_assoc. Qed.

(** What the opening fence leaves: the text after the tag and the white
    space that follows it. *)
Lemma stripFenceOpen_fence tag lead rest :
  (JS.toLowerCase tag = "json" \/ (tag = "" /\ lead <> "")) ->
  blank lead = true ->
  JS.stripFenceOpen (JS.backticks +:+ tag +:+ lead +:+ rest) = JS.trimStart rest.
Proof.
  intros Htag Hlead. unfold JS.stripFenceOpen, JS.startsWith.
  rewrite prefix_append.
  change (JS.drop 3) with (JS.drop (String.length JS.backticks)).
  rewrite drop_append.
  destruct Htag as [Htag|[-> Hne]].
  - assert (Hlen : String.length tag = 4%nat).
    { by rewrite <- toLowerCase_length, Htag. }
    unfold JS.substring0. rewrite <- Hlen, substring0_append_exact, Htag.
    cbn [String.eqb Ascii.eqb Bool.eqb]. cbv iota.
    rewrite drop_append. by apply trimStart_blank.
  - change ("" +:+ lead +:+ rest) with (lead +:+ rest).
    destruct lead as [|c lead]; [done|].
    cbn [blank] in Hlead. apply andb_true_iff in Hlead as [Hc Hlead].
    change (String c lead +:+ rest) with (String c (lead +:+ rest)).
    assert (String.eqb (JS.toLowerCase (JS.substring0 4 (String c (lead +:+ rest))))
              "json" = false) as ->.
    { unfold JS.substring0. cbn [substring JS.toLowerCase String.eqb].
      by rewrite (space_is_not_j c Hc). }
    cbn [JS.trimStart]. rewrite Hc. by apply trimStart_blank.
Qed.

(** What the closing fence leaves: the text before it, without the white
    space that precedes it. *)
Lemma stripFenceClose_fence x :
  JS.stripFenceClose (x +:+ JS.backticks) = JS.trimEnd x.
Proof.
  unfold JS.stripFenceClose. rewrite endsWith_append, length_append_nat.
  change (String.length JS.backticks) with 3%nat.
  replace (String.length x + 3 - 3)%nat with (String.length x) by lia.
  unfold JS.substring0. by rewrite substring0_append_exact.
Qed.

(** X11. A reply wrapped in a code fence is read as the reply itself:
    for a body that trimming leaves alone and that neither starts nor
    ends with a fence, the fence (tagged [json] in any letter case, or
    bare and followed by white space), the white space inside it and
    the white space around it are all dropped before the text is
    parsed. *)
Theorem X11_fence_is_transparent (env : Env)
    (before tag lead body trail after : string) :
  blank before = true -> blank lead = true ->
  blank trail = true -> blank after = true ->
  (JS.toLowerCase tag = "json" \/ (tag = "" /\ lead <> "")) ->
  JS.trim body = body ->
  JS.startsWith body JS.backticks = false ->
  JS.endsWith body JS.backticks = false ->
  decodeReply env (before +:+ fenced tag lead body trail +:+ after)
  = decodeReply env body.
Proof.
  intros Hbefore Hlead Htrail Hafter Htag Hbody Hopen Hclose.
  destruct (trim_fixed body Hbody) as [Hstart Hend].
  unfold decodeReply. cbv zeta.
  rewrite (trim_pad before _ after Hbefore Hafter)
    by (rewrite fenced_assoc; apply trim_fence).
  unfold fenced.
  rewrite (stripFenceOpen_fence tag lead _ Htag Hlead).
  rewrite Hbody.
  assert (JS.stripFenceOpen body = body) as ->
    by (unfold JS.stripFenceOpen; by rewrite Hopen).
  assert (JS.stripFenceClose body = body) as ->
    by (unfold JS.stripFenceClose; by rewrite Hclose).
  rewrite Hbody.
  destruct body as [|c r].
  - change ("" +:+ trail +:+ JS.backticks) with (trail +:+ JS.backticks).
    rewrite (trimStart_blank trail _ Htrail).
    change (JS.trimStart JS.backticks) with ("" +:+ JS.backticks).
    rewrite stripFenceClose_fence. reflexivity.
  - rewrite trimStart_fixed_append by done.
    rewrite <- append_assoc, stripFenceClose_fence.
    rewrite (trimEnd_blank _ trail Htrail), Hend, Hbody. reflexivity.
Qed.

Lemma validate_without_fields parsed :
  without_fields parsed -> validate parsed = Ok DEFAULT_CLASSIFICATION.
Proof.
  destruct parsed as [| | | | |m]; try reflexivity; [done|].
  intros Hnone. unfold validate, getProp, rbind.
  rewrite !Hnone by (unfold CLASSIFICATION_KEYS; set_solver).
  reflexivity.
Qed.

Lemma attempt_outcome_replied env k userContent parsed :
  replied env k userContent parsed ->
  attempt_outcome env k userContent = validate parsed.
Proof.
  intros (content & Hchat & Hparse). unfold attempt_outcome, decodeReply.
  rewrite Hchat. cbv zeta. fold (jsonStrOf content). by rewrite Hparse.
Qed.

(** Failures that are no connection errors are followed by no pause. *)
Lemma backoff_quiet env userContent maxRetries :
  forall remaining attempt k,
    (forall j, (j < remaining)%nat ->
       exists e, attempt_outcome env (k + j) userContent = Throw e
                 /\ isConnectionError e = false) ->
    backoff env userContent remaining attempt maxRetries k = [].
Proof.
  induction remaining as [|remaining IH]; intros attempt k Hfail; [done|].
  cbn [backoff]. destruct (Hfail 0%nat ltac:(lia)) as (e & He & Hconn).
  rewrite Nat.add_0_r in He. rewrite He. cbn [failure_of]. rewrite Hconn.
  cbn [andb app]. apply IH. intros j Hj.
  replace (S k + j)%nat with (k + S j)%nat by lia. apply Hfail. lia.
Qed.

(** X12. Replies that parse but are not what was asked for, under an
    accepted credential. A first reply that is a number, a string, a
    boolean, an array, or an object with none of the eight properties
    the validation reads is accepted as it stands: [classifyWithOpenAI]
    returns the default classification after that one call, without a
    retry and without a pause. The reply [null] makes the validation
    raise, an error that is no connection error: when every reply is
    [null] the attempts follow each other without any pause and the
    default classification is returned after [maxRetries] calls. *)
Theorem X12_reply_without_fields (env : Env) (jobTitle pageContent key : string)
    (maxRetries : nat) (w : World) :
  let userContent := userContentOf jobTitle pageContent in
  let run := classifyWithOpenAI env jobTitle pageContent (Some key) maxRetries w in
  let evs := new_events w run.2 in
  credential_ok (Some key) = true ->
  ((1 <= maxRetries)%nat ->
   (exists parsed, replied env (w_chats w) userContent parsed
                   /\ without_fields parsed) ->
   run.1 = Ok DEFAULT_CLASSIFICATION
   /\ w_chats run.2 = S (w_chats w)
   /\ chat_calls evs = [userContent]
   /\ delays evs = [])
  /\ ((forall j, (j < maxRetries)%nat ->
        replied env (w_chats w + j) userContent JNull) ->
     run.1 = Ok DEFAULT_CLASSIFICATION
     /\ w_chats run.2 = (w_chats w + maxRetries)%nat
     /\ chat_calls evs = replicate maxRetries userContent
     /\ delays evs = []).
Proof.
  intros userContent run evs Hkey. subst evs run.
  assert (Hrun : classifyWithOpenAI env jobTitle pageContent (Some key) maxRetries w
                 = classify_attempts env maxRetries 1 maxRetries userContent w).
  { unfold classifyWithOpenAI. cbn [credential_ok] in Hkey.
    apply andb_true_iff in Hkey as [Hne Hsk]. apply negb_true_iff in Hne.
    by rewrite Hne, Hsk. }
  rewrite Hrun. split.
  - intros Hpos (parsed & Hreply & Hnone).
    destruct (classify_attempts_first_success env userContent maxRetries
                DEFAULT_CLASSIFICATION 0 maxRetries 1%nat w)
      as (w1 & evs & Heq & Hc & Hl & Hcalls & Hdl).
    + lia.
    + intros j Hj. lia.
    + rewrite Nat.add_0_r, (attempt_outcome_replied _ _ _ _ Hreply).
      by apply validate_without_fields.
    + rewrite Heq. cbn [fst snd]. rewrite (new_events_app w w1 evs Hl).
      split; [done|]. split; [lia|]. split; [exact Hcalls | exact Hdl].
  - intros Hnull.
    assert (Hfail : forall j, (j < maxRetries)%nat ->
              exists e, attempt_outcome env (w_chats w + j) userContent = Throw e
                        /\ isConnectionError e = false).
    { intros j Hj. rewrite (attempt_outcome_replied _ _ _ _ (Hnull j Hj)).
      eexists. split; [reflexivity|]. vm_compute. reflexivity. }
    destruct (classify_attempts_spec env userContent maxRetries maxRetries 1%nat w)
      as (c & w1 & evs & Heq & _ & _ & _ & _ & _ & Hl & _ & Hall).
    destruct Hall as (-> & Hc & Hdl).
    { intros j Hj. destruct (Hfail j Hj) as (e & -> & _). discriminate. }
    destruct (classify_attempts_run env userContent maxRetries maxRetries 1%nat w)
      as (c' & w1' & evs' & n & Heq' & _ & Hc' & Hl' & Hcalls & _).
    rewrite Heq in Heq'. injection Heq' as _ <-.
    rewrite Hl in Hl'. apply app_inv_head in Hl'. subst evs'.
    assert (n = maxRetries) as -> by lia.
    rewrite Heq. cbn [fst snd]. rewrite (new_events_app w w1 evs Hl).
    split; [done|]. split; [exact Hc|]. split; [exact Hcalls|].
    rewrite Hdl. by apply backoff_quiet.
Qed.

(** ** The refined link *)

Lemma all_append p a b :
  WebURL.all p (a +:+ b) = (WebURL.all p a && WebURL.all p b)%bool.
Proof.
  induction a as [|c a IH]; [reflexivity|].
  change (String c a +:+ b) with (String c (a +:+ b)).
  cbn [WebURL.all]. by rewrite IH, andb_assoc.
Qed.

Lemma all_mono (p q : ascii -> bool) s :
  (forall c, p c = true -> q c = true) ->
  WebURL.all p s = true -> WebURL.all q s = true.
Proof.
  intros Hpq. induction s as [|c s IH]; [done|]. cbn [WebURL.all].
  intros [Hc Hs]%andb_true_iff. by rewrite (Hpq c Hc), IH.
Qed.

Lemma host_char_plain c : WebURL.host_char c = true -> plain_char c = true.
Proof. destruct c as [[] [] [] [] [] [] [] []]; vm_compute; congruence. Qed.

Lemma path_char_plain c : WebURL.path_char c = true -> plain_char c = true.
Proof. destruct c as [[] [] [] [] [] [] [] []]; vm_compute; congruence. Qed.

(** A character that occurs nowhere in a string is not found in it. *)
Lemma index_absent (p : ascii -> bool) ch s :
  p ch = false -> WebURL.all p s = true ->
  JS.includes s (String ch "") = false.
Proof.
  intros Hch. unfold JS.includes, JS.indexOf.
  induction s as [|b s IH]; [done|]. cbn [WebURL.all].
  intros [Hb Hs]%andb_true_iff. cbn [String.index String.prefix].
  destruct (ascii_dec ch b) as [->|_]; [congruence|].
  specialize (IH Hs). by destruct (String.index 0 (String ch "") s).
Qed.

(** X13. On a plain web link, one that the platform parses as
    [WebURL.parse] does, the refined link holds neither a query string
    nor a fragment: whatever followed the path, tracking parameters
    included, is dropped before the page is fetched and the link
    stored. *)
Theorem X13_refined_link_has_no_query (env : Env) (link : string) (u : URL) :
  WebURL.parse link = Some u ->
  env_URL env link = Some u ->
  JS.includes (refineLink env link) "?" = false
  /\ JS.includes (refineLink env link) "#" = false.
Proof.
  intros Hparse Hurl. rewrite (refineLink_parsed env link u Hurl).
  destruct (parse_inv link u Hparse)
    as (scheme & host & path & Hscheme & Hhost & _ & Hpath & _ & _ & ->).
  assert (Hplain : WebURL.all plain_char
                     ((scheme +:+ "://" +:+ host)
                      +:+ keptPath {| origin := scheme +:+ "://" +:+ host;
                                      pathname := if JS.is_empty path then "/" else path;
                                      hostname := host |}) = true).
  { rewrite !all_append. apply andb_true_iff. split.
    - apply andb_true_iff. split; [by destruct Hscheme as [-> | ->]|].
      apply andb_true_iff. split; [reflexivity|].
      by apply (all_mono _ _ _ host_char_plain).
    - apply (all_mono WebURL.path_char); [exact path_char_plain|].
      assert (Hname : WebURL.all WebURL.path_char
                        (if JS.is_empty path then "/" else path) = true)
        by (by destruct (JS.is_empty path)).
      unfold keptPath. cbn [hostname pathname].
      destruct (JS.includes host "applytojob.com"); [exact Hname|].
      destruct (JS.indexOf _ "/apply"); [|exact Hname].
      by apply all_substring0. }
  cbn [origin]. split; by apply (index_absent plain_char).
Qed.

(** ** Runs that complete *)

Lemma toString_printable : forall v,
  printable v = true -> exists s, toString v = Ok s.
Proof.
  fix IH 1. intros [| [] | n | s | l | m] Hp; try (by eexists).
  - cbn [toString]. cbn [printable] in Hp.
    assert (Hl : exists ss,
      (fix elems (l : list json) : result (list string) :=
         match l with
         | [] => Ok []
         | x :: r =>
             rbind match x with JNull => Ok "" | _ => toString x end
               (fun s => rbind (elems r) (fun ss => Ok (s :: ss)))
         end) l = Ok ss).
    { induction l as [|x l IHl]; [by eexists|].
      cbn [forallb] in Hp. apply andb_true_iff in Hp as [Hx Hl].
      destruct (IHl Hl) as (ss & Hss). rewrite Hss.
      destruct (IH x Hx) as (s & Hs).
      destruct x; try (rewrite Hs); by eexists. }
    destruct Hl as (ss & ->). by eexists.
  - cbn [toString]. cbn [printable] in Hp.
    destruct (assoc "toString" m); [discriminate | by eexists].
Qed.

Lemma array_join_printable sep l :
  forallb printable l = true -> exists s, array_join sep l = Ok s.
Proof.
  intros Hp. unfold array_join.
  assert (exists ss, element_strings l = Ok ss) as (ss & ->); [|by eexists].
  induction l as [|x l IH]; [by eexists|].
  cbn [forallb] in Hp. apply andb_true_iff in Hp as [Hx Hl].
  destruct (IH Hl) as (ss & Hss). cbn [element_strings]. rewrite Hss.
  destruct (toString_printable x Hx) as (s & Hs).
  destruct x; try (rewrite Hs); by eexists.
Qed.

(** Merging succeeds on a classification whose arrays can be joined. *)
Lemma mergeRow_joinable (r : gmap string cell) today link c :
  joinable c -> exists merged, mergeRow r today link c = Ok merged.
Proof.
  intros [Hs Hp]. unfold mergeRow.
  destruct (array_join_printable ", " _ Hs) as (stacks & ->).
  destruct (array_join_printable "; " _ Hp) as (phrases & ->).
  by eexists.
Qed.

(** The classification the loop returns is the default one or the outcome
    of one of its attempts. *)
Lemma classify_attempts_sourced env userContent maxRetries :
  forall remaining attempt w c w1,
    classify_attempts env remaining attempt maxRetries userContent w = (Ok c, w1) ->
    c = DEFAULT_CLASSIFICATION
    \/ exists k, attempt_outcome env k userContent = Ok c.
Proof.
  induction remaining as [|remaining IH]; intros attempt w c w1.
  - intros [= <- _]. by left.
  - destruct (classify_attempt_spec env attempt maxRetries userContent w)
      as (w0 & evs & Heq & _).
    cbn [classify_attempts]. unfold bind at 1. rewrite Heq.
    destruct (attempt_outcome env (w_chats w) userContent) as [c0|e] eqn:Hout.
    + intros [= <- _]. right. by eexists.
    + apply IH.
Qed.

Lemma classifyWithOpenAI_joinable env jobTitle pageContent apiKey maxRetries w c :
  replies_joinable env ->
  (classifyWithOpenAI env jobTitle pageContent apiKey maxRetries w).1 = Ok c ->
  joinable c.
Proof.
  intros Hreplies. unfold classifyWithOpenAI.
  destruct (JS.is_empty _); [intros [= <-]; done|].
  destruct (negb _); [intros [= <-]; done|].
  cbv zeta.
  destruct (classify_attempts env maxRetries 1 maxRetries _ w) as [[c'|e] w1] eqn:Heq;
    [|discriminate].
  intros [= <-].
  destruct (classify_attempts_sourced _ _ _ _ _ _ _ _ Heq) as [->|(k & Hk)];
    [done | by eapply Hreplies].
Qed.

(** When the arrays of every reply can be joined and no write fails, an
    iteration of the loop over the rows completes. *)
Lemma processRow_completes env rows results i (r : gmap string cell) w :
  replies_joinable env ->
  (forall k, env_writeFile env k = None) ->
  exists results' w1, processRow env rows results i r w = (Ok results', w1).
Proof.
  intros Hreplies Hfree. unfold processRow. cbv zeta.
  destruct (analyzeLink_run env r w) as ((c & Hres & _) & _).
  assert (Hjoin : joinable c).
  { revert Hres. unfold analyzeLink, linked.
    destruct (JS.is_empty (linkOf r)); cbn [negb]; [by intros [= <-]|].
    unfold bind at 1.
    destruct (fetchPageContent env _ w) as [[text|e] w0]; [|discriminate].
    unfold bind at 1.
    destruct (classifyWithOpenAI env (titleOf r) text _ 3 w0) as [[c'|e] w1] eqn:Hcl;
      [|discriminate].
    intros [= <-]. eapply classifyWithOpenAI_joinable; [exact Hreplies|].
    by rewrite Hcl. }
  destruct (analyzeLink env (linkOf r) (titleOf r) w) as [res0 w0] eqn:Ha.
  cbn [fst] in Hres. subst res0.
  unfold bind at 1. rewrite Ha. cbv beta iota. rewrite storedLink_spec.
  destruct (mergeRow_joinable r (env_today env) (storedLink env r) c Hjoin)
    as (merged & Hmerge).
  unfold bind at 1, lift. rewrite Hmerge.
  unfold bind at 1, writeWorkbookWithRetry.
  destruct (write_attempts_success env (fullRows env rows (results ++ [merged]) i)
              4 1 None w0 (Hfree _)) as (Hw & _).
  fold WRITE_RETRIES in Hw. rewrite Hw.
  destruct (Nat.ltb i (length rows - 1)); by eexists _, _.
Qed.

Lemma rows_loop_completes env rows :
  replies_joinable env ->
  (forall k, env_writeFile env k = None) ->
  forall remaining i results w,
  exists final w1, rows_loop env remaining i rows results w = (Ok final, w1).
Proof.
  intros Hreplies Hfree.
  induction remaining as [|remaining IH]; intros i results w; [by eexists _, _|].
  cbn [rows_loop]. destruct (rows !! i) as [r|]; [|by eexists _, _].
  unfold bind at 1.
  destruct (processRow_completes env rows results i r w Hreplies Hfree)
    as (results' & w1 & ->).
  apply IH.
Qed.

(** X14. A run over a sheet that has a [Link] column completes, whatever
    the pages and the classification service do, provided no write of
    the file fails and the two lists of every classification the service
    is read to can be joined: none holds an object with a [toString]
    property of its own. Fetching and classifying cannot make it raise. *)
Theorem X14_run_completes (env : Env) (w : World) (rows : list (gmap string cell)) :
  w_disk w = Some rows ->
  (forall (r0 : gmap string cell) rest, rows = r0 :: rest -> is_Some (r0 !! "Link")) ->
  (forall k, env_writeFile env k = None) ->
  replies_joinable env ->
  (analyzeJobLinks env w).1
  = Ok {| filePath := env_inputPath env; fileName := "JobLinks.xlsx" |}.
Proof.
  intros Hdisk Hlink Hfree Hreplies. unfold analyzeJobLinks. rewrite Hdisk.
  assert (Hcol : (Nat.eqb (length rows) 0
                  || match rows with
                     | r0 :: _ => bool_decide (is_Some (r0 !! linkKey))
                     | [] => false
                     end)%bool = true).
  { destruct rows as [|r0 rest]; [reflexivity|].
    cbn [length Nat.eqb orb]. apply bool_decide_eq_true_2. by eapply Hlink. }
  rewrite Hcol. cbn [negb]. unfold bind.
  destruct (rows_loop_completes env rows Hreplies Hfree (length rows) 0%nat [] w)
    as (final & w1 & ->).
  reflexivity.
Qed.

(** The second hypothesis of X14 cannot be dropped: a reply whose list of
    stacks holds an object with a [toString] property makes the merge,
    and with it the whole run, raise before anything is saved. *)
Example hostile_reply_aborts_the_run :
  let run := analyzeJobLinks hostile_office (start (Some job_rows)) in
  run.1 = Throw (TypeError "Cannot convert object to primitive value")
  /\ saved (w_log run.2) = [] /\ w_disk run.2 = Some job_rows.
Proof. repeat split; vm_compute; reflexivity. Qed.

(** ** Time spent waiting *)

Lemma page_waits_app l1 l2 :
  page_waits (l1 ++ l2) = page_waits l1 ++ page_waits l2.
Proof.
  induction l1 as [|e l1 IH]; [done|].
  destruct e; simpl; by rewrite ?IH.
Qed.

Lemma sum_Z_app l1 l2 : sum_Z (l1 ++ l2) = (sum_Z l1 + sum_Z l2)%Z.
Proof. induction l1 as [|x l1 IH]; simpl; lia. Qed.

Lemma sum_Z_replicate n x : sum_Z (replicate n x) = (Z.of_nat n * x)%Z.
Proof. induction n as [|n IH]; cbn [replicate sum_Z]; lia. Qed.

Lemma scroll_cycles_waits s : forall remaining i w,
  exists evs,
    w_log (scroll_cycles s remaining i w).2 = w_log w ++ evs
    /\ delays evs = []
    /\ (0 <= sum_Z (page_waits evs) <= 2000 * Z.of_nat remaining)%Z
    /\ (scroll_failure s remaining i = None ->
        page_waits evs = replicate remaining 2000%Z).
Proof.
  induction remaining as [|remaining IH]; intros i w.
  - exists []. cbn. rewrite app_nil_r. split; [done|]. split; [done|].
    split; [lia | done].
  - cbn [scroll_cycles scroll_failure]. unfold bind, emit, settle.
    destruct (s_wheel s i) as [e|]; cbn [throw ret fst snd].
    { exists [EvWheel]. split; [done|]. split; [done|].
      split; [cbn; lia | discriminate]. }
    destruct (s_wait s i) as [e|]; cbn [throw ret fst snd].
    { exists [EvWheel; EvPageWait 2000]. cbn [w_log]. rewrite <- app_assoc.
      split; [done|]. split; [done|]. split; [cbn; lia | discriminate]. }
    match goal with |- context [scroll_cycles s remaining (S i) ?w0] =>
      destruct (IH (S i) w0) as (evs & Hl & Hd & Hsum & Hall) end.
    exists ([EvWheel; EvPageWait 2000] ++ evs).
    split; [rewrite Hl; cbn [w_log]; by rewrite <- !app_assoc|].
    split; [by rewrite delays_app, Hd|].
    rewrite page_waits_app. cbn [page_waits app sum_Z].
    split; [lia|]. intros Hnone. cbn [replicate]. by rewrite Hall.
Qed.

Lemma frames_loop_waits : forall frames textContent w,
  exists evs,
    w_log (frames_loop frames textContent w).2 = w_log w ++ evs
    /\ delays evs = [] /\ page_waits evs = [].
Proof.
  induction frames as [|frame frames IH]; intros textContent w.
  - exists []. cbn. by rewrite app_nil_r.
  - cbn [frames_loop]. destruct frame as [frameText|e].
    + unfold bind at 1, try_catch, bind, lift.
      destruct (_ && _)%bool; cbn [ret]; apply IH.
    + unfold bind at 1, try_catch, bind, lift, console, emit. cbn [ret].
      match goal with |- context [frames_loop frames textContent ?w0] =>
        destruct (IH textContent w0) as (evs & Hl & Hd & Hp) end.
      eexists (_ :: evs).
      split; [rewrite Hl; cbn [w_log]; rewrite <- app_assoc; reflexivity|].
      done.
Qed.

(** What a session waits: nothing outside the page, and inside it twelve
    seconds after the navigation and two after each of the ten scrolls. *)
Lemma renderPage_waits env url w :
  let s := env_session env (w_sessions w) url in
  exists evs,
    w_log (renderPage env url w).2 = w_log w ++ evs
    /\ delays evs = []
    /\ (0 <= sum_Z (page_waits evs) <= 32000)%Z
    /\ (session_failure s = None ->
        exists body, s_body s = Ok body
        /\ page_waits evs = 12000%Z :: replicate 10 2000%Z).
Proof.
  intros s. unfold renderPage, session_failure.
  unfold bind at 1, chromium_launch. fold s. cbn [first_failure fold_right].
  destruct (s_launch s) as [e|].
  { eexists [_]. split; [reflexivity|]. split; [done|].
    split; [cbn; lia | discriminate]. }
  unfold bind at 1, settle. destruct (s_newContext s) as [e|]; cbn [throw ret].
  { eexists [_]. split; [reflexivity|]. split; [done|].
    split; [cbn; lia | discriminate]. }
  unfold bind at 1, newPage. destruct (s_newPage s) as [e|].
  { eexists [_]. split; [reflexivity|]. split; [done|].
    split; [cbn; lia | discriminate]. }
  unfold bind at 1, emit. cbn [fst snd].
  unfold bind at 1. destruct (s_goto s) as [e|]; cbn [throw ret].
  { eexists [_; _]. split; [cbn; by rewrite <- app_assoc|]. split; [done|].
    split; [cbn; lia | discriminate]. }
  unfold bind at 1. unfold bind at 1. destruct (s_settle s) as [e|]; cbn [throw ret].
  { eexists [_; _; _]. split; [cbn; by rewrite <- !app_assoc|]. split; [done|].
    split; [cbn; lia | discriminate]. }
  unfold bind at 1.
  match goal with |- context [scroll_cycles s 10 0 ?w0] =>
    destruct (scroll_cycles_waits s 10 0 w0) as (evs1 & Hl1 & Hd1 & Hsum1 & Hall1);
    destruct (scroll_cycles_spec s 10 0 w0) as (w1 & evs1' & Heq1 & _)
  end.
  rewrite Heq1 in Hl1 |- *. cbn [snd w_log] in Hl1.
  rewrite <- !app_assoc in Hl1. cbn [app] in Hl1.
  destruct (scroll_failure s 10 0) as [e|].
  { exists ([EvLaunch url; EvGoto url; EvPageWait 12000] ++ evs1).
    cbn [snd]. split; [exact Hl1|]. split; [by rewrite delays_app, Hd1|].
    rewrite page_waits_app. cbn [page_waits app sum_Z].
    split; [lia | discriminate]. }
  specialize (Hall1 eq_refl).
  unfold bind at 1, lift. destruct (s_body s) as [body|e]; cbn [failure_of].
  2:{ exists ([EvLaunch url; EvGoto url; EvPageWait 12000] ++ evs1).
      cbn [snd]. split; [exact Hl1|]. split; [by rewrite delays_app, Hd1|].
      rewrite page_waits_app. cbn [page_waits app sum_Z].
      split; [lia | discriminate]. }
  unfold bind at 1.
  destruct (frames_loop_waits (s_frames s) body w1) as (evs2 & Hl2 & Hd2 & Hp2).
  destruct (frames_loop_spec (s_frames s) body w1) as (w2 & evs2' & Heq2 & _).
  rewrite Heq2 in Hl2 |- *. cbn [snd] in Hl2.
  unfold bind, page_close, ret. cbn [fst snd w_log].
  exists ([EvLaunch url; EvGoto url; EvPageWait 12000] ++ evs1 ++ evs2
          ++ [EvPageClose]).
  split; [rewrite Hl2, Hl1; cbn [app]; by rewrite <- !app_assoc|].
  split; [rewrite !delays_app, Hd1, Hd2; reflexivity|].
  rewrite !page_waits_app, Hp2, Hall1. cbn [page_waits app sum_Z replicate].
  split; [lia|]. intros _. exists body. split; [done|].
  by rewrite ?app_nil_r.
Qed.

Lemma fetchPageContent_waits env url w :
  let s := env_session env (w_sessions w) url in
  exists evs,
    w_log (fetchPageContent env url w).2 = w_log w ++ evs
    /\ delays evs = []
    /\ (0 <= sum_Z (page_waits evs) <= 32000)%Z
    /\ (session_failure s = None ->
        page_waits evs = 12000%Z :: replicate 10 2000%Z).
Proof.
  intros s. unfold fetchPageContent, try_catch.
  destruct (renderPage_waits env url w) as (evs & Hl & Hd & Hsum & Hall).
  destruct (renderPage_spec env url w) as (w1 & evs' & Heq & _).
  fold s in Hall, Heq. rewrite Heq in Hl |- *. cbn [snd] in Hl.
  destruct (session_failure s) as [e|].
  - unfold bind, console, emit, ret. cbn [snd w_log].
    eexists (evs ++ [_]). split; [rewrite Hl, <- app_assoc; reflexivity|].
    rewrite delays_app, page_waits_app, Hd. cbn [delays page_waits].
    rewrite !app_nil_r. split; [done|]. split; [lia | discriminate].
  - cbn [snd]. exists evs. split; [exact Hl|]. split; [exact Hd|].
    split; [exact Hsum|]. intros _. by destruct (Hall eq_refl) as (body & _ & ->).
Qed.


Lemma classifyWithOpenAI_pauses env jobTitle pageContent apiKey w :
  exists evs,
    w_log (classifyWithOpenAI env jobTitle pageContent apiKey 3 w).2
    = w_log w ++ evs
    /\ (0 <= sum_Z (delays evs) <= 3000)%Z.
Proof.
  unfold classifyWithOpenAI.
  destruct (JS.is_empty _).
  { eexists [_]. split; [reflexivity|]. cbn. lia. }
  destruct (negb _).
  { eexists [_]. split; [reflexivity|]. cbn. lia. }
  cbv zeta.
  destruct (classify_attempts_run env (userContentOf jobTitle pageContent)
              3 3 1%nat w) as (c & w1 & evs & n & Heq & _ & _ & Hl & _ & Hdl).
  rewrite Heq. exists evs. split; [exact Hl|]. rewrite Hdl.
  destruct (backoff_total env (userContentOf jobTitle pageContent) 3 3 1%nat
              (w_chats w)) as [[Hlo Hhi]|Habs]; [lia | lia | | discriminate].
  change (2 ^ (Z.of_nat 1 - 1) * 1000)%Z with 1000%Z in Hhi.
  change (2 ^ (Z.of_nat 3 - 1) * 1000)%Z with 4000%Z in Hhi. lia.
Qed.

Lemma analyzeLink_pauses env (r : gmap string cell) w :
  exists evs,
    w_log (analyzeLink env (linkOf r) (titleOf r) w).2 = w_log w ++ evs
    /\ (0 <= sum_Z (delays evs) <= 3000)%Z.
Proof.
  unfold analyzeLink. destruct (JS.is_empty (linkOf r)); cbn [negb].
  { exists []. cbn. rewrite app_nil_r. split; [done | lia]. }
  destruct (fetchPageContent_run env (refineLink env (linkOf r)) w)
    as ((text & Htext) & _).
  destruct (fetchPageContent_waits env (refineLink env (linkOf r)) w)
    as (evs0 & Hl0 & Hd0 & _).
  unfold bind at 1.
  destruct (fetchPageContent env (refineLink env (linkOf r)) w) as [res w0].
  cbn [fst snd] in *. subst res. unfold bind at 1.
  destruct (classifyWithOpenAI_run env (titleOf r) text
              (Some (match env_apiKey env with Some k => k | None => "" end)) 3 w0)
    as ((c & Hres & _) & _).
  destruct (classifyWithOpenAI_pauses env (titleOf r) text
              (Some (match env_apiKey env with Some k => k | None => "" end)) w0)
    as (evs1 & Hl1 & Hsum).
  destruct (classifyWithOpenAI env (titleOf r) text _ 3 w0) as [res w1].
  cbn [fst snd] in *. subst res. cbn [ret snd].
  exists (evs0 ++ evs1). split; [by rewrite Hl1, Hl0, app_assoc|].
  rewrite delays_app, Hd0. cbn [app]. exact Hsum.
Qed.

(** An iteration of the loop over the rows pauses at most 18.5 seconds:
    three for the classifier, fifteen for the save, half a one before
    the next row. *)
Lemma processRow_pauses env rows results i (r : gmap string cell) w :
  exists evs,
    w_log (processRow env rows results i r w).2 = w_log w ++ evs
    /\ (0 <= sum_Z (delays evs) <= 18500)%Z.
Proof.
  unfold processRow. cbv zeta.
  destruct (analyzeLink_run env r w) as ((c & Hres & _) & _).
  destruct (analyzeLink_pauses env r w) as (evs0 & Hl0 & Hsum0).
  destruct (analyzeLink env (linkOf r) (titleOf r) w) as [res0 w0] eqn:Ha.
  cbn [fst snd] in *. subst res0.
  unfold bind at 1. rewrite Ha. cbv beta iota.
  unfold bind at 1, lift.
  destruct (mergeRow r (env_today env) _ c) as [merged|e].
  2:{ exists evs0. split; [exact Hl0 | lia]. }
  unfold bind at 1, writeWorkbookWithRetry.
  set (t := fullRows env rows (results ++ [merged]) i).
  destruct (write_attempts_run env t WRITE_RETRIES 1 None w0)
    as (n & w1 & evs1 & Hn & Hw1 & Hl1 & _ & _ & Hd1 & _);
    [unfold WRITE_RETRIES; lia | unfold WRITE_RETRIES; lia |].
  pose proof (save_pauses_total n Hn) as Hsum1. rewrite <- Hd1 in Hsum1.
  destruct (write_attempts env WRITE_RETRIES 1 None t w0) as [[[]|e] w1'];
    cbn [snd] in Hw1; subst w1'.
  2:{ exists (evs0 ++ evs1). split; [cbn [snd]; by rewrite Hl1, Hl0, app_assoc|].
      rewrite delays_app, sum_Z_app. lia. }
  destruct (Nat.ltb i (length rows - 1)).
  - exists (evs0 ++ evs1 ++ [EvDelay DELAY_BETWEEN_FETCHES_MS]).
    split; [cbn; by rewrite Hl1, Hl0, <- !app_assoc|].
    rewrite !delays_app, !sum_Z_app. cbn [delays sum_Z].
    unfold DELAY_BETWEEN_FETCHES_MS. lia.
  - exists (evs0 ++ evs1). split; [cbn; by rewrite Hl1, Hl0, app_assoc|].
    rewrite delays_app, sum_Z_app. lia.
Qed.

Lemma rows_loop_pauses env rows : forall remaining i results w,
  exists evs,
    w_log (rows_loop env remaining i rows results w).2 = w_log w ++ evs
    /\ (0 <= sum_Z (delays evs)
        <= 18500 * Z.of_nat (Nat.min remaining (length rows - i)))%Z.
Proof.
  induction remaining as [|remaining IH]; intros i results w.
  - exists []. cbn. rewrite app_nil_r. split; [done | lia].
  - cbn [rows_loop]. destruct (rows !! i) as [r|] eqn:Hr.
    2:{ exists []. cbn [ret snd]. rewrite app_nil_r. split; [done|]. cbn. lia. }
    apply lookup_lt_Some in Hr.
    destruct (processRow_pauses env rows results i r w) as (evs1 & Hl1 & Hsum1).
    unfold bind at 1.
    destruct (processRow env rows results i r w) as [[results'|e] w1];
      cbn [snd] in Hl1.
    2:{ exists evs1. split; [exact Hl1 | lia]. }
    destruct (IH (S i) results' w1) as (evs2 & Hl2 & Hsum2).
    exists (evs1 ++ evs2). split; [by rewrite Hl2, Hl1, app_assoc|].
    rewrite delays_app, sum_Z_app. lia.
Qed.

(** X18. The pauses of a run, between the attempts of the classifier,
    between the attempts of a save and between the rows, add up to at
    most 18.5 seconds per row of the sheet, whatever fails and however
    the run ends; its retry loops cannot keep it waiting longer. A run
    that raises before its loop, for a missing file or a missing [Link]
    column, does not pause at all and logs nothing. *)
Theorem X18_run_pauses_bounded (env : Env) (w : World) :
  let evs := new_events w (analyzeJobLinks env w).2 in
  match w_disk w with
  | None => evs = []
  | Some [] => evs = []
  | Some (r0 :: rest) =>
      if bool_decide (is_Some (r0 !! "Link"))
      then (0 <= sum_Z (delays evs) <= 18500 * Z.of_nat (S (length rest)))%Z
      else evs = []
  end.
Proof.
  cbv zeta. unfold analyzeJobLinks.
  destruct (w_disk w) as [[|r0 rest]|].
  - cbn. unfold new_events. by rewrite drop_all.
  - cbn [length Nat.eqb orb]. unfold linkKey.
    destruct (bool_decide (is_Some (r0 !! "Link"))); cbn [negb].
    2:{ cbn [snd]. unfold new_events. by rewrite drop_all. }
    destruct (rows_loop_pauses env (r0 :: rest) (S (length rest)) 0%nat [] w)
      as (evs & Hl & Hsum).
    cbn [length] in Hsum. rewrite Nat.sub_0_r, Nat.min_id in Hsum.
    unfold bind.
    destruct (rows_loop env (S (length rest)) 0 (r0 :: rest) [] w)
      as [[final|e] w1];
      cbn [snd ret] in *; rewrite (new_events_app w w1 evs Hl); exact Hsum.
  - cbn [snd]. unfold new_events. by rewrite drop_all.
Qed.

(** ** What a row with a link costs *)

Global Instance page_only_preorder : PreOrder page_only.
Proof.
  split.
  - intros w. split; [done|]. exists []. by rewrite app_nil_r.
  - intros w1 w2 w3 (Hc1 & e1 & Hl1 & Hf1) (Hc2 & e2 & Hl2 & Hf2).
    split; [congruence|].
    exists (e1 ++ e2). rewrite Hl2, Hl1, app_assoc. split; [done|].
    by apply Forall_app.
Qed.

Lemma page_only_emit e : is_page_event e = true -> keeps page_only (emit e).
Proof.
  intros He w. split; [done|]. exists [e]. split; [done|]. by constructor.
Qed.

Lemma page_only_console lvl args : keeps page_only (console lvl args).
Proof. by apply page_only_emit. Qed.

Lemma page_only_wheel : keeps page_only (emit EvWheel).
Proof. by apply page_only_emit. Qed.

Lemma page_only_page_wait ms : keeps page_only (emit (EvPageWait ms)).
Proof. by apply page_only_emit. Qed.

Lemma page_only_goto url : keeps page_only (emit (EvGoto url)).
Proof. by apply page_only_emit. Qed.

Lemma page_only_chromium_launch env url : keeps page_only (chromium_launch env url).
Proof.
  intros w. split; [done|]. exists [EvLaunch url]. split; [done|].
  by repeat constructor.
Qed.

Lemma page_only_newPage s : keeps page_only (newPage s).
Proof. intros w. split; [done|]. exists []. by rewrite app_nil_r. Qed.

Lemma page_only_page_close : keeps page_only page_close.
Proof.
  intros w. split; [done|]. exists [EvPageClose]. split; [done|].
  by repeat constructor.
Qed.

#[global] Hint Resolve page_only_console page_only_wheel page_only_page_wait
  page_only_goto page_only_chromium_launch page_only_newPage
  page_only_page_close : keeps.

Lemma page_only_scroll_cycles s : forall remaining i,
  keeps page_only (scroll_cycles s remaining i).
Proof.
  induction remaining as [|remaining IH]; intros i; simpl; keeps_auto.
Qed.

Lemma page_only_frames_loop frames : forall textContent,
  keeps page_only (frames_loop frames textContent).
Proof.
  induction frames as [|frame frames IH]; intros textContent; simpl;
    keeps_auto.
  destruct (_ && _)%bool; keeps_auto.
Qed.

#[global] Hint Resolve page_only_scroll_cycles page_only_frames_loop : keeps.

(** A fetch calls no classification service and logs page events only. *)
Lemma page_only_fetchPageContent env url : keeps page_only (fetchPageContent env url).
Proof. unfold fetchPageContent, renderPage. keeps_auto. Qed.

Lemma chat_calls_page evs :
  Forall (fun e => is_page_event e = true) evs -> chat_calls evs = [].
Proof.
  induction 1 as [|e evs He _ IH]; [done|]. by destruct e.
Qed.

(** What a fetch returns, by the first step of its session that rejects. *)
Lemma fetchPageContent_text env url w :
  (fetchPageContent env url w).1
  = Ok (match session_failure (env_session env (w_sessions w) url) with
        | None => session_text (env_session env (w_sessions w) url)
        | Some _ => ""
        end).
Proof.
  unfold fetchPageContent, try_catch.
  destruct (renderPage_spec env url w) as (w1 & evs & Heq & _).
  rewrite Heq. by destruct (session_failure _).
Qed.

(** With attempts left, the loop of the classifier calls the service. *)
Lemma classify_attempts_calls env userContent maxRetries remaining attempt w :
  exists n,
    (Nat.min 1 remaining <= n <= remaining)%nat
    /\ w_chats (classify_attempts env remaining attempt maxRetries userContent w).2
       = (w_chats w + n)%nat
    /\ exists evs,
         w_log (classify_attempts env remaining attempt maxRetries userContent w).2
         = w_log w ++ evs
         /\ chat_calls evs = replicate n userContent.
Proof.
  destruct (classify_attempts_run env userContent maxRetries remaining attempt w)
    as (c & w1 & evs & n & Heq & Hn & Hc & Hl & Hcalls & _).
  rewrite Heq. cbn [snd]. exists n.
  split; [|split; [exact Hc | by exists evs]].
  split; [|exact Hn].
  destruct remaining as [|remaining]; [cbn; lia|].
  destruct (classify_attempt_spec env attempt maxRetries userContent w)
    as (w0 & evs0 & Heq0 & _ & _ & _ & Hc0 & _).
  revert Heq. cbn [classify_attempts]. unfold bind at 1. rewrite Heq0.
  destruct (attempt_outcome env (w_chats w) userContent) as [c0|e].
  - intros [= _ <-]. cbn. lia.
  - intros Heq.
    destruct (classify_attempts_run env userContent maxRetries remaining
                (S attempt) w0)
      as (c' & w1' & evs' & n' & Heq' & _ & Hc' & _).
    rewrite Heq in Heq'. injection Heq' as _ <-. cbn. lia.
Qed.

(** X19. A row with a link, under an accepted credential, costs one
    rendering session and between one and three calls of the
    classification service, each carrying the title of the row and the
    text fetched for it. When the fetch fails the row is classified all
    the same, from its title alone: the message then reads
    [(no content)] where the text of the page would be. *)
Theorem X19_row_with_link (env : Env) (rows results : list (gmap string cell))
    (i : nat) (r : gmap string cell) (w : World) :
  linked r = true ->
  credential_ok (env_apiKey env) = true ->
  let s := env_session env (w_sessions w) (refineLink env (linkOf r)) in
  let text := match session_failure s with
              | None => session_text s | Some _ => "" end in
  let run := processRow env rows results i r w in
  exists n,
    (1 <= n <= 3)%nat
    /\ w_sessions run.2 = S (w_sessions w)
    /\ w_chats run.2 = (w_chats w + n)%nat
    /\ chat_calls (new_events w run.2)
       = replicate n (userContentOf (titleOf r) text)
    /\ (session_failure s <> None ->
        userContentOf (titleOf r) text
        = "Job Title: "
          +:+ (if JS.is_empty (titleOf r) then "Unknown" else titleOf r)
          +:+ JS.nl +:+ JS.nl +:+ "Job description / page content:" +:+ JS.nl
          +:+ "(no content)").
Proof.
  intros Hlinked Hkey s text run.
  assert (Hmsg : session_failure s <> None ->
            userContentOf (titleOf r) text
            = "Job Title: "
              +:+ (if JS.is_empty (titleOf r) then "Unknown" else titleOf r)
              +:+ JS.nl +:+ JS.nl +:+ "Job description / page content:" +:+ JS.nl
              +:+ "(no content)").
  { subst text. destruct (session_failure s); [reflexivity | done]. }
  unfold linked in Hlinked.
  (* the fetch *)
  pose proof (fetchPageContent_text env (refineLink env (linkOf r)) w) as Htext.
  fold s in Htext. fold text in Htext.
  destruct (fetchPageContent_run env (refineLink env (linkOf r)) w)
    as (_ & _ & _ & _ & Hs0 & _).
  destruct (page_only_fetchPageContent env (refineLink env (linkOf r)) w)
    as (Hc0 & evs0 & Hl0 & Hp0).
  apply chat_calls_page in Hp0.
  destruct (fetchPageContent env (refineLink env (linkOf r)) w) as [res w0] eqn:Hf.
  cbn [fst snd] in Htext, Hs0, Hc0, Hl0. subst res.
  (* the classification *)
  destruct (env_apiKey env) as [key|] eqn:Hk; [|discriminate].
  assert (Hcl : classifyWithOpenAI env (titleOf r) text (Some key) 3 w0
                = classify_attempts env 3 1 3 (userContentOf (titleOf r) text) w0).
  { unfold classifyWithOpenAI. cbn [credential_ok] in Hkey.
    apply andb_true_iff in Hkey as [Hne Hsk]. apply negb_true_iff in Hne.
    by rewrite Hne, Hsk. }
  destruct (classify_attempts_calls env (userContentOf (titleOf r) text) 3 3 1 w0)
    as (n & Hn & Hc1 & evs1 & Hl1 & Hcalls1).
  destruct (classifyWithOpenAI_run env (titleOf r) text (Some key) 3 w0)
    as ((c & Hres & _) & _ & _ & Hs1 & _).
  rewrite <- Hcl in Hc1, Hl1. clear Hcl.
  destruct (classifyWithOpenAI env (titleOf r) text (Some key) 3 w0)
    as [res w1] eqn:Hcw.
  cbn [fst snd] in Hres, Hs1, Hc1, Hl1. subst res.
  (* the merge, the save and the pause *)
  assert (Hrun : exists m : M (list (gmap string cell)),
            keeps no_remote m /\ run = m w1).
  { eexists. split; [|subst run; unfold processRow; cbv zeta;
                      unfold bind at 1, analyzeLink; rewrite Hlinked, Hk;
                      cbn [negb]; unfold bind at 1; rewrite Hf;
                      unfold bind at 1; rewrite Hcw; cbn [ret];
                      cbv beta iota; reflexivity].
    apply keeps_bind; [apply _ | apply keeps_lift; apply _ |].
    intros merged.
    apply keeps_bind; [apply _ | apply no_remote_write_attempts |].
    intros _.
    apply keeps_bind; [apply _ | |intros _; apply keeps_ret; apply _].
    destruct (Nat.ltb i (length rows - 1));
      [by apply no_remote_emit | apply keeps_ret; apply _]. }
  destruct Hrun as (m & Hm & ->).
  destruct (Hm w1) as (Hs2 & Hc2 & _ & _ & evs2 & Hl2 & Hq2).
  exists n. split; [cbn in Hn; lia|]. split; [congruence|].
  split; [lia|]. split; [|exact Hmsg].
  rewrite (new_events_app w _ (evs0 ++ evs1 ++ evs2))
    by (by rewrite Hl2, Hl1, Hl0, <- !app_assoc).
  rewrite !chat_calls_app, Hp0, Hcalls1, (chat_calls_quiet evs2 Hq2).
  by rewrite app_nil_r.
Qed.

(** ** The technical-role classifier and the diagnostic *)

(** X15. The checks of the credential agree. The constructor of
    [Classifier] accepts exactly the keys [classifyWithOpenAI] accepts,
    and raises where the latter falls back to the defaults; the key test
    of the diagnostic script accepts exactly those of them that have at
    least 20 characters, so a key it passes is accepted by both. *)
Theorem X15_credential_checks_agree (apiKey : option string) (w : World) :
  (Classifier.constructor apiKey = Ok tt <-> credential_ok apiKey = true)
  /\ (Diagnostic.testApiKeyFormat apiKey w).1
     = Ok (credential_ok apiKey
           && Nat.leb 20 (String.length
                            match apiKey with Some key => key | None => "" end))%bool
  /\ only_logged w (Diagnostic.testApiKeyFormat apiKey w).2.
Proof.
  unfold Classifier.constructor, Diagnostic.testApiKeyFormat, credential_ok.
  destruct apiKey as [key|]; cbn [JS.is_empty].
  2:{ split; [split; discriminate|]. split; [reflexivity|]. by repeat split. }
  destruct (JS.is_empty key); cbn [negb andb].
  { split; [split; discriminate|]. split; [reflexivity|]. by repeat split. }
  destruct (JS.startsWith key "sk-"); cbn [negb].
  2:{ split; [split; discriminate|]. split; [reflexivity|]. by repeat split. }
  split; [done|].
  destruct (Nat.ltb (String.length key) 20) eqn:Hlt.
  - apply Nat.ltb_lt in Hlt.
    assert (Nat.leb 20 (String.length key) = false) as ->
      by (apply Nat.leb_gt; lia).
    split; [reflexivity|]. by repeat split.
  - apply Nat.ltb_ge in Hlt.
    assert (Nat.leb 20 (String.length key) = true) as ->
      by (apply Nat.leb_le; lia).
    split; [reflexivity|]. by repeat split.
Qed.

Lemma on_error_spec attempt maxRetries error w :
  exists w1 evs,
    Classifier.on_error attempt maxRetries error w
    = (if (Classifier.isConnectionError error && Nat.ltb attempt maxRetries)%bool
       then Ok tt
       else if Nat.eqb attempt maxRetries then Throw (ae_error error)
       else Ok tt, w1)
    /\ only_logged w w1
    /\ w_log w1 = w_log w ++ evs
    /\ chat_calls evs = []
    /\ delays evs
       = if (Classifier.isConnectionError error && Nat.ltb attempt maxRetries)%bool
         then [(2 ^ (Z.of_nat attempt - 1) * 1000)%Z] else [].
Proof.
  unfold Classifier.on_error, bind, console, delay, emit, throw, ret.
  destruct (Classifier.isConnectionError error && Nat.ltb attempt maxRetries)%bool;
    [|destruct (Nat.eqb attempt maxRetries)];
    cbn; eexists _, _; (split; [reflexivity|]);
    (split; [by repeat split|]); cbn [w_log];
    (split; [rewrite <- ?app_assoc; reflexivity|]); done.
Qed.

(** The loop of [classifyJobPosting] from attempt [attempt] on. It
    returns the trimmed content of the first attempt that succeeds, or
    raises the error of the last attempt once all have failed. *)
Lemma Classifier_attempts_spec create prompt jobText maxRetries :
  forall remaining attempt lastError w,
    (attempt + remaining = S maxRetries)%nat ->
    exists res w1 evs,
      Classifier.attempts create remaining attempt maxRetries prompt jobText
        lastError w = (res, w1)
      /\ w_disk w1 = w_disk w /\ w_sessions w1 = w_sessions w
      /\ w_log w1 = w_log w ++ evs
      /\ delays evs
         = Classifier.pauses create prompt jobText remaining attempt maxRetries
             (w_chats w)
      /\ match res with
         | Ok response =>
             exists k content,
               (k < remaining)%nat
               /\ (forall j, (j < k)%nat ->
                   exists error,
                     create (w_chats w + j)%nat prompt jobText = Failed error)
               /\ create (w_chats w + k)%nat prompt jobText = Content content
               /\ response = JS.trim content
               /\ w_chats w1 = (w_chats w + S k)%nat
               /\ chat_calls evs = replicate (S k) jobText
         | Throw e =>
             (forall j, (j < remaining)%nat ->
                exists error,
                  create (w_chats w + j)%nat prompt jobText = Failed error)
             /\ w_chats w1 = (w_chats w + remaining)%nat
             /\ chat_calls evs = replicate remaining jobText
             /\ match remaining with
                | O => e = match lastError with
                           | Some e' => e' | None => thrown_null end
                | S r =>
                    exists error,
                      create (w_chats w + r)%nat prompt jobText = Failed error
                      /\ e = ae_error error
                end
         end.
Proof.
  induction remaining as [|remaining IH]; intros attempt lastError w Hsum.
  - eexists _, w, []. split; [reflexivity|]. rewrite app_nil_r, Nat.add_0_r.
    do 4 (split; [reflexivity|]).
    split; [intros j Hj; lia|]. done.
  - cbn [Classifier.attempts Classifier.pauses].
    unfold bind at 1, Classifier.completions_create.
    destruct (create (w_chats w) prompt jobText) as [error|content] eqn:Hcreate.
    2:{ eexists _, _, [_]. split; [reflexivity|]. cbn [w_disk w_sessions w_log w_chats].
        do 4 (split; [reflexivity|]).
        exists 0%nat, content. rewrite Nat.add_0_r.
        split; [lia|]. split; [intros j Hj; lia|]. split; [exact Hcreate|].
        split; [reflexivity|]. split; [lia | reflexivity]. }
    unfold bind at 1.
    match goal with |- context [Classifier.on_error attempt maxRetries error ?w0] =>
      destruct (on_error_spec attempt maxRetries error w0)
        as (w1 & evs1 & Heq & Hsame & Hl1 & Hcalls1 & Hd1)
    end.
    rewrite Heq. destruct Hsame as (Hdk & _ & Hs1 & Hc1 & _).
    cbn [w_disk w_sessions w_chats w_log] in Hdk, Hs1, Hc1, Hl1.
    assert (Hstop : forall e, (Classifier.isConnectionError error && Nat.ltb attempt maxRetries)%bool = false ->
              Nat.eqb attempt maxRetries = true ->
              e = ae_error error ->
              exists res w2 evs,
                (Throw e : result string, w1) = (res, w2)
                /\ w_disk w2 = w_disk w /\ w_sessions w2 = w_sessions w
                /\ w_log w2 = w_log w ++ evs
                /\ delays evs = [] ++ Classifier.pauses create prompt jobText remaining
                                       (S attempt) maxRetries (S (w_chats w))
                /\ match res with
                   | Ok _ => False
                   | Throw e' =>
                       (forall j, (j < S remaining)%nat ->
                          exists error,
                            create (w_chats w + j)%nat prompt jobText = Failed error)
                       /\ w_chats w2 = (w_chats w + S remaining)%nat
                       /\ chat_calls evs = replicate (S remaining) jobText
                       /\ exists error',
                            create (w_chats w + remaining)%nat prompt jobText
                            = Failed error' /\ e' = ae_error error'
                   end).
    { intros e Hconn Heqb ->. apply Nat.eqb_eq in Heqb.
      assert (remaining = 0%nat) as -> by lia.
      exists (Throw (ae_error error)), w1, (EvChat jobText :: evs1).
      split; [reflexivity|]. split; [exact Hdk|]. split; [exact Hs1|].
      split; [by rewrite Hl1, <- app_assoc|].
      split; [cbn [delays Classifier.pauses]; by rewrite Hd1, Hconn|].
      rewrite Nat.add_0_r.
      split; [intros j Hj; assert (j = 0%nat) as -> by lia;
              rewrite Nat.add_0_r; by eexists|].
      split; [lia|]. split; [cbn [chat_calls]; by rewrite Hcalls1|].
      by eexists. }
    assert (Hgo : exists res w2 evs,
              Classifier.attempts create remaining (S attempt) maxRetries prompt
                jobText (Some (ae_error error)) w1 = (res, w2)
              /\ w_disk w2 = w_disk w /\ w_sessions w2 = w_sessions w
              /\ w_log w2 = w_log w ++ EvChat jobText :: evs1 ++ evs
              /\ delays evs
                 = Classifier.pauses create prompt jobText remaining (S attempt)
                     maxRetries (S (w_chats w))
              /\ match res with
                 | Ok response =>
                     exists k content,
                       (k < S remaining)%nat
                       /\ (forall j, (j < k)%nat ->
                           exists error,
                             create (w_chats w + j)%nat prompt jobText = Failed error)
                       /\ create (w_chats w + k)%nat prompt jobText = Content content
                       /\ response = JS.trim content
                       /\ w_chats w2 = (w_chats w + S k)%nat
                       /\ chat_calls evs = replicate k jobText
                 | Throw e =>
                     (forall j, (j < S remaining)%nat ->
                        exists error,
                          create (w_chats w + j)%nat prompt jobText = Failed error)
                     /\ w_chats w2 = (w_chats w + S remaining)%nat
                     /\ chat_calls evs = replicate remaining jobText
                     /\ exists error',
                          create (w_chats w + remaining)%nat prompt jobText
                          = Failed error' /\ e = ae_error error'
                 end).
    { destruct (IH (S attempt) (Some (ae_error error)) w1)
        as (res & w2 & evs & Heq2 & Hd2 & Hs2 & Hl2 & Hp2 & Hres); [lia|].
      exists res, w2, evs. split; [exact Heq2|].
      split; [congruence|]. split; [congruence|].
      split; [by rewrite Hl2, Hl1, <- !app_assoc|].
      split; [by rewrite Hp2, Hc1|].
      assert (Hshift : forall j, (w_chats w1 + j = w_chats w + S j)%nat)
        by (intros j; lia).
      destruct res as [response|e].
      - destruct Hres as (k & content & Hk & Hfail & Hok & -> & Hc2 & Hcalls).
        exists (S k), content. split; [lia|].
        split.
        { intros [|j] Hj; [rewrite Nat.add_0_r; by eexists|].
          rewrite <- Hshift. apply Hfail. lia. }
        split; [by rewrite <- Hshift|]. split; [reflexivity|].
        split; [lia | exact Hcalls].
      - destruct Hres as (Hfail & Hc2 & Hcalls & Hlast).
        split.
        { intros [|j] Hj; [rewrite Nat.add_0_r; by eexists|].
          rewrite <- Hshift. apply Hfail. lia. }
        split; [lia|]. split; [exact Hcalls|].
        destruct remaining as [|r].
        + rewrite Nat.add_0_r. subst e. by eexists.
        + destruct Hlast as (error' & Hlast & ->).
          exists error'. by rewrite <- Hshift. }
    destruct (Classifier.isConnectionError error && Nat.ltb attempt maxRetries)%bool
      eqn:Hconn.
    + destruct Hgo as (res & w2 & evs & Heq2 & Hd2 & Hs2 & Hl2 & Hp2 & Hres).
      rewrite Heq2. exists res, w2, (EvChat jobText :: evs1 ++ evs).
      split; [reflexivity|]. split; [exact Hd2|]. split; [exact Hs2|].
      split; [exact Hl2|].
      split; [cbn [delays]; by rewrite delays_app, Hd1, Hp2|].
      destruct res as [response|e].
      * destruct Hres as (k & content & Hk & Hfail & Hok & -> & Hc2 & Hcalls).
        exists k, content. do 5 (split; [done|]).
        cbn [chat_calls replicate]. by rewrite chat_calls_app, Hcalls1, Hcalls.
      * destruct Hres as (Hfail & Hc2 & Hcalls & Hlast).
        split; [exact Hfail|]. split; [exact Hc2|].
        split; [|exact Hlast].
        cbn [chat_calls replicate]. by rewrite chat_calls_app, Hcalls1, Hcalls.
    + destruct (Nat.eqb attempt maxRetries) eqn:Heqb.
      * destruct (Hstop _ eq_refl eq_refl eq_refl)
          as (res & w2 & evs & [= <- <-] & Hd2 & Hs2 & Hl2 & Hp2 & Hres).
        eexists _, _, evs. split; [reflexivity|]. done.
      * destruct Hgo as (res & w2 & evs & Heq2 & Hd2 & Hs2 & Hl2 & Hp2 & Hres).
        rewrite Heq2. exists res, w2, (EvChat jobText :: evs1 ++ evs).
        split; [reflexivity|]. split; [exact Hd2|]. split; [exact Hs2|].
        split; [exact Hl2|].
        split; [cbn [delays]; by rewrite delays_app, Hd1, Hp2|].
        destruct res as [response|e].
        -- destruct Hres as (k & content & Hk & Hfail & Hok & -> & Hc2 & Hcalls).
           exists k, content. do 5 (split; [done|]).
           cbn [chat_calls replicate]. by rewrite chat_calls_app, Hcalls1, Hcalls.
        -- destruct Hres as (Hfail & Hc2 & Hcalls & Hlast).
           split; [exact Hfail|]. split; [exact Hc2|].
           split; [|exact Hlast].
           cbn [chat_calls replicate]. by rewrite chat_calls_app, Hcalls1, Hcalls.
Qed.

(** X16. [classifyJobPosting] ends in one of two ways, whatever the
    service does. It returns the trimmed content of the first attempt
    that succeeds, having called the service once per attempt up to that
    one, each time with the same job text. Or every one of the
    [maxRetries] attempts failed and it raises the error of the last of
    them (the value [null] when [maxRetries] is 0 and nothing was
    called): unlike [classifyWithOpenAI] it has no default to fall back
    on. It pauses only after a failed attempt that was a connection
    error and not the last, one second doubled at each attempt. *)
Theorem X16_classifyJobPosting_outcome
    (create : nat -> string -> string -> completion)
    (jobPosting : Classifier.JobPosting) (options : Classifier.Options)
    (w : World) :
  let prompt := Classifier.promptOf options in
  let jobText := Classifier.jobTextOf jobPosting in
  let n := Classifier.maxRetries options in
  let run := Classifier.classifyJobPosting create jobPosting options w in
  let evs := new_events w run.2 in
  let failed j :=
    exists error, create (w_chats w + j)%nat prompt jobText = Failed error in
  w_disk run.2 = w_disk w
  /\ delays evs = Classifier.pauses create prompt jobText n 1 n (w_chats w)
  /\ match run.1 with
     | Ok response =>
         exists k content,
           (k < n)%nat /\ (forall j, (j < k)%nat -> failed j)
           /\ create (w_chats w + k)%nat prompt jobText = Content content
           /\ response = JS.trim content
           /\ w_chats run.2 = (w_chats w + S k)%nat
           /\ chat_calls evs = replicate (S k) jobText
     | Throw e =>
         (forall j, (j < n)%nat -> failed j)
         /\ w_chats run.2 = (w_chats w + n)%nat
         /\ chat_calls evs = replicate n jobText
         /\ match n with
            | O => e = thrown_null
            | S r =>
                exists error,
                  create (w_chats w + r)%nat prompt jobText = Failed error
                  /\ e = ae_error error
            end
     end.
Proof.
  cbv zeta. unfold Classifier.classifyJobPosting.
  destruct (Classifier_attempts_spec create (Classifier.promptOf options)
              (Classifier.jobTextOf jobPosting) (Classifier.maxRetries options)
              (Classifier.maxRetries options) 1%nat None w)
    as (res & w1 & evs & Heq & Hd & _ & Hl & Hp & Hres); [lia|].
  rewrite Heq. cbn [fst snd]. rewrite (new_events_app w w1 evs Hl).
  split; [exact Hd|]. split; [exact Hp|]. exact Hres.
Qed.

(** The service is rate limited twice, then answers: the third attempt
    returns its trimmed answer after pauses of one and two seconds. *)
Example throttled_posting :
  let run := Classifier.classifyJobPosting throttled backend_posting
               default_options (start None) in
  run.1 = Ok "TECHNICAL" /\ w_chats run.2 = 3%nat
  /\ delays (w_log run.2) = [1000; 2000]%Z.
Proof. repeat split; vm_compute; reflexivity. Qed.

(** ** The table saved after each row *)






(** ** The further statements on the scenarios *)

(** X5 with a service that times out once. *)
Lemma X5_witness :
  (classifyWithOpenAI (recovering office) "Backend Engineer" "We are hiring."
     (Some "sk-test") 3 (start None)).1 = Ok backend_classification
  /\ w_chats (classifyWithOpenAI (recovering office) "Backend Engineer"
                "We are hiring." (Some "sk-test") 3 (start None)).2 = 2%nat
  /\ delays (new_events (start None)
               (classifyWithOpenAI (recovering office) "Backend Engineer"
                  "We are hiring." (Some "sk-test") 3 (start None)).2)
     = [1000]%Z.
Proof.
  destruct (X5_classify_first_success (recovering office) "Backend Engineer"
              "We are hiring." "sk-test" 3 (start None) 1 backend_classification)
    as (Hr & Hc & _ & Hd).
  - reflexivity.
  - lia.
  - intros j Hj. assert (j = 0%nat) as -> by lia. discriminate.
  - vm_compute. reflexivity.
  - split; [exact Hr|]. split; [exact Hc|]. rewrite Hd. vm_compute. reflexivity.
Defined.

(** X7 on a sheet with the columns [Title] and [Company], in that order. *)
Lemma X7_witness :
  exists e,
    analyzeJobLinks (with_columns ["Title"; "Company"] office)
      (start (Some titles_only))
    = (Throw e, start (Some titles_only))
    /\ err_message e
       = Some ("JobLinks.xlsx must have a " +:+ JS.dq +:+ "Link" +:+ JS.dq
               +:+ " column. Found: Title, Company").
Proof.
  destruct (X7_analyze_fails_fast (with_columns ["Title"; "Company"] office)
              (start (Some titles_only)))
    as (e & He & _ & Hm & Horder).
  - right. eexists _, _. split; reflexivity.
  - exists e. split; [exact He|]. rewrite Hm, Horder; [reflexivity|].
    split; by_evaluation.
Defined.

(** X8 on the two rows of the scenario. *)
Lemma X8_witness :
  exists final : list (gmap string cell),
    w_disk (analyzeJobLinks office (start (Some job_rows))).2 = Some final
    /\ length final = 2%nat
    /\ exists merged,
         final !! 0%nat = Some merged
         /\ merged !! "Status" = Some (CStr "Not Applied")
         /\ merged !! "Link" = Some (CStr "https://x.com/job/1").
Proof.
  destruct (X8_completed_run office (start (Some job_rows)) job_rows
              {| filePath := "/srv/backend/output/JobLinks.xlsx";
                 fileName := "JobLinks.xlsx" |})
    as (final & Hd & Hlen & Hrows).
  - reflexivity.
  - vm_compute. reflexivity.
  - exists final. split; [exact Hd|]. split; [exact Hlen|].
    destruct (Hrows 0%nat backend_row eq_refl)
      as (merged & Hm & _ & Hstatus & Hlink & _).
    exists merged. split; [exact Hm|]. split; [exact Hstatus|].
    rewrite Hlink. vm_compute. reflexivity.
Defined.

(** X9 on the two rows of the scenario, one of which has a link. *)
Lemma X9_witness :
  w_sessions (analyzeJobLinks office (start (Some job_rows))).2 = 1%nat
  /\ w_browsers (analyzeJobLinks office (start (Some job_rows))).2 = 1%nat.
Proof.
  destruct (X9_run_cost office (start (Some job_rows)) job_rows eq_refl)
    as (_ & _ & _ & Hb & Hs).
  specialize (Hb (fun _ _ => eq_refl)).
  assert (Hrun : (analyzeJobLinks office (start (Some job_rows))).1
                 = Ok {| filePath := "/srv/backend/output/JobLinks.xlsx";
                         fileName := "JobLinks.xlsx" |})
    by (vm_compute; reflexivity).
  specialize (Hs _ Hrun).
  change (linked_rows job_rows) with 1%nat in Hs.
  change (w_sessions (start (Some job_rows))) with 0%nat in Hs, Hb.
  change (w_browsers (start (Some job_rows))) with 0%nat in Hb.
  split; lia.
Defined.

(** X10 on a page of 12000 characters followed by one more sentence. *)
Lemma X10_witness :
  (MAX_CONTENT_CHARS <= String.length long_page)%nat
  /\ classifyWithOpenAI office "Backend Engineer"
       (long_page +:+ "Apply before Friday.") (Some "sk-test") 3 (start None)
     = classifyWithOpenAI office "Backend Engineer" long_page
         (Some "sk-test") 3 (start None).
Proof.
  assert (Hlong : (MAX_CONTENT_CHARS <= String.length long_page)%nat).
  { apply Nat.leb_le. vm_compute. reflexivity. }
  split; [exact Hlong|]. apply X10_text_is_truncated. exact Hlong.
Defined.

(** X11 on the reply of the scenario inside a fence tagged [JSON]. *)
Lemma X11_witness :
  decodeReply office
    (" " +:+ fenced "JSON" JS.nl backend_reply JS.nl +:+ JS.nl)
  = decodeReply office backend_reply.
Proof.
  apply X11_fence_is_transparent; try reflexivity.
  left. reflexivity.
Defined.

(** X12 with a service that answers [null] three times. *)
Lemma X12_witness :
  (classifyWithOpenAI null_office "Backend Engineer" "We are hiring."
     (Some "sk-test") 3 (start None)).1 = Ok DEFAULT_CLASSIFICATION
  /\ w_chats (classifyWithOpenAI null_office "Backend Engineer"
                "We are hiring." (Some "sk-test") 3 (start None)).2 = 3%nat
  /\ delays (new_events (start None)
               (classifyWithOpenAI null_office "Backend Engineer"
                  "We are hiring." (Some "sk-test") 3 (start None)).2) = [].
Proof.
  destruct (X12_reply_without_fields null_office "Backend Engineer"
              "We are hiring." "sk-test" 3 (start None) eq_refl) as [_ Hnull].
  destruct Hnull as (Hr & Hc & _ & Hd).
  - intros j Hj. exists "null". split; reflexivity.
  - split; [exact Hr|]. split; [exact Hc | exact Hd].
Defined.

(** X13 on a link with a campaign parameter and a fragment. *)
Lemma X13_witness :
  refineLink office "https://jobs.example.com/posting/42?utm_source=mail#apply"
  = "https://jobs.example.com/posting/42"
  /\ JS.includes
       (refineLink office "https://jobs.example.com/posting/42?utm_source=mail#apply")
       "?" = false.
Proof.
  split; [vm_compute; reflexivity|].
  apply (X13_refined_link_has_no_query office
           "https://jobs.example.com/posting/42?utm_source=mail#apply"
           {| origin := "https://jobs.example.com"; pathname := "/posting/42";
              hostname := "jobs.example.com" |});
    vm_compute; reflexivity.
Defined.

Lemma office_replies_joinable : replies_joinable office.
Proof.
  intros k userContent c. unfold attempt_outcome. cbn [env_chat office].
  intros Hc. change (decodeReply office backend_reply) with (Ok backend_classification) in Hc.
  injection Hc as <-. split; reflexivity.
Qed.

(** X14 in the office. *)
Lemma X14_witness :
  (analyzeJobLinks office (start (Some job_rows))).1
  = Ok {| filePath := "/srv/backend/output/JobLinks.xlsx";
          fileName := "JobLinks.xlsx" |}.
Proof.
  apply (X14_run_completes office (start (Some job_rows)) job_rows).
  - reflexivity.
  - intros r0 rest [= <- _]. by eexists.
  - reflexivity.
  - exact office_replies_joinable.
Defined.

(** X15 on the key of the scenario, which the diagnostic finds too short. *)
Lemma X15_witness :
  Classifier.constructor (Some "sk-test") = Ok tt
  /\ (Diagnostic.testApiKeyFormat (Some "sk-test") (start None)).1 = Ok false.
Proof.
  destruct (X15_credential_checks_agree (Some "sk-test") (start None))
    as (Hc & Hd & _).
  split; [apply Hc; reflexivity | exact Hd].
Defined.

(** X19 on the first row of the scenario when no page can be reached. *)
Lemma X19_witness :
  exists n,
    (1 <= n <= 3)%nat
    /\ chat_calls (new_events (start (Some job_rows))
                     (processRow unreachable_office job_rows [] 0 backend_row
                        (start (Some job_rows))).2)
       = replicate n
           ("Job Title: Backend Engineer" +:+ JS.nl +:+ JS.nl
            +:+ "Job description / page content:" +:+ JS.nl +:+ "(no content)").
Proof.
  destruct (X19_row_with_link unreachable_office job_rows [] 0 backend_row
              (start (Some job_rows)))
    as (n & Hn & _ & _ & Hcalls & Hmsg).
  - reflexivity.
  - reflexivity.
  - exists n. split; [exact Hn|]. rewrite Hcalls, Hmsg; [reflexivity|].
    vm_compute. discriminate.
Defined.

